(** * Safe controls refinement: pointer-gesture state machine, camera
      geometry and point-cloud picking.

    A shallow embedding of [Copper-Rock/safe-controls-refinement.mjs] and of
    the point sampling / ray picking module that ships with it.

    JavaScript Numbers are IEEE-754 binary64 values; they are embedded as
    Rocq's primitive [float], whose operations are the same binary64
    operations.  Decimal literals denote the nearest binary64 value, as they
    do in JavaScript. *)

From Stdlib Require Import ZArith Floats Bool List Lia QArith Qreduction String.
From stdpp Require Import base decidable gmap sets list.

#[local] Set Warnings "-inexact-float".
#[local] Open Scope Z_scope.

(* ------------------------------------------------------------------ *)
(** ** Numbers of the host language *)

Module Num.

(** [Number.isFinite] *)
Definition isFinite (v : float) : bool := is_finite v.

(** [a > b], [a >= b] on Numbers; [a < b] is [ltb] and [a <= b] is [leb]. *)
Definition gtb (a b : float) : bool := (b <? a)%float.
Definition geb (a b : float) : bool := (b <=? a)%float.

(** [Math.max] and [Math.min] on two arguments: NaN is contagious and
    [-0] is below [+0]. *)
Definition max (a b : float) : float :=
  if is_nan a || is_nan b then nan
  else if (a <? b)%float then b
  else if (b <? a)%float then a
  else if get_sign a then b else a.

Definition min (a b : float) : float :=
  if is_nan a || is_nan b then nan
  else if (a <? b)%float then a
  else if (b <? a)%float then b
  else if get_sign a then a else b.

(** The value of a binary64 number truncated towards zero; [0] for the
    values that are not finite.  This is the integer part used by
    [ToInt32] and, on a non-negative argument, by [Math.floor]. *)
Definition trunc (v : float) : Z :=
  match Prim2SF v with
  | S754_finite s m e =>
      let a := if 0 <=? e then Z.shiftl (Z.pos m) e
               else Z.shiftr (Z.pos m) (- e) in
      if s then - a else a
  | _ => 0
  end.

(** [Math.floor] of a finite Number, as an integer. *)
Definition floor (v : float) : Z :=
  match Prim2SF v with
  | S754_finite s m e =>
      if 0 <=? e then (if s then - Z.shiftl (Z.pos m) e
                       else Z.shiftl (Z.pos m) e)
      else if s then - Z.shiftr (Z.pos m + (2 ^ (- e) - 1)) (- e)
           else Z.shiftr (Z.pos m) (- e)
  | _ => 0
  end.

(** [ToInt32]: the integer part modulo 2^32, read as a signed word. *)
Definition toInt32 (v : float) : Z :=
  let m := trunc v mod 2 ^ 32 in
  if 2 ^ 31 <=? m then m - 2 ^ 32 else m.

(** An integer below 2^53 as a Number (exact). *)
Definition ofZ (n : Z) : float :=
  if n <? 0 then (- of_uint63 (Uint63.of_Z (- n)))%float
  else of_uint63 (Uint63.of_Z n).

(** [2 ** k] for an integer [k]: an exact power of two. *)
Definition pow2 (k : Z) : float := Z.ldexp one k.

End Num.

(** The host functions the module calls but does not define.  [Math.hypot]
    and the trigonometric functions are implementation-approximated by the
    language standard, and the vector class is handed in by the caller, so
    the development is parametric in them. *)
Class Host := {
  Math_hypot : float -> float -> float -> float;
  Math_atan2 : float -> float -> float;
  Math_acos : float -> float;
  Math_sin : float -> float;
  Math_cos : float -> float;
}.

(** [Math.PI] *)
Definition Math_PI : float := 3.141592653589793%float.

(** Plain [{x, y, z}] records. *)
Module V.
Record t := mk { x : float; y : float; z : float }.
End V.
Abbreviation vec3 := V.t.

(* ------------------------------------------------------------------ *)
(** ** Interaction modes and the pure classifier *)

Inductive InteractionMode :=
  NONE | PAN | PINCH | ORBIT | DOLLY | TILT | OTHER.

#[global] Instance InteractionMode_eq_dec : EqDecision InteractionMode.
Proof. solve_decision. Defined.

Definition isDesktopPointer (pointerType : string) : bool :=
  negb (String.eqb pointerType "touch") && negb (String.eqb pointerType "pen").

Inductive LeftMouseAction := rotate | pan.

Definition resolveLeftMouseAction (altKey : bool) : LeftMouseAction :=
  if altKey then rotate else pan.

Definition classifyPointerInteraction (pointerType : string) (button : Z)
    (altKey shiftKey : bool) (activeTouchCount : Z) : InteractionMode :=
  if negb (isDesktopPointer pointerType) then
    (if 2 <=? activeTouchCount then PINCH else PAN)
  else if (button =? 0) && shiftKey then TILT
  else if (button =? 0) && altKey then ORBIT
  else if button =? 0 then PAN
  else if button =? 1 then DOLLY
  else if button =? 2 then ORBIT
  else OTHER.

(* ------------------------------------------------------------------ *)
(** ** Geometry *)

Definition default_epsilon : float := 1e-8%float.

Definition shouldTranslateCameraForTargetDelta (userInteracting : bool)
    (interactionMode : InteractionMode) (deltaLength : float)
    (epsilon : option float) : bool :=
  let epsilon := default default_epsilon epsilon in
  userInteracting
  && bool_decide (interactionMode = PAN)
  && Num.isFinite deltaLength
  && Num.gtb deltaLength epsilon.

Definition clamp (value minValue maxValue : float) : float :=
  Num.min (Num.max value minValue) maxValue.

Definition default_zoomFactor : float := 0.72%float.

Definition computeZoomedCameraDistance (currentDistance minDistance maxDistance : float)
    (zoomFactor : option float) : float :=
  let zoomFactor := default default_zoomFactor zoomFactor in
  if negb (Num.isFinite currentDistance) || (currentDistance <=? 0)%float
  then currentDistance
  else
    let lower := if Num.isFinite minDistance then minDistance else 0%float in
    let upper := if Num.isFinite maxDistance then Num.max lower maxDistance
                 else infinity in
    let nextDistance := (currentDistance * zoomFactor)%float in
    clamp nextDistance lower upper.

Definition computeTiltAngleFromDrag (deltaY : float)
    (radiansPerPixel maxStep : option float) : float :=
  let radiansPerPixel := default 0.005%float radiansPerPixel in
  let maxStep := default 0.1%float maxStep in
  if negb (Num.isFinite deltaY) || negb (Num.isFinite radiansPerPixel)
     || (radiansPerPixel =? 0)%float
  then 0%float
  else clamp (deltaY * radiansPerPixel)%float (- maxStep)%float maxStep.

Record PanResult := {
  delta : vec3;
  deltaLength : float;
  shouldTranslate : bool;
  nextCamera : vec3;
}.

Definition applyPanTranslation `{Host} (prevCamera prevTarget nextTarget : vec3)
    (userInteracting : bool) (interactionMode : InteractionMode)
    (epsilon : option float) : PanResult :=
  let delta := V.mk (V.x nextTarget - V.x prevTarget)%float
                    (V.y nextTarget - V.y prevTarget)%float
                    (V.z nextTarget - V.z prevTarget)%float in
  let deltaLength := Math_hypot (V.x delta) (V.y delta) (V.z delta) in
  let shouldTranslate :=
    shouldTranslateCameraForTargetDelta userInteracting interactionMode
                                        deltaLength epsilon in
  if negb shouldTranslate then
    {| delta := delta; deltaLength := deltaLength;
       shouldTranslate := shouldTranslate;
       nextCamera := V.mk (V.x prevCamera) (V.y prevCamera) (V.z prevCamera) |}
  else
    {| delta := delta; deltaLength := deltaLength;
       shouldTranslate := shouldTranslate;
       nextCamera := V.mk (V.x prevCamera + V.x delta)%float
                          (V.y prevCamera + V.y delta)%float
                          (V.z prevCamera + V.z delta)%float |}.

(* ------------------------------------------------------------------ *)
(** ** Half-float decoding and point sampling *)

Definition HALF_FLOAT_SIGN_MASK : Z := 0x8000.
Definition HALF_FLOAT_EXPONENT_MASK : Z := 0x7c00.
Definition HALF_FLOAT_FRACTION_MASK : Z := 0x03ff.
Definition HALF_FLOAT_EXPONENT_SHIFT : Z := 10.
Definition HALF_FLOAT_MAX_EXPONENT : Z := 0x1f.
Definition DEFAULT_TARGET_SAMPLE_COUNT : Z := 18000.

(** The three bit fields of a 16-bit pattern, as [decodeFloat16] cuts them. *)
Definition half_sign (bits : Z) : float :=
  if Z.land bits HALF_FLOAT_SIGN_MASK =? 0 then 1%float else (-1)%float.
Definition half_exponent (bits : Z) : Z :=
  Z.shiftr (Z.land bits HALF_FLOAT_EXPONENT_MASK) HALF_FLOAT_EXPONENT_SHIFT.
Definition half_fraction (bits : Z) : Z :=
  Z.land bits HALF_FLOAT_FRACTION_MASK.

(** The body of [decodeFloat16] once [bits = value & 0xffff] is known. *)
Definition decodeFloat16_bits (bits : Z) : float :=
  let sign := half_sign bits in
  let exponent := half_exponent bits in
  let fraction := half_fraction bits in
  if exponent =? 0 then
    if fraction =? 0 then (sign * 0)%float
    else (sign * Num.pow2 (-14) * (Num.ofZ fraction / 1024))%float
  else if exponent =? HALF_FLOAT_MAX_EXPONENT then
    if fraction =? 0 then (sign * infinity)%float else nan
  else
    (sign * Num.pow2 (exponent - 15) * (1 + Num.ofZ fraction / 1024))%float.

Definition decodeFloat16 (value : float) : float :=
  if negb (Num.isFinite value) then nan
  else decodeFloat16_bits (Z.land (Num.toInt32 value) 0xffff).

(** Integer-valued Numbers that may be [+Infinity].  Array lengths and point
    counts are integers below 2^53, on which the binary64 operations used
    here ([floor], [ceil] of a quotient, [min], [max], [+], [*]) are exact;
    [+Infinity] arises from the division by a zero sample budget. *)
Inductive xnum := Int (n : Z) | PInf.

(** [Math.ceil(a / b)] for an integer [a > 0] and [b >= 0]. *)
Definition ceilDiv (a : Z) (b : xnum) : xnum :=
  match b with
  | PInf => Int 0
  | Int b => if b =? 0 then PInf else Int (- ((- a) / b))
  end.

(** [Math.max(1, v)] *)
Definition max1 (v : xnum) : xnum :=
  match v with PInf => PInf | Int n => Int (Z.max 1 n) end.

Definition xadd (i : Z) (s : xnum) : xnum :=
  match s with PInf => PInf | Int n => Int (i + n) end.

Definition xmul3 (v : xnum) : Z :=
  match v with PInf => 0 | Int n => n * 3 end.

(** Reading an array element; past the end the read is [undefined], which
    every arithmetic operation and [Number.isFinite] treat as NaN. *)
Definition read (a : list float) (i : Z) : float :=
  if i <? 0 then nan else nth (Z.to_nat i) a nan.

(** The result object.  The samples are half-precision values, which the
    [Float32Array] of the source stores exactly. *)
Record SampleResult := {
  samples : list float;
  stride : xnum;
  sourcePointCount : Z;
  sampledPointCount : Z;
}.

(** The [for (pointIndex = 0; pointIndex < sourcePointCount; pointIndex += stride)]
    loop.  [samples] is the preallocated typed array: a write past its end
    is ignored, as [<[_:=_]>] does. *)
Fixpoint sample_loop (fuel : nat) (cpuPoints : list float)
    (sourcePointCount : Z) (stride : xnum) (pointIndex : xnum)
    (samples : list float) (writeOffset : Z) : list float * Z :=
  match fuel, pointIndex with
  | S fuel, Int pointIndex =>
      if pointIndex <? sourcePointCount then
        let sourceOffset := pointIndex * 3 in
        let x := (- decodeFloat16 (read cpuPoints sourceOffset))%float in
        let y := (- decodeFloat16 (read cpuPoints (sourceOffset + 1)))%float in
        let z := decodeFloat16 (read cpuPoints (sourceOffset + 2)) in
        if negb (Num.isFinite x) || negb (Num.isFinite y) || negb (Num.isFinite z)
        then sample_loop fuel cpuPoints sourcePointCount stride
                         (xadd pointIndex stride) samples writeOffset
        else
          let samples := <[Z.to_nat writeOffset := x]> samples in
          let samples := <[Z.to_nat (writeOffset + 1) := y]> samples in
          let samples := <[Z.to_nat (writeOffset + 2) := z]> samples in
          sample_loop fuel cpuPoints sourcePointCount stride
                      (xadd pointIndex stride) samples (writeOffset + 3)
      else (samples, writeOffset)
  | _, _ => (samples, writeOffset)
  end.

Definition sampleCpuPointsForFocus (cpuPoints : option (list float))
    (pointCount : float) (targetSampleCount : option float) : option SampleResult :=
  match cpuPoints with
  | None => None
  | Some cpuPoints =>
      let cpuPoints_length := Z.of_nat (length cpuPoints) in
      if cpuPoints_length <? 3 then None
      else
        let availablePointCount := cpuPoints_length / 3 in
        let requestedPointCount :=
          if Num.isFinite pointCount then Z.max 0 (Num.floor pointCount)
          else availablePointCount in
        let sourcePointCount := Z.min requestedPointCount availablePointCount in
        if sourcePointCount =? 0 then None
        else
          let normalizedTargetSampleCount :=
            match targetSampleCount with
            | Some t => if Num.isFinite t && Num.gtb t 0 then Num.floor t
                        else DEFAULT_TARGET_SAMPLE_COUNT
            | None => DEFAULT_TARGET_SAMPLE_COUNT
            end in
          let stride :=
            max1 (ceilDiv sourcePointCount (Int normalizedTargetSampleCount)) in
          let estimatedSampledPointCount := ceilDiv sourcePointCount stride in
          let samples :=
            replicate (Z.to_nat (xmul3 estimatedSampledPointCount)) 0%float in
          let '(samples, writeOffset) :=
            sample_loop (Z.to_nat sourcePointCount) cpuPoints sourcePointCount
                        stride (Int 0) samples 0 in
          if writeOffset =? 0 then None
          else
            let samples :=
              if negb (writeOffset =? Z.of_nat (length samples))
              then take (Z.to_nat writeOffset) samples else samples in
            Some {| samples := samples; stride := stride;
                    sourcePointCount := sourcePointCount;
                    sampledPointCount := Z.of_nat (length samples) / 3 |}
  end.

(* ------------------------------------------------------------------ *)
(** ** Ray picking *)

Module Hit.
Record t := mk {
  sampleOffset : Z;
  x : float; y : float; z : float;
  distanceSq : float;
  rayDistance : float;
}.
End Hit.

(** The running best of the scan: [bestOffset], [bestDistanceSq],
    [bestRayDistance]. *)
Record Best := {
  bestOffset : Z;
  bestDistanceSq : float;
  bestRayDistance : float;
}.

Definition initialBest : Best :=
  {| bestOffset := -1; bestDistanceSq := infinity; bestRayDistance := infinity |}.

Section Scan.
Variables (originX originY originZ directionX directionY directionZ : float).
Variable distanceSqLimit : float.

Definition rayDistanceOf (pointX pointY pointZ : float) : float :=
  let toPointX := (pointX - originX)%float in
  let toPointY := (pointY - originY)%float in
  let toPointZ := (pointZ - originZ)%float in
  (toPointX * directionX + toPointY * directionY + toPointZ * directionZ)%float.

Definition distanceSqOf (pointX pointY pointZ : float) : float :=
  let rayDistance := rayDistanceOf pointX pointY pointZ in
  let closestPointX := (originX + directionX * rayDistance)%float in
  let closestPointY := (originY + directionY * rayDistance)%float in
  let closestPointZ := (originZ + directionZ * rayDistance)%float in
  let deltaX := (pointX - closestPointX)%float in
  let deltaY := (pointY - closestPointY)%float in
  let deltaZ := (pointZ - closestPointZ)%float in
  (deltaX * deltaX + deltaY * deltaY + deltaZ * deltaZ)%float.

(** One iteration of the loop body on the sample at [offset]. *)
Definition consider (offset : Z) (pointX pointY pointZ : float) (best : Best) : Best :=
  let rayDistance := rayDistanceOf pointX pointY pointZ in
  if (rayDistance <=? 0)%float then best
  else
    let distanceSq := distanceSqOf pointX pointY pointZ in
    if Num.gtb distanceSq distanceSqLimit then best
    else if (distanceSq <? bestDistanceSq best)%float
            || ((abs (distanceSq - bestDistanceSq best) <=? 1e-12)%float
                && (rayDistance <? bestRayDistance best)%float)
    then {| bestOffset := offset; bestDistanceSq := distanceSq;
            bestRayDistance := rayDistance |}
    else best.

(** The [for (offset = 0; offset < samples.length; offset += 3)] loop over
    the part of the array from [offset] on; a triple cut short by the end
    of the array reads [undefined] for the missing coordinates. *)
Fixpoint scan (rest : list float) (offset : Z) (best : Best) : Best :=
  match rest with
  | [] => best
  | [pointX] => consider offset pointX nan nan best
  | [pointX; pointY] => consider offset pointX pointY nan best
  | pointX :: pointY :: pointZ :: rest =>
      scan rest (offset + 3) (consider offset pointX pointY pointZ best)
  end.
End Scan.

Definition findClosestSampleToRay `{Host} (samples : option (list float))
    (rayOrigin rayDirection : option vec3) (maxDistanceSq : option float)
    : option Hit.t :=
  let maxDistanceSq := default infinity maxDistanceSq in
  match samples, rayOrigin, rayDirection with
  | Some samples, Some rayOrigin, Some rayDirection =>
      if Z.of_nat (length samples) <? 3 then None
      else
        let directionX := V.x rayDirection in
        let directionY := V.y rayDirection in
        let directionZ := V.z rayDirection in
        let directionLength := Math_hypot directionX directionY directionZ in
        if negb (Num.gtb directionLength 1e-12) then None
        else
          let directionX := (directionX / directionLength)%float in
          let directionY := (directionY / directionLength)%float in
          let directionZ := (directionZ / directionLength)%float in
          let originX := V.x rayOrigin in
          let originY := V.y rayOrigin in
          let originZ := V.z rayOrigin in
          if negb (Num.isFinite originX) || negb (Num.isFinite originY)
             || negb (Num.isFinite originZ)
          then None
          else
            let distanceSqLimit :=
              if Num.isFinite maxDistanceSq && Num.geb maxDistanceSq 0
              then maxDistanceSq else infinity in
            let best :=
              scan originX originY originZ directionX directionY directionZ
                   distanceSqLimit samples 0 initialBest in
            if bestOffset best <? 0 then None
            else Some (Hit.mk (bestOffset best)
                              (read samples (bestOffset best))
                              (read samples (bestOffset best + 1))
                              (read samples (bestOffset best + 2))
                              (bestDistanceSq best) (bestRayDistance best))
  | _, _, _ => None
  end.

(* ------------------------------------------------------------------ *)
(** ** Screen distance *)

(** [computeScreenDistancePx]; [Math_hypot2] is the host's two-argument
    [Math.hypot]. *)
Definition computeScreenDistancePx (Math_hypot2 : float -> float -> float)
    (ndcX ndcY viewportWidth viewportHeight pointerX pointerY : float) : float :=
  if negb (Num.isFinite ndcX) || negb (Num.isFinite ndcY) then infinity
  else if negb (Num.isFinite viewportWidth) || negb (Num.isFinite viewportHeight)
  then infinity
  else if negb (Num.isFinite pointerX) || negb (Num.isFinite pointerY) then infinity
  else
    let screenX := ((ndcX + 1) * 0.5 * viewportWidth)%float in
    let screenY := ((1 - ndcY) * 0.5 * viewportHeight)%float in
    Math_hypot2 (screenX - pointerX)%float (screenY - pointerY)%float.

(* ------------------------------------------------------------------ *)
(** ** The installed state machine *)

Module Tilt.
Record t := mk { active : bool; pointerId : option Z; lastClientY : float }.
End Tilt.

(** The [state] object of one [installSafeControlsRefinement] call. *)
Record PointerState := {
  interactionMode : InteractionMode;
  touchPointerIds : gset Z;
  activeMousePointerId : option Z;
  shiftTilt : Tilt.t;
}.

(** The fields of a pointer, mouse or focus event the handlers read. *)
Module Ev.
Record t := mk {
  pointerId : Z;
  pointerType : string;
  button : Z;
  clientY : float;
  altKey : bool;
  shiftKey : bool;
}.
End Ev.

(** The collaborators handed to [installSafeControlsRefinement].  A field
    that is absent reads [undefined], which [Number.isFinite] rejects like
    NaN; [rotateUp] records whether the controller has that method. *)
Record Controls := {
  mouseButtons_LEFT : Z;
  minDistance : float;
  maxDistance : float;
  target : vec3;
  enabled : bool;
  rotateUp : bool;
  minPolarAngle : float;
  maxPolarAngle : float;
}.

Record Camera := { position : vec3 }.

Record LotEditState := { active : bool }.

Record MouseTable := { MOUSE_PAN : Z; MOUSE_DOLLY : Z; MOUSE_ROTATE : Z }.

(** The vector class of the caller: [length] and [setLength] are its own;
    [subVectors], [copy] and [add] are componentwise. *)
Module VectorClass.
Record t := mk {
  length : vec3 -> float;
  setLength : vec3 -> float -> vec3;
}.
End VectorClass.

Definition subVectors (a b : vec3) : vec3 :=
  V.mk (V.x a - V.x b)%float (V.y a - V.y b)%float (V.z a - V.z b)%float.

Definition addVectors (a b : vec3) : vec3 :=
  V.mk (V.x a + V.x b)%float (V.y a + V.y b)%float (V.z a + V.z b)%float.

(** Calls that leave the module: methods of the controller, the navigation
    callback, and the two methods of the event being handled. *)
Inductive Call :=
| controls_rotateUp (amount : float)
| controls_update
| onUserNavigate_call
| preventDefault
| stopPropagation.

Inductive EventTarget := windowTarget_ | domElement_.

Inductive Handler :=
| handlePointerDown_ | handlePointerMove_ | handlePointerUpOrCancel_
| handleWindowBlur_ | handleDoubleClick_.

#[global] Instance EventTarget_eq_dec : EqDecision EventTarget.
Proof. solve_decision. Defined.
#[global] Instance Handler_eq_dec : EqDecision Handler.
Proof. solve_decision. Defined.

Record Listener := {
  l_target : EventTarget;
  l_type : string;
  l_handler : Handler;
  l_capture : bool;
}.

#[global] Instance Listener_eq_dec : EqDecision Listener.
Proof. solve_decision. Defined.

(** Everything one installed instance reads and writes: its own [state], the
    collaborators it mutates, the edit-mode flag holder (if one was given),
    the listeners registered, and the calls made so far (latest first). *)
Record Machine := {
  state : PointerState;
  controls : Controls;
  camera : Camera;
  lotEditState : option LotEditState;
  listeners : list Listener;
  calls : list Call;
}.

Definition with_state (f : PointerState -> PointerState) (m : Machine) : Machine :=
  {| state := f (state m); controls := controls m; camera := camera m;
     lotEditState := lotEditState m; listeners := listeners m; calls := calls m |}.

Definition with_controls (f : Controls -> Controls) (m : Machine) : Machine :=
  {| state := state m; controls := f (controls m); camera := camera m;
     lotEditState := lotEditState m; listeners := listeners m; calls := calls m |}.

Definition with_camera_position (p : vec3) (m : Machine) : Machine :=
  {| state := state m; controls := controls m; camera := {| position := p |};
     lotEditState := lotEditState m; listeners := listeners m; calls := calls m |}.

Definition call (c : Call) (m : Machine) : Machine :=
  {| state := state m; controls := controls m; camera := camera m;
     lotEditState := lotEditState m; listeners := listeners m;
     calls := c :: calls m |}.

Definition set_interactionMode (v : InteractionMode) (s : PointerState) : PointerState :=
  {| interactionMode := v; touchPointerIds := touchPointerIds s;
     activeMousePointerId := activeMousePointerId s; shiftTilt := shiftTilt s |}.

Definition set_touchPointerIds (v : gset Z) (s : PointerState) : PointerState :=
  {| interactionMode := interactionMode s; touchPointerIds := v;
     activeMousePointerId := activeMousePointerId s; shiftTilt := shiftTilt s |}.

Definition set_activeMousePointerId (v : option Z) (s : PointerState) : PointerState :=
  {| interactionMode := interactionMode s; touchPointerIds := touchPointerIds s;
     activeMousePointerId := v; shiftTilt := shiftTilt s |}.

Definition set_shiftTilt (v : Tilt.t) (s : PointerState) : PointerState :=
  {| interactionMode := interactionMode s; touchPointerIds := touchPointerIds s;
     activeMousePointerId := activeMousePointerId s; shiftTilt := v |}.

Definition set_LEFT (v : Z) (c : Controls) : Controls :=
  {| mouseButtons_LEFT := v; minDistance := minDistance c;
     maxDistance := maxDistance c; target := target c; enabled := enabled c;
     rotateUp := rotateUp c; minPolarAngle := minPolarAngle c;
     maxPolarAngle := maxPolarAngle c |}.

Definition set_enabled (v : bool) (c : Controls) : Controls :=
  {| mouseButtons_LEFT := mouseButtons_LEFT c; minDistance := minDistance c;
     maxDistance := maxDistance c; target := target c; enabled := v;
     rotateUp := rotateUp c; minPolarAngle := minPolarAngle c;
     maxPolarAngle := maxPolarAngle c |}.

(** [lotEditState && lotEditState.active] *)
Definition editActive (m : Machine) : bool :=
  match lotEditState m with Some l => active l | None => false end.

Section Handlers.
Context `{Host}.
(** The dependencies captured by the closures of one install. *)
Variable MOUSE : MouseTable.
Variable Vector3 : VectorClass.t.
(** [typeof onUserNavigate === 'function'] *)
Variable onUserNavigate : bool.

Definition emitUserNavigate (m : Machine) : Machine :=
  if onUserNavigate then call onUserNavigate_call m else m.

Definition setLeftMouseBinding (event : Ev.t) (m : Machine) : Machine :=
  with_controls
    (set_LEFT (match resolveLeftMouseAction (Ev.altKey event) with
               | rotate => MOUSE_ROTATE MOUSE
               | pan => MOUSE_PAN MOUSE
               end)) m.

Definition resetLeftMouseBinding (m : Machine) : Machine :=
  with_controls (set_LEFT (MOUSE_PAN MOUSE)) m.

Definition updateTouchInteractionMode (s : PointerState) : PointerState :=
  if 2 <=? Z.of_nat (size (touchPointerIds s)) then set_interactionMode PINCH s
  else set_interactionMode
         (if Z.of_nat (size (touchPointerIds s)) =? 1 then PAN else NONE) s.

(** [endShiftTilt(pointerId)]; [None] is the call without an argument. *)
Definition endShiftTilt (pointerId : option Z) (m : Machine) : Machine :=
  if negb (Tilt.active (shiftTilt (state m))) then m
  else if match pointerId with
          | Some id => negb (bool_decide (Some id = Tilt.pointerId (shiftTilt (state m))))
          | None => false
          end
  then m
  else
    let m := with_state
               (fun s => set_shiftTilt
                           (Tilt.mk false None (Tilt.lastClientY (shiftTilt s))) s) m in
    with_controls (set_enabled true) m.

Definition handlePointerDown (event : Ev.t) (m : Machine) : Machine :=
  if editActive m then m
  else if negb (isDesktopPointer (Ev.pointerType event)) then
    with_state
      (fun s => updateTouchInteractionMode
                  (set_touchPointerIds ({[ Ev.pointerId event ]} ∪ touchPointerIds s) s))
      m
  else
    let m := with_state
               (set_interactionMode
                  (classifyPointerInteraction (Ev.pointerType event)
                     (Ev.button event) (Ev.altKey event) (Ev.shiftKey event) 0)) m in
    let m := if Ev.button event =? 0 then
               setLeftMouseBinding event
                 (with_state (set_activeMousePointerId (Some (Ev.pointerId event))) m)
             else m in
    if bool_decide (interactionMode (state m) = TILT) then
      let m := with_state
                 (set_shiftTilt
                    (Tilt.mk true (Some (Ev.pointerId event)) (Ev.clientY event))) m in
      let m := with_controls (set_enabled false) m in
      call stopPropagation (call preventDefault m)
    else m.

Definition handlePointerMove (event : Ev.t) (m : Machine) : Machine :=
  if negb (Tilt.active (shiftTilt (state m))) then m
  else if negb (bool_decide (Some (Ev.pointerId event)
                             = Tilt.pointerId (shiftTilt (state m)))) then m
  else if negb (isDesktopPointer (Ev.pointerType event)) then m
  else if editActive m then m
  else
    let deltaY := (Ev.clientY event - Tilt.lastClientY (shiftTilt (state m)))%float in
    let m := with_state
               (fun s => set_shiftTilt
                           (Tilt.mk (Tilt.active (shiftTilt s))
                                    (Tilt.pointerId (shiftTilt s))
                                    (Ev.clientY event)) s) m in
    let rotateUpAmount := computeTiltAngleFromDrag deltaY None None in
    if (abs rotateUpAmount <=? 1e-12)%float then m
    else
      let m :=
        if rotateUp (controls m) then call (controls_rotateUp rotateUpAmount) m
        else
          let offset := subVectors (position (camera m)) (target (controls m)) in
          let radius := VectorClass.length Vector3 offset in
          if Num.gtb radius 1e-8 then
            let azimuth := Math_atan2 (V.x offset) (V.z offset) in
            let currentPolar :=
              Math_acos (clamp (V.y offset / radius) (-1) 1)%float in
            let minPolar := if Num.isFinite (minPolarAngle (controls m))
                            then minPolarAngle (controls m) else 0%float in
            let maxPolar := if Num.isFinite (maxPolarAngle (controls m))
                            then maxPolarAngle (controls m) else Math_PI in
            let nextPolar :=
              clamp (currentPolar + rotateUpAmount)%float minPolar maxPolar in
            let sinPolar := Math_sin nextPolar in
            let offset :=
              V.mk (radius * sinPolar * Math_sin azimuth)%float
                   (radius * Math_cos nextPolar)%float
                   (radius * sinPolar * Math_cos azimuth)%float in
            with_camera_position (addVectors (target (controls m)) offset) m
          else m in
      let m := call controls_update m in
      let m := emitUserNavigate m in
      call preventDefault m.

Definition handlePointerUpOrCancel (event : Ev.t) (m : Machine) : Machine :=
  if negb (isDesktopPointer (Ev.pointerType event)) then
    with_state
      (fun s => updateTouchInteractionMode
                  (set_touchPointerIds (touchPointerIds s ∖ {[ Ev.pointerId event ]}) s))
      m
  else
    let m := endShiftTilt (Some (Ev.pointerId event)) m in
    let m :=
      if bool_decide (Some (Ev.pointerId event) = activeMousePointerId (state m))
         || (Ev.button event =? 0)
      then resetLeftMouseBinding (with_state (set_activeMousePointerId None) m)
      else m in
    with_state (set_interactionMode NONE) m.

Definition handleWindowBlur (m : Machine) : Machine :=
  let m := with_state (set_touchPointerIds ∅) m in
  let m := endShiftTilt None m in
  let m := with_state (set_activeMousePointerId None) m in
  let m := with_state (set_interactionMode NONE) m in
  resetLeftMouseBinding m.

Definition handleDoubleClick (event : Ev.t) (m : Machine) : Machine :=
  if editActive m then m
  else if negb (isDesktopPointer (Ev.pointerType event)) then m
  else
    let offset := subVectors (position (camera m)) (target (controls m)) in
    let currentDistance := VectorClass.length Vector3 offset in
    if negb (Num.gtb currentDistance 1e-8) then m
    else
      let nextDistance :=
        computeZoomedCameraDistance currentDistance (minDistance (controls m))
                                    (maxDistance (controls m)) None in
      if (abs (nextDistance - currentDistance) <=? 1e-8)%float then m
      else
        let offset := VectorClass.setLength Vector3 offset nextDistance in
        let m := with_camera_position (addVectors (target (controls m)) offset) m in
        let m := call controls_update m in
        let m := emitUserNavigate m in
        call preventDefault m.

(** What the host delivers to the installed instance.  [set_edit_active]
    is not an event: it is the page flipping the [active] field of the
    edit-mode flag holder between two events. *)
Inductive Input :=
| pointerdown (event : Ev.t)
| pointermove (event : Ev.t)
| pointerup (event : Ev.t)
| pointercancel (event : Ev.t)
| blur
| dblclick (event : Ev.t)
| set_edit_active (b : bool).

Definition registered (tgt : EventTarget) (type : string) (m : Machine) : bool :=
  existsb (fun l => bool_decide (l_target l = tgt) && String.eqb (l_type l) type)
          (listeners m).

(** Dispatch of one input to the listener registered for it, if any. *)
Definition dispatch (i : Input) (m : Machine) : Machine :=
  match i with
  | pointerdown e =>
      if registered domElement_ "pointerdown" m then handlePointerDown e m else m
  | pointermove e =>
      if registered windowTarget_ "pointermove" m then handlePointerMove e m else m
  | pointerup e =>
      if registered windowTarget_ "pointerup" m then handlePointerUpOrCancel e m else m
  | pointercancel e =>
      if registered windowTarget_ "pointercancel" m then handlePointerUpOrCancel e m else m
  | blur =>
      if registered windowTarget_ "blur" m then handleWindowBlur m else m
  | dblclick e =>
      if registered domElement_ "dblclick" m then handleDoubleClick e m else m
  | set_edit_active b =>
      {| state := state m; controls := controls m; camera := camera m;
         lotEditState := option_map (fun _ => {| active := b |}) (lotEditState m);
         listeners := listeners m; calls := calls m |}
  end.

Definition run (inputs : list Input) (m : Machine) : Machine :=
  fold_left (fun m i => dispatch i m) inputs m.

End Handlers.

(** The argument of [installSafeControlsRefinement]; [None] is an absent
    (or null) field. *)
Record Config := {
  cfg_windowTarget : option unit;
  cfg_domElement : option unit;
  cfg_controls : option Controls;
  cfg_camera : option Camera;
  cfg_lotEditState : option LotEditState;
  cfg_MOUSE : option MouseTable;
  cfg_Vector3 : option VectorClass.t;
  cfg_onUserNavigate : option unit;
}.

Inductive Installed :=
| threw (message : string)
| installed (MOUSE : MouseTable) (Vector3 : VectorClass.t) (onUserNavigate : bool)
            (m : Machine).

Definition initialState : PointerState :=
  {| interactionMode := NONE; touchPointerIds := ∅;
     activeMousePointerId := None;
     shiftTilt := Tilt.mk false None 0%float |}.

Definition initialListeners : list Listener :=
  [ {| l_target := domElement_; l_type := "pointerdown";
       l_handler := handlePointerDown_; l_capture := true |};
    {| l_target := windowTarget_; l_type := "pointermove";
       l_handler := handlePointerMove_; l_capture := true |};
    {| l_target := windowTarget_; l_type := "pointerup";
       l_handler := handlePointerUpOrCancel_; l_capture := true |};
    {| l_target := windowTarget_; l_type := "pointercancel";
       l_handler := handlePointerUpOrCancel_; l_capture := true |};
    {| l_target := windowTarget_; l_type := "blur";
       l_handler := handleWindowBlur_; l_capture := false |};
    {| l_target := domElement_; l_type := "dblclick";
       l_handler := handleDoubleClick_; l_capture := true |} ].

Definition installSafeControlsRefinement (config : Config) : Installed :=
  match cfg_windowTarget config, cfg_domElement config, cfg_controls config,
        cfg_camera config, cfg_MOUSE config, cfg_Vector3 config with
  | Some _, Some _, Some controls, Some camera, Some MOUSE, Some Vector3 =>
      let m := {| state := initialState; controls := controls; camera := camera;
                  lotEditState := cfg_lotEditState config;
                  listeners := initialListeners; calls := [] |} in
      installed MOUSE Vector3
                (match cfg_onUserNavigate config with Some _ => true | None => false end)
                (resetLeftMouseBinding MOUSE m)
  | _, _, _, _, _, _ =>
      threw "installSafeControlsRefinement missing required dependencies."
  end.

(** [cleanup()]: every listener registered by the install is removed. *)
Definition cleanup (m : Machine) : Machine :=
  {| state := state m; controls := controls m; camera := camera m;
     lotEditState := lotEditState m;
     listeners := filter (fun l => l ∉ initialListeners) (listeners m);
     calls := calls m |}.

Definition getInteractionMode (m : Machine) : InteractionMode :=
  interactionMode (state m).

(* ------------------------------------------------------------------ *)
(** ** What the language standard fixes about [Math.hypot], and a host to
       evaluate examples on *)

(** [Math.hypot] returns [+Infinity] when an argument is infinite, and NaN
    when none is infinite and one is NaN. *)
Class HostLaws (H : Host) : Prop := {
  hypot_infinite : forall a b c,
    is_infinity a || is_infinity b || is_infinity c = true ->
    Math_hypot a b c = infinity;
  hypot_nan : forall a b c,
    is_infinity a || is_infinity b || is_infinity c = false ->
    is_nan a || is_nan b || is_nan c = true ->
    is_nan (Math_hypot a b c) = true;
}.

(** A host for running examples: [hypot] as the square root of the sum of
    squares (exact on the inputs used below); the trigonometric functions
    are left unevaluated, and no example below reaches them. *)
Definition naive_hypot (a b c : float) : float :=
  if is_infinity a || is_infinity b || is_infinity c then infinity
  else sqrt (a * a + b * b + c * c)%float.

Definition naiveHost : Host := {|
  Math_hypot := naive_hypot;
  Math_atan2 := fun _ _ => nan;
  Math_acos := fun _ => nan;
  Math_sin := fun _ => nan;
  Math_cos := fun _ => nan;
|}.

(** ** The ray picker in the words of its description *)

Section RaySpec.
Context `{Host}.
Variables (samples : list float) (rayOrigin rayDirection : vec3).
Variable maxDistanceSq : float.

Definition directionLength : float :=
  Math_hypot (V.x rayDirection) (V.y rayDirection) (V.z rayDirection).

(** The distance budget the scan uses. *)
Definition distanceSqLimit : float :=
  if Num.isFinite maxDistanceSq && Num.geb maxDistanceSq 0
  then maxDistanceSq else infinity.

(** Projection length along the normalized ray of the sample that starts
    at array offset [3 * k], and its squared perpendicular distance. *)
Definition projection (k : nat) : float :=
  rayDistanceOf (V.x rayOrigin) (V.y rayOrigin) (V.z rayOrigin)
    (V.x rayDirection / directionLength)%float
    (V.y rayDirection / directionLength)%float
    (V.z rayDirection / directionLength)%float
    (read samples (3 * Z.of_nat k)) (read samples (3 * Z.of_nat k + 1))
    (read samples (3 * Z.of_nat k + 2)).

Definition perpendicularSq (k : nat) : float :=
  distanceSqOf (V.x rayOrigin) (V.y rayOrigin) (V.z rayOrigin)
    (V.x rayDirection / directionLength)%float
    (V.y rayDirection / directionLength)%float
    (V.z rayDirection / directionLength)%float
    (read samples (3 * Z.of_nat k)) (read samples (3 * Z.of_nat k + 1))
    (read samples (3 * Z.of_nat k + 2)).

(** In front of the ray origin and within the budget. *)
Definition qualifies (k : nat) : bool :=
  (0 <? projection k)%float && (perpendicularSq k <=? distanceSqLimit)%float.

(** Sample [j] replaces sample [k] as the running best: strictly closer
    to the ray, or within 1e-12 of it and strictly nearer along the ray. *)
Definition beats (j k : nat) : bool :=
  (perpendicularSq j <? perpendicularSq k)%float
  || ((abs (perpendicularSq j - perpendicularSq k) <=? 1e-12)%float
      && (projection j <? projection k)%float).

(** The loop body on the sample with index [k], and [n] iterations of the
    loop from index [k] on. *)
Definition considerAt (k : nat) (best : Best) : Best :=
  consider (V.x rayOrigin) (V.y rayOrigin) (V.z rayOrigin)
    (V.x rayDirection / directionLength)%float
    (V.y rayDirection / directionLength)%float
    (V.z rayDirection / directionLength)%float
    distanceSqLimit (3 * Z.of_nat k)
    (read samples (3 * Z.of_nat k)) (read samples (3 * Z.of_nat k + 1))
    (read samples (3 * Z.of_nat k + 2)) best.

Fixpoint walk (n k : nat) (best : Best) : Best :=
  match n with
  | O => best
  | S n => walk n (S k) (considerAt k best)
  end.

(** Whether the loop body takes the sample with index [k] as the new best. *)
Definition taken (k : nat) (best : Best) : bool :=
  negb (projection k <=? 0)%float && negb (Num.gtb (perpendicularSq k) distanceSqLimit)
  && ((perpendicularSq k <? bestDistanceSq best)%float
      || ((abs (perpendicularSq k - bestDistanceSq best) <=? 1e-12)%float
          && (projection k <? bestRayDistance best)%float)).

(** What holds of the running best after the samples with index below [k]:
    either nothing was taken, and no earlier sample qualifies with a
    distance below [+Infinity]; or the best is a sample [i] that qualifies,
    and no later sample seen so far beats it. *)
Definition scanned (k : nat) (best : Best) : Prop :=
  (best = initialBest
   /\ forall j, (j < k)%nat ->
        qualifies j && (perpendicularSq j <? infinity)%float = false)
  \/ (exists i, (i < k)%nat
       /\ best = {| bestOffset := 3 * Z.of_nat i;
                    bestDistanceSq := perpendicularSq i;
                    bestRayDistance := projection i |}
       /\ 3 * Z.of_nat i + 2 < Z.of_nat (length samples)
       /\ qualifies i = true
       /\ forall j, (i < j < k)%nat -> qualifies j = true -> beats j i = false).

(** The running best in the words of the description.  It starts empty,
    which counts as a squared distance of [+Infinity]: a qualifying sample
    replaces the empty best when its squared distance is below [+Infinity],
    and replaces the best sample [i] when it beats [i]. *)
Definition replaces (k : nat) (best : option nat) : bool :=
  qualifies k
  && match best with
     | None => (perpendicularSq k <? infinity)%float
     | Some i => beats k i
     end.

(** The best sample, if any, once the first [n] samples of the array have
    been looked at in array order. *)
Fixpoint runningBest (n : nat) : option nat :=
  match n with
  | O => None
  | S n => if replaces n (runningBest n) then Some n else runningBest n
  end.

(** The three loop variables that stand for a running best. *)
Definition bestOf (best : option nat) : Best :=
  match best with
  | None => initialBest
  | Some i => {| bestOffset := 3 * Z.of_nat i;
                 bestDistanceSq := perpendicularSq i;
                 bestRayDistance := projection i |}
  end.

(** The result object for the sample with index [k]. *)
Definition hitAt (k : nat) : Hit.t :=
  Hit.mk (3 * Z.of_nat k)
         (read samples (3 * Z.of_nat k)) (read samples (3 * Z.of_nat k + 1))
         (read samples (3 * Z.of_nat k + 2))
         (perpendicularSq k) (projection k).
End RaySpec.

(** ** IEEE-754 binary16 in the words of its definition *)

(** The exact value a Number stands for: NaN, an infinity, a signed zero,
    or a non-zero rational (in lowest terms). *)
Inductive Exact :=
| ENaN
| EInf (negative : bool)
| EZero (negative : bool)
| ENum (q : Q).

Definition exact_value (v : float) : Exact :=
  match Prim2SF v with
  | S754_nan => ENaN
  | S754_infinity s => EInf s
  | S754_zero s => EZero s
  | S754_finite s m e =>
      ENum (Qred ((if s then -1 else 1) * inject_Z (Z.pos m) * 2 ^ e)%Q)
  end.

(** What a 16-bit pattern denotes as an IEEE-754 binary16 number: bit 15 is
    the sign, bits 14..10 the exponent field, bits 9..0 the fraction. *)
Definition binary16_value (bits : Z) : Exact :=
  let negative := Z.testbit bits 15 in
  let exponent := (bits / 2 ^ 10) mod 2 ^ 5 in
  let fraction := bits mod 2 ^ 10 in
  let sign : Q := if negative then (-1)%Q else 1%Q in
  if exponent =? 0 then
    if fraction =? 0 then EZero negative
    else ENum (Qred (sign * 2 ^ (-14) * (inject_Z fraction / 1024))%Q)
  else if exponent =? 31 then
    if fraction =? 0 then EInf negative else ENaN
  else ENum (Qred (sign * 2 ^ (exponent - 15) * (1 + inject_Z fraction / 1024))%Q).

Definition Exact_eqb (a b : Exact) : bool :=
  match a, b with
  | ENaN, ENaN => true
  | EInf s, EInf t => Bool.eqb s t
  | EZero s, EZero t => Bool.eqb s t
  | ENum p, ENum q => (Qnum p =? Qnum q) && (Qden p =? Qden q)%positive
  | _, _ => false
  end.

(** [p] holds of the [n] integers from [z] on. *)
Fixpoint all_from (n : nat) (z : Z) (p : Z -> bool) : bool :=
  match n with
  | O => true
  | S n => p z && all_from n (z + 1) p
  end.


(** ** The point sampler in the words of its description *)

(** [Math.ceil(a / b)] for integers [a] and [b > 0]. *)
Definition ceilQuot (a b : Z) : Z := - ((- a) / b).

(** The sample budget the code works with. *)
Definition normalizedTargetSampleCount (targetSampleCount : option float) : Z :=
  match targetSampleCount with
  | Some t => if Num.isFinite t && Num.gtb t 0 then Num.floor t
              else DEFAULT_TARGET_SAMPLE_COUNT
  | None => DEFAULT_TARGET_SAMPLE_COUNT
  end.

(** The number of source points considered. *)
Definition sourcePointCountOf (cpuPoints : list float) (pointCount : float) : Z :=
  let availablePointCount := Z.of_nat (length cpuPoints) / 3 in
  Z.min (if Num.isFinite pointCount then Z.max 0 (Num.floor pointCount)
         else availablePointCount)
        availablePointCount.

(** Source point [i], decoded: the first two axes sign-flipped, the third
    kept. *)
Definition pointAt (cpuPoints : list float) (i : Z) : list float :=
  [ (- decodeFloat16 (read cpuPoints (i * 3)))%float;
    (- decodeFloat16 (read cpuPoints (i * 3 + 1)))%float;
    decodeFloat16 (read cpuPoints (i * 3 + 2)) ].

Definition pointFinite (cpuPoints : list float) (i : Z) : bool :=
  forallb Num.isFinite (pointAt cpuPoints i).

(** The indices [0, s, 2s, ...] below [source]. *)
Definition strideIndices (source s : Z) : list Z :=
  map (fun k => Z.of_nat k * s) (seq 0 (Z.to_nat (ceilQuot source s))).


(** ** The test harness of the repository, and the state-machine invariants *)

(** [FakeVector3] of the test suite. *)
Definition FakeVector3 `{Host} : VectorClass.t :=
  {| VectorClass.length := fun v => Math_hypot (V.x v) (V.y v) (V.z v);
     VectorClass.setLength := fun v nextLength =>
       let currentLength := Math_hypot (V.x v) (V.y v) (V.z v) in
       if (currentLength <=? 1e-12)%float then v
       else
         let scale := (nextLength / currentLength)%float in
         V.mk (V.x v * scale)%float (V.y v * scale)%float (V.z v * scale)%float |}.

(** The configuration [createHarness] installs. *)
Definition harnessControls : Controls :=
  {| mouseButtons_LEFT := 0; minDistance := 0.6%float; maxDistance := 10%float;
     target := V.mk 0 0 0; enabled := true; rotateUp := true;
     minPolarAngle := nan; maxPolarAngle := nan |}.

Definition harnessMOUSE : MouseTable :=
  {| MOUSE_PAN := 1; MOUSE_DOLLY := 2; MOUSE_ROTATE := 3 |}.

Definition harnessConfig `{Host} : Config :=
  {| cfg_windowTarget := Some tt; cfg_domElement := Some tt;
     cfg_controls := Some harnessControls;
     cfg_camera := Some {| position := V.mk 0 0 5 |};
     cfg_lotEditState := Some {| active := false |};
     cfg_MOUSE := Some harnessMOUSE;
     cfg_Vector3 := Some FakeVector3;
     cfg_onUserNavigate := Some tt |}.

(** [makePointerEvent] with its defaults. *)
Definition makePointerEvent (pointerType : string) (pointerId button : Z)
    (shiftKey altKey : bool) (clientY : float) : Ev.t :=
  Ev.mk pointerId pointerType button clientY altKey shiftKey.

(** The machine a successful install starts from, and the machine reached
    from an install by a list of inputs. *)
Definition machineOf (i : Installed) : option Machine :=
  match i with
  | threw _ => None
  | installed _ _ _ m => Some m
  end.

Definition runInstalled `{Host} (i : Installed) (inputs : list Input) : option Machine :=
  match i with
  | threw _ => None
  | installed MOUSE Vector3 onUserNavigate m =>
      Some (run MOUSE Vector3 onUserNavigate inputs m)
  end.

(** The three touch invariants of the data model. *)
Definition modeMatchesTouches (m : Machine) : Prop :=
  let n := size (touchPointerIds (state m)) in
  ((2 <= n)%nat -> interactionMode (state m) = PINCH)
  /\ (n = 1%nat -> interactionMode (state m) = PAN)
  /\ (n = 0%nat -> interactionMode (state m) = NONE).

(** An input that is not a pointer-down, pointer-up or pointer-cancel of a
    desktop pointer. *)
Definition notDesktopButton (i : Input) : bool :=
  match i with
  | pointerdown e | pointerup e | pointercancel e =>
      negb (isDesktopPointer (Ev.pointerType e))
  | _ => true
  end.

(** The tilt sub-state keeps the controller disabled. *)
Definition tiltDisablesControls (m : Machine) : Prop :=
  Tilt.active (shiftTilt (state m)) = true -> enabled (controls m) = false.


(* ------------------------------------------------------------------ *)
(** ** Reading the machine *)

Definition isUpdate (c : Call) : bool :=
  match c with controls_update => true | _ => false end.

Definition isNavigate (c : Call) : bool :=
  match c with onUserNavigate_call => true | _ => false end.

(** A recorded tilt call carries a step that is not negligible and at most
    0.1 in magnitude. *)
Definition tiltCallBounded (c : Call) : Prop :=
  match c with
  | controls_rotateUp amount =>
      (abs amount <=? 0.1)%float = true /\ (abs amount <=? 1e-12)%float = false
  | _ => True
  end.

(** An input that is an event, not a flip of the edit-mode flag. *)
Definition isEvent (i : Input) : bool :=
  match i with set_edit_active _ => false | _ => true end.

(** The left-button binding is PAN while no mouse pointer is tracked, and
    PAN or ROTATE while one is. *)
Definition leftBindingTracksMouse (MOUSE : MouseTable) (m : Machine) : Prop :=
  match activeMousePointerId (state m) with
  | None => mouseButtons_LEFT (controls m) = MOUSE_PAN MOUSE
  | Some _ => mouseButtons_LEFT (controls m) = MOUSE_PAN MOUSE
              \/ mouseButtons_LEFT (controls m) = MOUSE_ROTATE MOUSE
  end.

(** Navigation is announced once per controller update when a callback was
    given, and never otherwise. *)
Definition navigateFollowsUpdate (onUserNavigate : bool) (m : Machine) : Prop :=
  length (List.filter isNavigate (calls m))
  = if onUserNavigate then length (List.filter isUpdate (calls m)) else 0%nat.

(** A pointer or mouse event of a touch or pen pointer. *)
Definition isTouchInput (i : Input) : bool :=
  match i with
  | pointerdown e | pointermove e | pointerup e | pointercancel e | dblclick e =>
      negb (isDesktopPointer (Ev.pointerType e))
  | blur | set_edit_active _ => false
  end.

(* ------------------------------------------------------------------ *)
(** ** Reading decoded half-floats *)

(** The largest finite binary16 magnitude and the smallest positive one. *)
Definition HALF_MAX : float := 65504%float.
Definition HALF_MIN_SUBNORMAL : float := Num.pow2 (-24).

(** A decoded value is NaN, infinite, zero, or of a magnitude between the
    smallest subnormal and the largest finite half-float. *)
Definition inHalfRange (r : float) : bool :=
  negb (Num.isFinite r)
  || ((abs r <=? HALF_MAX)%float
      && ((r =? 0)%float || (HALF_MIN_SUBNORMAL <=? abs r)%float)).

(** The bit patterns below the sign bit, in order: each pattern up to
    [+Infinity] (0x7c00) decodes to a larger Number than the one before,
    and setting the sign bit negates the decoded value. *)
Definition halfStepOk (bits : Z) : bool :=
  ((0x7c00 <=? bits) || (decodeFloat16_bits bits <? decodeFloat16_bits (bits + 1))%float)
  && match Prim2SF (decodeFloat16_bits (bits + 0x8000)),
           Prim2SF (- decodeFloat16_bits bits)%float with
     | S754_nan, S754_nan => true
     | S754_zero s, S754_zero t => Bool.eqb s t
     | S754_infinity s, S754_infinity t => Bool.eqb s t
     | S754_finite s m e, S754_finite t n f =>
         Bool.eqb s t && (m =? n)%positive && (e =? f)
     | _, _ => false
     end.


(* ================================================================== *)
(** * Properties *)

Module FloatFacts.

Lemma SFcompare_refl f : f <> S754_nan -> SFcompare f f = Some Eq.
Proof.
  destruct f as [s|s| |s m e]; simpl; try congruence; try (destruct s; reflexivity).
  intros _. destruct s; rewrite Z.compare_refl, Pos.compare_cont_refl; reflexivity.
Qed.

Lemma is_nan_spec v : is_nan v = true <-> Prim2SF v = S754_nan.
Proof.
  unfold is_nan. rewrite FloatAxioms.eqb_spec. unfold SFeqb.
  destruct (Prim2SF v) as [s|s| |s m e] eqn:E.
  1,2,4: rewrite SFcompare_refl by discriminate; simpl; split; discriminate.
  simpl. split; reflexivity.
Qed.

Lemma is_nan_false v : is_nan v = false <-> Prim2SF v <> S754_nan.
Proof.
  rewrite <- is_nan_spec. destruct (is_nan v); split; congruence.
Qed.

Lemma is_infinity_spec v :
  is_infinity v = true <-> exists s, Prim2SF v = S754_infinity s.
Proof.
  unfold is_infinity. rewrite FloatAxioms.eqb_spec, abs_spec.
  change (Prim2SF infinity) with (S754_infinity false).
  destruct (Prim2SF v) as [s|s| |s m e]; simpl; split;
    try discriminate; try (intros [? ?]; discriminate); eauto.
Qed.

Lemma is_infinity_false v :
  is_infinity v = false <-> forall s, Prim2SF v <> S754_infinity s.
Proof.
  split.
  - intros E s Hs. assert (is_infinity v = true) by (apply is_infinity_spec; eauto).
    congruence.
  - intros Hn. destruct (is_infinity v) eqn:E; [|reflexivity].
    apply is_infinity_spec in E as [s Hs]. destruct (Hn s Hs).
Qed.

(** The shape of a Number: NaN, infinite, or finite. *)
Lemma isFinite_true v :
  Num.isFinite v = true <-> is_nan v = false /\ is_infinity v = false.
Proof.
  unfold Num.isFinite, is_finite.
  destruct (is_nan v), (is_infinity v); simpl; intuition congruence.
Qed.

Lemma isFinite_false v :
  Num.isFinite v = false <-> is_nan v = true \/ is_infinity v = true.
Proof.
  unfold Num.isFinite, is_finite.
  destruct (is_nan v), (is_infinity v); simpl; intuition congruence.
Qed.

Lemma ltb_nan_l a b : is_nan a = true -> (a <? b)%float = false.
Proof. intros E%is_nan_spec. rewrite ltb_spec. unfold SFltb. rewrite E. reflexivity. Qed.
Lemma ltb_nan_r a b : is_nan b = true -> (a <? b)%float = false.
Proof.
  intros E%is_nan_spec. rewrite ltb_spec. unfold SFltb. rewrite E.
  destruct (Prim2SF a); reflexivity.
Qed.
Lemma leb_nan_l a b : is_nan a = true -> (a <=? b)%float = false.
Proof. intros E%is_nan_spec. rewrite leb_spec. unfold SFleb. rewrite E. reflexivity. Qed.
Lemma leb_nan_r a b : is_nan b = true -> (a <=? b)%float = false.
Proof.
  intros E%is_nan_spec. rewrite leb_spec. unfold SFleb. rewrite E.
  destruct (Prim2SF a); reflexivity.
Qed.

Lemma add_nan_l a b : is_nan a = true -> is_nan (a + b) = true.
Proof. rewrite !is_nan_spec, add_spec. intros ->. reflexivity. Qed.
Lemma add_nan_r a b : is_nan b = true -> is_nan (a + b) = true.
Proof. rewrite !is_nan_spec, add_spec. intros ->. destruct (Prim2SF a); reflexivity. Qed.
Lemma sub_nan_l a b : is_nan a = true -> is_nan (a - b) = true.
Proof. rewrite !is_nan_spec, sub_spec. intros ->. reflexivity. Qed.
Lemma sub_nan_r a b : is_nan b = true -> is_nan (a - b) = true.
Proof. rewrite !is_nan_spec, sub_spec. intros ->. destruct (Prim2SF a); reflexivity. Qed.
Lemma mul_nan_l a b : is_nan a = true -> is_nan (a * b) = true.
Proof. rewrite !is_nan_spec, mul_spec. intros ->. reflexivity. Qed.
Lemma mul_nan_r a b : is_nan b = true -> is_nan (a * b) = true.
Proof. rewrite !is_nan_spec, mul_spec. intros ->. destruct (Prim2SF a); reflexivity. Qed.
Lemma div_nan_l a b : is_nan a = true -> is_nan (a / b) = true.
Proof. rewrite !is_nan_spec, div_spec. intros ->. reflexivity. Qed.
Lemma abs_nan a : is_nan a = true -> is_nan (abs a) = true.
Proof. rewrite !is_nan_spec, abs_spec. intros ->. reflexivity. Qed.
Lemma div_inf_inf a b :
  is_infinity a = true -> is_infinity b = true -> is_nan (a / b) = true.
Proof.
  rewrite !is_infinity_spec, is_nan_spec, div_spec.
  intros [s ->] [t ->]. reflexivity.
Qed.

(** Order facts, read off [SFcompare]. *)
Ltac cmp_cases :=
  repeat match goal with
         | |- context [Z.compare ?a ?b] => destruct (Z.compare_spec a b)
         | H : context [Z.compare ?a ?b] |- _ => destruct (Z.compare_spec a b)
         | |- context [Pos.compare_cont Eq ?a ?b] =>
             change (Pos.compare_cont Eq a b) with (Pos.compare a b);
             destruct (Pos.compare_spec a b)
         | H : context [Pos.compare_cont Eq ?a ?b] |- _ =>
             change (Pos.compare_cont Eq a b) with (Pos.compare a b) in H;
             destruct (Pos.compare_spec a b)
         end; simpl in *; try congruence; try lia.

Lemma SFcompare_antisym a b :
  SFcompare b a = option_map CompOpp (SFcompare a b).
Proof.
  destruct a as [s|s| |s m e], b as [t|t| |t n f]; simpl; try reflexivity;
    try (destruct s; reflexivity); try (destruct t; reflexivity);
    try (destruct s, t; reflexivity).
  f_equal. destruct s, t; simpl; try reflexivity; cmp_cases.
Qed.

Lemma SFcompare_trans_le a b c :
  match SFcompare a b, SFcompare b c with
  | Some (Lt | Eq), Some (Lt | Eq) =>
      match SFcompare a c with Some (Lt | Eq) => True | _ => False end
  | _, _ => True
  end.
Proof.
  destruct a as [s|s| |s m e], b as [t|t| |t n f], c as [u|u| |u p g];
    repeat match goal with x : bool |- _ => destruct x end;
    simpl; auto; cmp_cases; auto.
Qed.

Lemma ltb_leb a b : (a <? b)%float = true -> (a <=? b)%float = true.
Proof.
  rewrite ltb_spec, leb_spec. unfold SFltb, SFleb.
  destruct (SFcompare _ _) as [[]|]; congruence.
Qed.

Lemma ltb_not_leb a b : (a <? b)%float = true -> (b <=? a)%float = false.
Proof.
  rewrite ltb_spec, leb_spec. unfold SFltb, SFleb.
  rewrite (SFcompare_antisym (Prim2SF a) (Prim2SF b)).
  destruct (SFcompare _ _) as [[]|]; simpl; congruence.
Qed.

Lemma leb_refl a : is_nan a = false -> (a <=? a)%float = true.
Proof.
  intros E%is_nan_false. rewrite leb_spec. unfold SFleb.
  rewrite SFcompare_refl by assumption. reflexivity.
Qed.

Lemma leb_total a b :
  is_nan a = false -> is_nan b = false ->
  (a <? b)%float = false -> (b <=? a)%float = true.
Proof.
  intros Ea%is_nan_false Eb%is_nan_false.
  rewrite ltb_spec, leb_spec. unfold SFltb, SFleb.
  rewrite (SFcompare_antisym (Prim2SF a) (Prim2SF b)).
  destruct (Prim2SF a), (Prim2SF b); try congruence;
  destruct (SFcompare _ _) as [[]|] eqn:E; simpl in *; congruence.
Qed.

Lemma not_leb_ltb a b :
  is_nan a = false -> is_nan b = false ->
  (a <=? b)%float = false -> (b <? a)%float = true.
Proof.
  intros Ea%is_nan_false Eb%is_nan_false.
  rewrite ltb_spec, leb_spec. unfold SFltb, SFleb.
  rewrite (SFcompare_antisym (Prim2SF a) (Prim2SF b)).
  destruct (Prim2SF a), (Prim2SF b); try congruence;
  destruct (SFcompare _ _) as [[]|] eqn:E; simpl in *; congruence.
Qed.

Lemma leb_trans a b c :
  (a <=? b)%float = true -> (b <=? c)%float = true -> (a <=? c)%float = true.
Proof.
  rewrite !leb_spec. unfold SFleb.
  pose proof (SFcompare_trans_le (Prim2SF a) (Prim2SF b) (Prim2SF c)) as T.
  destruct (SFcompare (Prim2SF a) (Prim2SF b)) as [[]|];
    destruct (SFcompare (Prim2SF b) (Prim2SF c)) as [[]|];
    destruct (SFcompare (Prim2SF a) (Prim2SF c)) as [[]|]; simpl in *;
    try congruence; try contradiction.
Qed.

Lemma leb_not_nan a b : (a <=? b)%float = true -> is_nan a = false /\ is_nan b = false.
Proof.
  intros E. split.
  - destruct (is_nan a) eqn:N; [|reflexivity]. rewrite leb_nan_l in E; congruence.
  - destruct (is_nan b) eqn:N; [|reflexivity]. rewrite leb_nan_r in E; congruence.
Qed.

Lemma leb_infinity a : is_nan a = false -> (a <=? infinity)%float = true.
Proof.
  intros E%is_nan_false. rewrite leb_spec. unfold SFleb.
  change (Prim2SF infinity) with (S754_infinity false).
  destruct (Prim2SF a) as [s|s| |s m e]; try congruence; try reflexivity.
  destruct s; reflexivity.
Qed.

(** [Math.max] and [Math.min]. *)
Lemma max_cases a b :
  is_nan a = false -> is_nan b = false ->
  (Num.max a b = a \/ Num.max a b = b)
  /\ (a <=? Num.max a b)%float = true /\ (b <=? Num.max a b)%float = true.
Proof.
  intros Ea Eb. unfold Num.max. rewrite Ea, Eb. simpl.
  destruct (a <? b)%float eqn:E1.
  { split; [auto|]. split; [apply ltb_leb; assumption|apply leb_refl; assumption]. }
  destruct (b <? a)%float eqn:E2.
  { split; [auto|]. split; [apply leb_refl; assumption|apply ltb_leb; assumption]. }
  assert (L1 : (b <=? a)%float = true) by (apply leb_total; assumption).
  assert (L2 : (a <=? b)%float = true) by (apply leb_total; assumption).
  destruct (get_sign a); (split; [auto|]); split; auto using leb_refl.
Qed.

Lemma min_cases a b :
  is_nan a = false -> is_nan b = false ->
  (Num.min a b = a \/ Num.min a b = b)
  /\ (Num.min a b <=? a)%float = true /\ (Num.min a b <=? b)%float = true.
Proof.
  intros Ea Eb. unfold Num.min. rewrite Ea, Eb. simpl.
  destruct (a <? b)%float eqn:E1.
  { split; [auto|]. split; [apply leb_refl; assumption|apply ltb_leb; assumption]. }
  destruct (b <? a)%float eqn:E2.
  { split; [auto|]. split; [apply ltb_leb; assumption|apply leb_refl; assumption]. }
  assert (L1 : (b <=? a)%float = true) by (apply leb_total; assumption).
  assert (L2 : (a <=? b)%float = true) by (apply leb_total; assumption).
  destruct (get_sign a); (split; [auto|]); split; auto using leb_refl.
Qed.

Lemma clamp_bounds v lo hi :
  is_nan v = false -> (lo <=? hi)%float = true ->
  (lo <=? clamp v lo hi)%float = true /\ (clamp v lo hi <=? hi)%float = true.
Proof.
  intros Ev Hle. destruct (leb_not_nan _ _ Hle) as [El Eh].
  unfold clamp.
  destruct (max_cases v lo Ev El) as (Hm & _ & Hlo).
  assert (Em : is_nan (Num.max v lo) = false) by (destruct Hm as [-> | ->]; assumption).
  destruct (min_cases (Num.max v lo) hi Em Eh) as (Hn & _ & Hhi).
  split; [|assumption].
  destruct Hn as [-> | ->]; assumption.
Qed.

End FloatFacts.

Import FloatFacts.

Lemma naiveHost_laws : HostLaws naiveHost.
Proof.
  split; cbn -[is_infinity is_nan]; unfold naive_hypot; intros a b c Hi.
  - rewrite Hi. reflexivity.
  - rewrite Hi. intros Hn. apply is_nan_spec. rewrite sqrt_spec.
    assert (E : is_nan (a * a + b * b + c * c) = true).
    { apply orb_true_iff in Hn as [Hn | Hn];
        [apply orb_true_iff in Hn as [Hn | Hn]|].
      - apply add_nan_l, add_nan_l, mul_nan_l, Hn.
      - apply add_nan_l, add_nan_r, mul_nan_l, Hn.
      - apply add_nan_r, mul_nan_l, Hn. }
    apply is_nan_spec in E. rewrite E. reflexivity.
Qed.

(* ------------------------------------------------------------------ *)
(** ** Pan translation *)

(** C1: [applyPanTranslation] returns the componentwise difference of the
    targets and its [Math.hypot] length; [shouldTranslate] is exactly
    "interacting, mode PAN, length finite and strictly above epsilon
    (1e-8 when omitted)"; when that gate holds the next camera is the
    previous camera plus the difference, componentwise, and in every other
    case, mode PINCH included, it is the previous camera unchanged. *)
Theorem applyPanTranslation_gate `{Host} (prevCamera prevTarget nextTarget : vec3)
    (userInteracting : bool) (interactionMode : InteractionMode)
    (epsilon : option float) :
  let r := applyPanTranslation prevCamera prevTarget nextTarget
                               userInteracting interactionMode epsilon in
  let d := subVectors nextTarget prevTarget in
  let len := Math_hypot (V.x d) (V.y d) (V.z d) in
  let gate := userInteracting && bool_decide (interactionMode = PAN)
              && Num.isFinite len
              && Num.gtb len (default 1e-8%float epsilon) in
  delta r = d /\ deltaLength r = len /\ shouldTranslate r = gate
  /\ (gate = true -> nextCamera r = addVectors prevCamera d)
  /\ (gate = false -> nextCamera r = prevCamera)
  /\ (interactionMode = PINCH -> nextCamera r = prevCamera).
Proof.
  intros r d len gate.
  assert (Hg : shouldTranslate r = gate /\ delta r = d /\ deltaLength r = len).
  { subst r. unfold applyPanTranslation.
    destruct (negb _); simpl; repeat split; reflexivity. }
  destruct Hg as (Hg & Hd & Hl).
  assert (Hc : nextCamera r = if gate then addVectors prevCamera d else prevCamera).
  { subst r. unfold applyPanTranslation.
    fold (subVectors nextTarget prevTarget). fold d. fold len.
    change (shouldTranslateCameraForTargetDelta userInteracting interactionMode len epsilon)
      with gate.
    destruct gate; simpl; [reflexivity|]. destruct prevCamera; reflexivity. }
  repeat split; try assumption.
  - intros E. rewrite Hc, E. reflexivity.
  - intros E. rewrite Hc, E. reflexivity.
  - intros E. rewrite Hc. subst gate. rewrite E.
    rewrite bool_decide_eq_false_2 by discriminate.
    rewrite andb_false_r. reflexivity.
Qed.

(* ------------------------------------------------------------------ *)
(** ** Zoomed camera distance *)

(** The interval the code clamps to: the lower bound is [minDistance] when
    that is finite and 0 otherwise; the upper bound is the larger of the
    lower bound and [maxDistance] when [maxDistance] is finite, and
    [+Infinity] otherwise. *)
Lemma zoom_bounds_ordered (minDistance maxDistance : float) :
  let lower := if Num.isFinite minDistance then minDistance else 0%float in
  let upper := if Num.isFinite maxDistance then Num.max lower maxDistance
               else infinity in
  (lower <=? upper)%float = true.
Proof.
  intros lower upper.
  assert (El : is_nan lower = false).
  { subst lower. destruct (Num.isFinite minDistance) eqn:E; [|reflexivity].
    apply isFinite_true in E. tauto. }
  subst upper. destruct (Num.isFinite maxDistance) eqn:E.
  - apply isFinite_true in E as [En _].
    destruct (max_cases lower maxDistance El En) as (_ & Hl & _). exact Hl.
  - apply leb_infinity, El.
Qed.

(** C2 (as the code has it): [computeZoomedCameraDistance] returns
    [currentDistance] unchanged when it is not finite or is at most 0;
    otherwise it returns [currentDistance * zoomFactor] clamped to
    [lower, upper], where [lower] is [minDistance] when finite and 0
    otherwise, and [upper] is [max(lower, maxDistance)] when [maxDistance] is
    finite and [+Infinity] otherwise.  The interval is never empty, and a
    product that is a number lands inside it. *)
Theorem computeZoomedCameraDistance_clamps
    (currentDistance minDistance maxDistance : float) (zoomFactor : option float) :
  let r := computeZoomedCameraDistance currentDistance minDistance maxDistance zoomFactor in
  let lower := if Num.isFinite minDistance then minDistance else 0%float in
  let upper := if Num.isFinite maxDistance then Num.max lower maxDistance
               else infinity in
  let next := (currentDistance * default 0.72 zoomFactor)%float in
  (Num.isFinite currentDistance = false \/ (currentDistance <=? 0)%float = true ->
   r = currentDistance)
  /\ (Num.isFinite currentDistance = true /\ (currentDistance <=? 0)%float = false ->
      r = clamp next lower upper
      /\ (lower <=? upper)%float = true
      /\ (is_nan next = false ->
          (lower <=? r)%float = true /\ (r <=? upper)%float = true)).
Proof.
  intros r lower upper next. subst r. unfold computeZoomedCameraDistance.
  split.
  - intros [E | E]; rewrite E; simpl; [reflexivity|].
    rewrite orb_true_r. reflexivity.
  - intros [E1 E2]. rewrite E1, E2. simpl.
    fold lower. fold upper. unfold default_zoomFactor. fold next.
    pose proof (zoom_bounds_ordered minDistance maxDistance) as Hord.
    simpl in Hord. fold lower in Hord. fold upper in Hord.
    split; [reflexivity|]. split; [exact Hord|].
    intros En. apply clamp_bounds; assumption.
Qed.

(** C2, as stated, fails: with a negative [minDistance] the lower bound of
    the clamp is that negative number and not [max(0, minDistance)].  At
    [currentDistance = 1], [minDistance = -5], [maxDistance = 10] and
    [zoomFactor = -0.5] the code returns [-0.5], whereas clamping to
    [[max(0, -5), max(-5, 10)] = [0, 10]] gives [0]. *)
Lemma computeZoomedCameraDistance_negative_lower_bound :
  let r := computeZoomedCameraDistance 1 (-5) 10 (Some (-0.5)%float) in
  let claimed := clamp (1 * -0.5) (Num.max 0 (-5)) (Num.max (-5) 10) in
  r <> claimed
  /\ Prim2SF r = Prim2SF (-0.5)%float
  /\ Prim2SF claimed = Prim2SF 0%float
  /\ (r <? 0)%float = true
  /\ (Num.max 0 (-5) <=? r)%float = false.
Proof.
  split.
  - intros E. apply (f_equal Prim2SF) in E. vm_compute in E. discriminate.
  - vm_compute. repeat split; reflexivity.
Qed.

(* ------------------------------------------------------------------ *)
(** ** Ray picking *)

Section RayFacts.
Context `{Host}.
Variables (samples : list float) (rayOrigin rayDirection : vec3).
Variable maxDistanceSq : float.

Local Abbreviation ox := (V.x rayOrigin).
Local Abbreviation oy := (V.y rayOrigin).
Local Abbreviation oz := (V.z rayOrigin).
Local Abbreviation len := (directionLength rayDirection).
Local Abbreviation dx := (V.x rayDirection / len)%float.
Local Abbreviation dy := (V.y rayDirection / len)%float.
Local Abbreviation dz := (V.z rayDirection / len)%float.
Local Abbreviation limit := (distanceSqLimit maxDistanceSq).
Local Abbreviation proj := (projection samples rayOrigin rayDirection).
Local Abbreviation perp := (perpendicularSq samples rayOrigin rayDirection).
Local Abbreviation qual := (qualifies samples rayOrigin rayDirection maxDistanceSq).
Local Abbreviation beat := (beats samples rayOrigin rayDirection).
Local Abbreviation stepAt := (considerAt samples rayOrigin rayDirection maxDistanceSq).
Local Abbreviation walkFrom := (walk samples rayOrigin rayDirection maxDistanceSq).
Local Abbreviation takenAt := (taken samples rayOrigin rayDirection maxDistanceSq).
Local Abbreviation scannedAt := (scanned samples rayOrigin rayDirection maxDistanceSq).
Local Abbreviation replacesAt := (replaces samples rayOrigin rayDirection maxDistanceSq).
Local Abbreviation bestAfter := (runningBest samples rayOrigin rayDirection maxDistanceSq).
Local Abbreviation varsOf := (bestOf samples rayOrigin rayDirection).

Lemma read_overflow (a : list float) (i : Z) :
  Z.of_nat (length a) <= i -> read a i = nan.
Proof.
  intros Hi. unfold read. destruct (Z.ltb_spec i 0) as [E|E]; [reflexivity|].
  apply nth_overflow. lia.
Qed.

Lemma read_app_r (pre rest : list float) (i : Z) :
  0 <= i -> read (pre ++ rest) (Z.of_nat (length pre) + i) = read rest i.
Proof.
  intros Hi. unfold read.
  destruct (Z.ltb_spec (Z.of_nat (length pre) + i) 0) as [E1|E1]; [lia|].
  destruct (Z.ltb_spec i 0) as [E2|E2]; [lia|].
  rewrite app_nth2 by lia. f_equal. lia.
Qed.

(** The loop over the array is [walk] over the sample indices. *)
Lemma scan_walk_from (n : nat) :
  forall (rest pre : list float) (k : nat) (best : Best),
    samples = pre ++ rest -> length pre = (3 * k)%nat ->
    (length rest <= 3 * n)%nat ->
    scan ox oy oz dx dy dz limit rest (3 * Z.of_nat k) best
    = walkFrom ((length rest + 2) / 3)%nat k best.
Proof.
  induction n as [|n IH]; intros rest pre k best Hs Hp Hl.
  { destruct rest; [reflexivity|simpl in Hl; lia]. }
  assert (R : forall i, 0 <= i ->
             read samples (3 * Z.of_nat k + i) = read rest i).
  { intros i Hi. rewrite Hs. replace (3 * Z.of_nat k) with (Z.of_nat (length pre)) by lia.
    apply read_app_r, Hi. }
  pose proof (R 0 ltac:(lia)) as R0. rewrite Z.add_0_r in R0.
  pose proof (R 1 ltac:(lia)) as R1.
  pose proof (R 2 ltac:(lia)) as R2.
  destruct rest as [|pointX [|pointY [|pointZ rest]]].
  - reflexivity.
  - simpl. unfold considerAt. rewrite R0, R1, R2. reflexivity.
  - simpl. unfold considerAt. rewrite R0, R1, R2. reflexivity.
  - change (scan ox oy oz dx dy dz limit (pointX :: pointY :: pointZ :: rest)
                 (3 * Z.of_nat k) best)
      with (scan ox oy oz dx dy dz limit rest (3 * Z.of_nat k + 3)
                 (consider ox oy oz dx dy dz limit (3 * Z.of_nat k)
                           pointX pointY pointZ best)).
    replace (3 * Z.of_nat k + 3) with (3 * Z.of_nat (S k)) by lia.
    rewrite (IH rest (pre ++ [pointX; pointY; pointZ]) (S k)).
    + replace ((length (pointX :: pointY :: pointZ :: rest) + 2) / 3)%nat
        with (S ((length rest + 2) / 3)).
      * simpl. unfold considerAt. rewrite R0, R1, R2. reflexivity.
      * simpl length.
        replace (S (S (S (length rest))) + 2)%nat with ((length rest + 2) + 1 * 3)%nat by lia.
        rewrite Nat.div_add by lia. lia.
    + rewrite Hs, <- app_assoc. reflexivity.
    + rewrite length_app. simpl. lia.
    + simpl in Hl. lia.
Qed.

Lemma scan_walk (best : Best) :
  scan ox oy oz dx dy dz limit samples 0 best
  = walkFrom ((length samples + 2) / 3)%nat 0%nat best.
Proof.
  apply (scan_walk_from (length samples) samples [] 0%nat best); simpl; try reflexivity; lia.
Qed.

Lemma considerAt_taken (k : nat) (best : Best) :
  stepAt k best
  = if takenAt k best
    then {| bestOffset := 3 * Z.of_nat k; bestDistanceSq := perp k;
            bestRayDistance := proj k |}
    else best.
Proof.
  unfold considerAt, consider, taken.
  change (rayDistanceOf ox oy oz dx dy dz _ _ _) with (proj k).
  change (distanceSqOf ox oy oz dx dy dz _ _ _) with (perp k).
  destruct (proj k <=? 0)%float; [reflexivity|].
  destruct (Num.gtb (perp k) limit); [reflexivity|].
  simpl. reflexivity.
Qed.

Lemma limit_not_nan : is_nan limit = false.
Proof.
  unfold distanceSqLimit.
  destruct (Num.isFinite maxDistanceSq) eqn:E; simpl; [|reflexivity].
  apply isFinite_true in E as [E _].
  destruct (Num.geb maxDistanceSq 0); [assumption|reflexivity].
Qed.

Lemma projection_nan_perpendicular_nan (k : nat) :
  is_nan (proj k) = true -> is_nan (perp k) = true.
Proof.
  intros E. unfold perpendicularSq, distanceSqOf.
  change (rayDistanceOf ox oy oz dx dy dz _ _ _) with (proj k).
  apply add_nan_l, add_nan_l, mul_nan_l, sub_nan_r, add_nan_r, mul_nan_r, E.
Qed.

Lemma projection_nan_of_direction :
  is_nan dx || is_nan dy || is_nan dz = true -> forall k, is_nan (proj k) = true.
Proof.
  intros E k. unfold projection, rayDistanceOf.
  apply orb_true_iff in E as [E | E]; [apply orb_true_iff in E as [E | E]|].
  - apply add_nan_l, add_nan_l, mul_nan_r, E.
  - apply add_nan_l, add_nan_r, mul_nan_r, E.
  - apply add_nan_r, mul_nan_r, E.
Qed.

Lemma projection_nan_incomplete (k : nat) :
  Z.of_nat (length samples) <= 3 * Z.of_nat k + 2 -> is_nan (proj k) = true.
Proof.
  intros Hk. unfold projection, rayDistanceOf.
  rewrite (read_overflow samples (3 * Z.of_nat k + 2)) by assumption.
  apply add_nan_r, mul_nan_l, sub_nan_l. reflexivity.
Qed.

Lemma qualifies_passes (k : nat) :
  qual k = true ->
  (proj k <=? 0)%float = false /\ Num.gtb (perp k) limit = false.
Proof.
  unfold qualifies. intros [Hp Hd]%andb_true_iff. split.
  - apply ltb_not_leb, Hp.
  - unfold Num.gtb. destruct (limit <? perp k)%float eqn:E; [|reflexivity].
    apply ltb_not_leb in E. congruence.
Qed.

Lemma taken_qualifies (k : nat) (best : Best) :
  takenAt k best = true ->
  qual k = true /\ 3 * Z.of_nat k + 2 < Z.of_nat (length samples).
Proof.
  unfold taken. intros [[T1 T2]%andb_true_iff T3]%andb_true_iff.
  apply negb_true_iff in T1, T2.
  assert (Nd : is_nan (perp k) = false).
  { destruct (is_nan (perp k)) eqn:N; [|reflexivity].
    rewrite (ltb_nan_l _ _ N) in T3.
    rewrite (leb_nan_l _ 1e-12 (abs_nan _ (sub_nan_l _ (bestDistanceSq best) N))) in T3.
    discriminate. }
  assert (Np : is_nan (proj k) = false).
  { destruct (is_nan (proj k)) eqn:N; [|reflexivity].
    rewrite projection_nan_perpendicular_nan in Nd by assumption. discriminate. }
  split.
  - unfold qualifies. apply andb_true_iff. split.
    + apply not_leb_ltb; [assumption|reflexivity|assumption].
    + apply leb_total; [exact limit_not_nan|assumption|exact T2].
  - destruct (Z_lt_ge_dec (3 * Z.of_nat k + 2) (Z.of_nat (length samples))) as [L|G];
      [exact L|].
    rewrite projection_nan_incomplete in Np by lia. discriminate.
Qed.

Lemma scanned_step (k : nat) (best : Best) :
  scannedAt k best -> scannedAt (S k) (stepAt k best).
Proof.
  intros Inv. rewrite considerAt_taken.
  destruct (takenAt k best) eqn:T.
  - right. exists k. destruct (taken_qualifies k best T) as [Q L].
    repeat split; try assumption; try lia.
  - destruct Inv as [[-> Hno] | (i & Hi & -> & Hl & Hq & Hb)].
    + left. split; [reflexivity|]. intros j Hj.
      destruct (Nat.eq_dec j k) as [-> | Hne]; [|apply Hno; lia].
      destruct (qual k) eqn:Q; [|reflexivity]. simpl.
      destruct (qualifies_passes k Q) as [P1 P2].
      unfold taken in T. rewrite P1, P2 in T. simpl in T.
      apply orb_false_iff in T as [T _]. exact T.
    + right. exists i. repeat split; try assumption; try lia.
      intros j Hj Qj.
      destruct (Nat.eq_dec j k) as [-> | Hne]; [|apply Hb; [lia|assumption]].
      destruct (qualifies_passes k Qj) as [P1 P2].
      unfold taken in T. rewrite P1, P2 in T. simpl in T. exact T.
Qed.

Lemma scanned_walk (n : nat) :
  forall k best, scannedAt k best -> scannedAt (k + n) (walkFrom n k best).
Proof.
  induction n as [|n IH]; intros k best Inv; simpl.
  - rewrite Nat.add_0_r. exact Inv.
  - replace (k + S n)%nat with (S k + n)%nat by lia.
    apply IH, scanned_step, Inv.
Qed.

Lemma scanned_scan :
  scannedAt ((length samples + 2) / 3)
          (scan ox oy oz dx dy dz limit samples 0 initialBest).
Proof.
  rewrite scan_walk.
  apply (scanned_walk _ 0%nat initialBest).
  left. split; [reflexivity|]. intros j Hj; lia.
Qed.

Lemma qualifies_complete (k : nat) :
  qual k = true -> 3 * Z.of_nat k + 2 < Z.of_nat (length samples).
Proof.
  unfold qualifies. intros [Hp _]%andb_true_iff.
  destruct (Z_lt_ge_dec (3 * Z.of_nat k + 2) (Z.of_nat (length samples))) as [L|G];
    [exact L|].
  rewrite ltb_nan_r in Hp; [discriminate|].
  apply projection_nan_incomplete. lia.
Qed.

Lemma findClosestSampleToRay_unfold (m : option float) :
  default infinity m = maxDistanceSq ->
  findClosestSampleToRay (Some samples) (Some rayOrigin) (Some rayDirection) m
  = if Z.of_nat (length samples) <? 3 then None
    else if negb (Num.gtb len 1e-12) then None
    else if negb (Num.isFinite ox) || negb (Num.isFinite oy) || negb (Num.isFinite oz)
    then None
    else
      let best := scan ox oy oz dx dy dz limit samples 0 initialBest in
      if bestOffset best <? 0 then None
      else Some (Hit.mk (bestOffset best) (read samples (bestOffset best))
                        (read samples (bestOffset best + 1))
                        (read samples (bestOffset best + 2))
                        (bestDistanceSq best) (bestRayDistance best)).
Proof. intros <-. reflexivity. Qed.

(** No squared distance is within 1e-12 of the [+Infinity] the scan starts
    from. *)
Lemma abs_sub_infinity (a : float) : (abs (a - infinity) <=? 1e-12)%float = false.
Proof.
  rewrite leb_spec, abs_spec, sub_spec.
  change (Prim2SF infinity) with (S754_infinity false).
  destruct (Prim2SF a) as [s|s| |s m e]; try destruct s; reflexivity.
Qed.

(** The loop body takes a sample exactly when the sample replaces the
    running best in the sense of the description. *)
Lemma taken_replaces (k : nat) (best : option nat) :
  takenAt k (varsOf best) = replacesAt k best.
Proof.
  apply eq_true_iff_eq. split.
  - intros T. destruct (taken_qualifies k _ T) as [Q _].
    unfold replaces. rewrite Q. cbn [andb].
    unfold taken in T. apply andb_true_iff in T as [_ T].
    destruct best as [i|]; cbn [bestOf bestDistanceSq bestRayDistance initialBest] in T.
    + exact T.
    + rewrite abs_sub_infinity in T. cbn [andb] in T.
      rewrite orb_false_r in T. exact T.
  - intros R. unfold replaces in R. apply andb_true_iff in R as [Q R].
    destruct (qualifies_passes k Q) as [P1 P2].
    unfold taken. rewrite P1, P2. cbn [negb andb].
    destruct best as [i|]; cbn [bestOf bestDistanceSq bestRayDistance initialBest].
    + exact R.
    + rewrite R. reflexivity.
Qed.

Lemma considerAt_runningBest (k : nat) :
  stepAt k (varsOf (bestAfter k)) = varsOf (bestAfter (S k)).
Proof.
  rewrite considerAt_taken, taken_replaces. cbn [runningBest].
  destruct (replacesAt k (bestAfter k)); reflexivity.
Qed.

Lemma walk_runningBest (n : nat) :
  forall k, walkFrom n k (varsOf (bestAfter k)) = varsOf (bestAfter (k + n)).
Proof.
  induction n as [|n IH]; intros k; cbn [walk].
  - rewrite Nat.add_0_r. reflexivity.
  - rewrite considerAt_runningBest, IH. do 2 f_equal. lia.
Qed.

(** A triple cut short by the end of the array never replaces the best. *)
Lemma runningBest_whole :
  bestAfter ((length samples + 2) / 3) = bestAfter (length samples / 3).
Proof.
  pose proof (Nat.div_mod_eq (length samples) 3) as E1.
  pose proof (Nat.mod_upper_bound (length samples) 3 ltac:(lia)) as B1.
  pose proof (Nat.div_mod_eq (length samples + 2) 3) as E2.
  pose proof (Nat.mod_upper_bound (length samples + 2) 3 ltac:(lia)) as B2.
  destruct (Nat.eq_dec ((length samples + 2) / 3)%nat (length samples / 3)%nat)
    as [-> | Hne]; [reflexivity|].
  replace ((length samples + 2) / 3)%nat with (S (length samples / 3)) by lia.
  cbn [runningBest]. unfold replaces.
  destruct (qual (length samples / 3)%nat) eqn:Q; [|reflexivity].
  apply qualifies_complete in Q. lia.
Qed.

(** The running best after [n] samples is the last sample that replaced
    the best before it. *)
Lemma runningBest_last (n : nat) :
  forall k, bestAfter n = Some k ->
    (k < n)%nat /\ replacesAt k (bestAfter k) = true
    /\ forall j, (k < j < n)%nat -> replacesAt j (Some k) = false.
Proof.
  induction n as [|n IH]; intros k E; cbn [runningBest] in E; [discriminate|].
  destruct (replacesAt n (bestAfter n)) eqn:R.
  - injection E as <-. split; [lia|]. split; [exact R|]. intros j Hj. lia.
  - destruct (IH k E) as (Hk & Hr & Hl). split; [lia|]. split; [exact Hr|].
    intros j Hj. destruct (Nat.eq_dec j n) as [-> | Hne]; [|apply Hl; lia].
    rewrite <- E. exact R.
Qed.

(** The loop variables after the whole loop stand for the running best of
    the description after all the samples. *)
Lemma scan_runningBest :
  scan ox oy oz dx dy dz limit samples 0 initialBest
  = varsOf (bestAfter (length samples / 3)).
Proof.
  rewrite scan_walk.
  rewrite (walk_runningBest _ 0%nat : walkFrom _ 0%nat initialBest = _).
  rewrite Nat.add_0_l, runningBest_whole. reflexivity.
Qed.
End RayFacts.

Section RayTheorem.
Context `{Host}.

(** C3 (as the code has it): [findClosestSampleToRay] returns none when the
    direction's length is not above 1e-12, when a component of the direction
    is not finite, or when a component of the origin is not finite.
    Otherwise it scans the samples in array order and keeps a running best.
    A sample qualifies when its projection length along the normalized ray
    is strictly positive and its squared perpendicular distance is within
    the budget, the budget being [maxDistanceSq] when that is finite and at
    least 0, and [+Infinity] otherwise.  A qualifying sample replaces the
    running best when its squared distance is strictly smaller, or within
    1e-12 of the best's while its projection length is strictly smaller.
    So a returned hit is a whole sample of the array with these two
    quantities, it qualifies, and no qualifying sample after it in the array
    beats it; none is returned when no sample qualifies, and only when no
    sample qualifies with a squared distance below [+Infinity].  And the
    function returns the final running best: with the best starting empty
    (a squared distance of [+Infinity]) and replaced, sample after sample in
    array order, by each qualifying sample that beats it, the result is the
    sample the best stands at after the last whole sample, and none when it
    is still empty; that sample is the last one that replaced the best
    before it. *)
Theorem findClosestSampleToRay_scan `{!HostLaws H}
    (samples : list float) (rayOrigin rayDirection : vec3)
    (maxDistanceSq : option float) :
  let r := findClosestSampleToRay (Some samples) (Some rayOrigin)
                                  (Some rayDirection) maxDistanceSq in
  let budget := default infinity maxDistanceSq in
  (Num.gtb (directionLength rayDirection) 1e-12 = false -> r = None)
  /\ (Num.isFinite (V.x rayDirection) && Num.isFinite (V.y rayDirection)
      && Num.isFinite (V.z rayDirection) = false -> r = None)
  /\ (Num.isFinite (V.x rayOrigin) && Num.isFinite (V.y rayOrigin)
      && Num.isFinite (V.z rayOrigin) = false -> r = None)
  /\ (forall hit, r = Some hit ->
      exists k : nat,
        Hit.sampleOffset hit = 3 * Z.of_nat k
        /\ 3 * Z.of_nat k + 2 < Z.of_nat (length samples)
        /\ Hit.x hit = read samples (3 * Z.of_nat k)
        /\ Hit.y hit = read samples (3 * Z.of_nat k + 1)
        /\ Hit.z hit = read samples (3 * Z.of_nat k + 2)
        /\ Hit.distanceSq hit = perpendicularSq samples rayOrigin rayDirection k
        /\ Hit.rayDistance hit = projection samples rayOrigin rayDirection k
        /\ qualifies samples rayOrigin rayDirection budget k = true
        /\ forall j : nat, (k < j)%nat ->
             qualifies samples rayOrigin rayDirection budget j = true ->
             beats samples rayOrigin rayDirection j k = false)
  /\ ((forall k, qualifies samples rayOrigin rayDirection budget k = false) -> r = None)
  /\ (Num.gtb (directionLength rayDirection) 1e-12 = true ->
      Num.isFinite (V.x rayOrigin) && Num.isFinite (V.y rayOrigin)
      && Num.isFinite (V.z rayOrigin) = true ->
      r = None ->
      forall k, qualifies samples rayOrigin rayDirection budget k
                && (perpendicularSq samples rayOrigin rayDirection k <? infinity)%float
                = false)
  /\ (Num.gtb (directionLength rayDirection) 1e-12 = true ->
      Num.isFinite (V.x rayOrigin) && Num.isFinite (V.y rayOrigin)
      && Num.isFinite (V.z rayOrigin) = true ->
      let count := (length samples / 3)%nat in
      let running := runningBest samples rayOrigin rayDirection budget in
      r = option_map (hitAt samples rayOrigin rayDirection) (running count)
      /\ forall k, running count = Some k ->
           (k < count)%nat
           /\ replaces samples rayOrigin rayDirection budget k (running k) = true
           /\ forall j, (k < j < count)%nat ->
                replaces samples rayOrigin rayDirection budget j (Some k) = false).
Proof.
  intros r budget.
  pose proof (findClosestSampleToRay_unfold samples rayOrigin rayDirection budget
                maxDistanceSq eq_refl) as U.
  pose proof (scan_runningBest samples rayOrigin rayDirection budget) as Hfinal.
  fold r in U. clearbody r.
  pose proof (scanned_scan samples rayOrigin rayDirection budget) as Inv.
  set (best := scan _ _ _ _ _ _ _ samples 0 initialBest) in *.
  cbv zeta in U.
  assert (Hsome : forall hit, r = Some hit ->
            Num.gtb (directionLength rayDirection) 1e-12 = true
            /\ Num.isFinite (V.x rayOrigin) && Num.isFinite (V.y rayOrigin)
               && Num.isFinite (V.z rayOrigin) = true
            /\ exists i, best = {| bestOffset := 3 * Z.of_nat i;
                     bestDistanceSq := perpendicularSq samples rayOrigin rayDirection i;
                     bestRayDistance := projection samples rayOrigin rayDirection i |}
                 /\ hit = Hit.mk (bestOffset best) (read samples (bestOffset best))
                                 (read samples (bestOffset best + 1))
                                 (read samples (bestOffset best + 2))
                                 (bestDistanceSq best) (bestRayDistance best)
                 /\ qualifies samples rayOrigin rayDirection budget i = true
                 /\ forall j, (i < j)%nat ->
                      qualifies samples rayOrigin rayDirection budget j = true ->
                      beats samples rayOrigin rayDirection j i = false).
  { intros hit E. rewrite U in E.
    destruct (Z.of_nat (length samples) <? 3); [discriminate|].
    destruct (Num.gtb (directionLength rayDirection) 1e-12); [|discriminate].
    destruct (Num.isFinite (V.x rayOrigin)), (Num.isFinite (V.y rayOrigin)),
      (Num.isFinite (V.z rayOrigin)); try discriminate.
    simpl in E. split; [reflexivity|]. split; [reflexivity|].
    destruct Inv as [[Hb _] | (i & Hi & Hb & Hl & Hq & Hlater)].
    - rewrite Hb in E. discriminate.
    - exists i. rewrite Hb in E. simpl in E.
      destruct (Z.ltb_spec (3 * Z.of_nat i) 0) as [L|L]; [lia|].
      injection E as <-. rewrite Hb. simpl.
      repeat split; try assumption.
      intros j Hj Qj. apply Hlater; [|assumption]. split; [assumption|].
      pose proof (qualifies_complete samples rayOrigin rayDirection budget j Qj).
      assert (S j <= (length samples + 2) / 3)%nat; [|lia].
      apply Nat.div_le_lower_bound; lia. }
  split; [|split; [|split; [|split; [|split; [|split]]]]].
  - intros E. rewrite U, E. simpl.
    destruct (Z.of_nat (length samples) <? 3); reflexivity.
  - intros E. destruct r as [hit|] eqn:R; [|reflexivity]. exfalso.
    destruct (Hsome hit eq_refl) as (Hlen & _ & i & _ & _ & Hq & _).
    destruct (is_infinity (V.x rayDirection) || is_infinity (V.y rayDirection)
              || is_infinity (V.z rayDirection)) eqn:Ei.
    + pose proof (hypot_infinite _ _ _ Ei) as Hh.
      assert (Nn : is_nan (projection samples rayOrigin rayDirection i) = true).
      { apply projection_nan_of_direction.
        unfold directionLength. rewrite Hh.
        apply orb_true_iff in Ei as [Ei | Ei];
          [apply orb_true_iff in Ei as [Ei | Ei]|].
        - rewrite (div_inf_inf _ infinity Ei eq_refl). reflexivity.
        - rewrite (div_inf_inf _ infinity Ei eq_refl).
          rewrite orb_true_r. reflexivity.
        - rewrite (div_inf_inf _ infinity Ei eq_refl). apply orb_true_r. }
      unfold qualifies in Hq. rewrite (ltb_nan_r _ _ Nn) in Hq. discriminate.
    + assert (Hn : is_nan (V.x rayDirection) || is_nan (V.y rayDirection)
                   || is_nan (V.z rayDirection) = true).
      { apply orb_false_iff in Ei as [Ei Ez]. apply orb_false_iff in Ei as [Ex Ey].
        unfold Num.isFinite, is_finite in E. rewrite Ex, Ey, Ez in E.
        rewrite !orb_false_r in E.
        destruct (is_nan (V.x rayDirection)), (is_nan (V.y rayDirection)),
          (is_nan (V.z rayDirection)); simpl in *; congruence. }
      pose proof (hypot_nan _ _ _ Ei Hn) as Hh.
      unfold Num.gtb in Hlen. unfold directionLength in Hlen.
      rewrite (ltb_nan_r _ _ Hh) in Hlen. discriminate.
  - intros E. rewrite U.
    destruct (Z.of_nat (length samples) <? 3); [reflexivity|].
    destruct (negb (Num.gtb (directionLength rayDirection) 1e-12)); [reflexivity|].
    destruct (Num.isFinite (V.x rayOrigin)), (Num.isFinite (V.y rayOrigin)),
      (Num.isFinite (V.z rayOrigin)); try discriminate; reflexivity.
  - intros hit E.
    destruct (Hsome hit E) as (_ & _ & i & Hb & -> & Hq & Hlater).
    exists i. rewrite Hb. simpl.
    pose proof (qualifies_complete samples rayOrigin rayDirection budget i Hq).
    repeat split; try assumption; reflexivity.
  - intros Hno. destruct r as [hit|] eqn:R; [|reflexivity]. exfalso.
    destruct (Hsome hit eq_refl) as (_ & _ & i & _ & _ & Hq & _).
    rewrite Hno in Hq. discriminate.
  - intros Hlen Ho E k.
    destruct (qualifies samples rayOrigin rayDirection budget k) eqn:Q; [|reflexivity].
    simpl.
    pose proof (qualifies_complete samples rayOrigin rayDirection budget k Q) as Hk.
    rewrite U in E.
    destruct (Z.ltb_spec (Z.of_nat (length samples)) 3) as [L|L]; [lia|].
    rewrite Hlen in E. simpl in E.
    apply andb_true_iff in Ho as [Ho Hz]. apply andb_true_iff in Ho as [Hx Hy].
    rewrite Hx, Hy, Hz in E. simpl in E.
    destruct Inv as [[Hb Hno] | (i & Hi & Hb & _)].
    + specialize (Hno k). rewrite Q, andb_true_l in Hno. apply Hno.
      assert (S k <= (length samples + 2) / 3)%nat; [|lia].
      apply Nat.div_le_lower_bound; lia.
    + rewrite Hb in E. simpl in E.
      destruct (Z.ltb_spec (3 * Z.of_nat i) 0) as [L'|L']; [lia|discriminate].
  - intros Hlen Ho count running. split.
    + rewrite U. subst best. rewrite Hfinal. subst running count.
      destruct (Z.ltb_spec (Z.of_nat (length samples)) 3) as [L|L].
      * replace (length samples / 3)%nat with 0%nat
          by (symmetry; apply Nat.div_small; lia).
        reflexivity.
      * rewrite Hlen. cbn [negb].
        apply andb_true_iff in Ho as [Ho Hz]. apply andb_true_iff in Ho as [Hx Hy].
        rewrite Hx, Hy, Hz. cbn [negb orb].
        destruct (runningBest samples rayOrigin rayDirection budget
                              (length samples / 3)) as [i|];
          cbn [bestOf bestOffset bestDistanceSq bestRayDistance initialBest
               option_map]; [|reflexivity].
        destruct (Z.ltb_spec (3 * Z.of_nat i) 0) as [L'|L']; [lia|reflexivity].
    + intros k Ek. apply runningBest_last, Ek.
Qed.
End RayTheorem.

(** C3, as stated, fails.  The running best is compared with each new sample
    only, so the hit need not have the smallest squared distance, not even
    up to the 1e-12 tolerance: on the ray from the origin along +z, the
    samples (0,0,10), (5e-7,0,5), (1.05e-6,0,1) have squared distances 0,
    2.5e-13 and 1.1025e-12; each is within 1e-12 of its predecessor and
    nearer along the ray, so the third one is returned although the first
    one is more than 1e-12 closer to the ray.  And a negative budget excludes
    nothing: with [maxDistanceSq = -1] the sample (0,0,1), whose squared
    distance 0 exceeds the budget, is returned. *)
Lemma findClosestSampleToRay_not_the_closest :
  let samples := [0; 0; 10; 5e-7; 0; 5; 1.05e-6; 0; 1]%float in
  let origin := V.mk 0 0 0 in
  let direction := V.mk 0 0 1 in
  (exists hit,
      @findClosestSampleToRay naiveHost (Some samples) (Some origin)
                              (Some direction) None = Some hit
      /\ Hit.sampleOffset hit = 6
      /\ @qualifies naiveHost samples origin direction infinity 0 = true
      /\ (@perpendicularSq naiveHost samples origin direction 0 + 1e-12
          <? Hit.distanceSq hit)%float = true)
  /\ (exists hit,
        @findClosestSampleToRay naiveHost (Some [0; 0; 1]%float) (Some origin)
                                (Some direction) (Some (-1)%float) = Some hit
        /\ Hit.sampleOffset hit = 0
        /\ (Hit.distanceSq hit <=? -1)%float = false).
Proof.
  split; eexists; (split; [vm_compute; reflexivity|]); vm_compute; auto.
Qed.

(** The scan theorem at two concrete arrays, on the ray from the origin
    along +z of the example host.  Of a sample on the ray followed by one
    100 away from it, the first is returned; of two samples at the same
    distance from the ray, the nearer one along the ray, met first, is
    returned and the farther one does not replace it. *)
Lemma findClosestSampleToRay_scan_witness :
  (exists hit,
      @findClosestSampleToRay naiveHost (Some [0; 0; 1; 100; 0; 1]%float)
        (Some (V.mk 0 0 0)) (Some (V.mk 0 0 1)) None = Some hit
      /\ Hit.sampleOffset hit = 0)
  /\ (exists hit,
        @findClosestSampleToRay naiveHost (Some [1; 0; 2; -1; 0; 5]%float)
          (Some (V.mk 0 0 0)) (Some (V.mk 0 0 1)) None = Some hit
        /\ Hit.sampleOffset hit = 0).
Proof.
  split.
  - pose proof (@findClosestSampleToRay_scan naiveHost naiveHost_laws
                  [0; 0; 1; 100; 0; 1]%float (V.mk 0 0 0) (V.mk 0 0 1) None) as T.
    cbv zeta in T. destruct T as (_ & _ & _ & _ & _ & _ & T).
    destruct (T eq_refl eq_refl) as [-> _].
    eexists. split; [vm_compute; reflexivity|reflexivity].
  - pose proof (@findClosestSampleToRay_scan naiveHost naiveHost_laws
                  [1; 0; 2; -1; 0; 5]%float (V.mk 0 0 0) (V.mk 0 0 1) None) as T.
    cbv zeta in T. destruct T as (_ & _ & _ & _ & _ & _ & T).
    destruct (T eq_refl eq_refl) as [-> _].
    eexists. split; [vm_compute; reflexivity|reflexivity].
Defined.

Lemma distanceSqLimit_unlimited (m : float) :
  Num.isFinite m = false \/ (m <? 0)%float = true ->
  distanceSqLimit m = infinity.
Proof.
  unfold distanceSqLimit. intros [E | E].
  - rewrite E. reflexivity.
  - unfold Num.geb. rewrite (ltb_not_leb _ _ E), andb_false_r. reflexivity.
Qed.

(** C10: a [maxDistanceSq] that is negative or not finite is replaced by an
    unlimited budget: the result is the one for [maxDistanceSq = +Infinity]
    (which is also the default). *)
Theorem findClosestSampleToRay_negative_budget `{Host}
    (samples : option (list float)) (rayOrigin rayDirection : option vec3)
    (maxDistanceSq : float) :
  Num.isFinite maxDistanceSq = false \/ (maxDistanceSq <? 0)%float = true ->
  findClosestSampleToRay samples rayOrigin rayDirection (Some maxDistanceSq)
  = findClosestSampleToRay samples rayOrigin rayDirection (Some infinity)
  /\ findClosestSampleToRay samples rayOrigin rayDirection (Some maxDistanceSq)
    = findClosestSampleToRay samples rayOrigin rayDirection None.
Proof.
  intros Hm. apply distanceSqLimit_unlimited in Hm.
  assert (E : forall m, distanceSqLimit m = infinity ->
            findClosestSampleToRay samples rayOrigin rayDirection (Some m)
            = findClosestSampleToRay samples rayOrigin rayDirection None).
  { intros m Em. unfold findClosestSampleToRay.
    destruct samples as [s|], rayOrigin as [o|], rayDirection as [d|]; try reflexivity.
    cbv zeta. simpl default.
    change (if Num.isFinite m && Num.geb m 0 then m else infinity)
      with (distanceSqLimit m).
    change (if Num.isFinite infinity && Num.geb infinity 0 then infinity else infinity)
      with (distanceSqLimit infinity).
    rewrite Em. reflexivity. }
  split.
  - rewrite (E maxDistanceSq Hm). symmetry. apply E. reflexivity.
  - apply E, Hm.
Qed.

Lemma findClosestSampleToRay_negative_budget_witness :
  @findClosestSampleToRay naiveHost (Some [0; 0; 1]%float) (Some (V.mk 0 0 0))
                          (Some (V.mk 0 0 1)) (Some (-1)%float)
  = @findClosestSampleToRay naiveHost (Some [0; 0; 1]%float) (Some (V.mk 0 0 0))
                            (Some (V.mk 0 0 1)) (Some infinity).
Proof.
  apply (@findClosestSampleToRay_negative_budget naiveHost).
  right. reflexivity.
Defined.

(* ------------------------------------------------------------------ *)
(** ** Half-float decoding *)

Lemma Exact_eqb_eq a b : Exact_eqb a b = true -> a = b.
Proof.
  destruct a as [|s|s|[pn pd]], b as [|t|t|[qn qd]]; simpl; try discriminate; try reflexivity.
  - intros E%eqb_prop. congruence.
  - intros E%eqb_prop. congruence.
  - intros [E1%Z.eqb_eq E2%Pos.eqb_eq]%andb_true_iff. congruence.
Qed.

Lemma all_from_spec (n : nat) (p : Z -> bool) :
  forall z, all_from n z p = true ->
  forall x, z <= x < z + Z.of_nat n -> p x = true.
Proof.
  induction n as [|n IH]; simpl; intros z Hp x Hx; [lia|].
  apply andb_true_iff in Hp as [H1 H2].
  destruct (Z.eq_dec x z) as [-> | Hne]; [assumption|].
  apply (IH (z + 1)); [assumption|lia].
Qed.

Lemma decodeFloat16_bits_all :
  all_from (Z.to_nat 65536) 0
    (fun bits => Exact_eqb (exact_value (decodeFloat16_bits bits)) (binary16_value bits))
  = true.
Proof. vm_compute. reflexivity. Qed.

Lemma decodeFloat16_bits_binary16 (bits : Z) :
  0 <= bits < 65536 ->
  exact_value (decodeFloat16_bits bits) = binary16_value bits.
Proof.
  intros Hb. apply Exact_eqb_eq.
  apply (all_from_spec _ _ 0 decodeFloat16_bits_all).
  rewrite Z2Nat.id; lia.
Qed.

(** C9: [decodeFloat16] is the IEEE-754 binary16 decode of the low 16 bits
    of its argument.  A non-finite argument yields NaN.  Otherwise, with the
    sign, exponent field and fraction of the low 16 bits: exponent field 0
    yields the signed zero when the fraction is 0 and exactly
    sign * 2^(-14) * (fraction / 1024) when it is not; exponent field 31
    yields the signed infinity when the fraction is 0 and NaN when it is
    not; any other exponent field yields exactly
    sign * 2^(exponent - 15) * (1 + fraction / 1024). *)
Theorem decodeFloat16_binary16 (value : float) :
  (Num.isFinite value = false -> is_nan (decodeFloat16 value) = true)
  /\ (Num.isFinite value = true ->
      exact_value (decodeFloat16 value)
      = binary16_value (Num.toInt32 value mod 2 ^ 16)).
Proof.
  unfold decodeFloat16. split; intros E; rewrite E; simpl negb; cbv iota.
  - reflexivity.
  - change 65535 with (Z.ones 16). rewrite Z.land_ones by lia.
    apply decodeFloat16_bits_binary16.
    apply Z.mod_pos_bound. lia.
Qed.

(* ------------------------------------------------------------------ *)
(** ** Point sampling *)

Lemma ceilQuot_le_iff (a b c : Z) : 0 < b -> ceilQuot a b <= c <-> a <= b * c.
Proof.
  intros Hb. unfold ceilQuot.
  pose proof (Z.div_mod (- a) b ltac:(lia)) as E.
  pose proof (Z.mod_pos_bound (- a) b Hb) as R.
  split; intros Hc; nia.
Qed.

Lemma ceilQuot_pos (a b : Z) : 0 < a -> 0 < b -> 1 <= ceilQuot a b.
Proof.
  intros Ha Hb.
  destruct (Z_le_gt_dec 1 (ceilQuot a b)) as [L|G]; [exact L|].
  assert (ceilQuot a b <= 0) as L%ceilQuot_le_iff by lia; lia.
Qed.

Lemma ceilQuot_self_bound (a b : Z) : 0 < a -> 1 <= b -> ceilQuot a b <= a.
Proof. intros Ha Hb. apply ceilQuot_le_iff; nia. Qed.

(** The stride [ceil(source / N)] is the least [s >= 1] whose sample count
    [ceil(source / s)] fits the budget [N]. *)
Lemma stride_least (source N : Z) :
  0 < source -> 1 <= N ->
  let s := ceilQuot source N in
  1 <= s /\ ceilQuot source s <= N
  /\ forall s', 1 <= s' < s -> N < ceilQuot source s'.
Proof.
  intros Hs HN s.
  assert (H1 : 1 <= s) by (apply ceilQuot_pos; lia).
  split; [exact H1|]. split.
  - apply ceilQuot_le_iff; [lia|].
    assert (s <= s) as L%ceilQuot_le_iff by lia; lia.
  - intros s' Hs'.
    destruct (Z_lt_ge_dec N (ceilQuot source s')) as [L|G]; [exact L|].
    assert (ceilQuot source s' <= N) as L%ceilQuot_le_iff by lia; [|lia].
    assert (s <= s'); [|lia]. apply ceilQuot_le_iff; lia.
Qed.

Lemma pointAt_length cpuPoints i : length (pointAt cpuPoints i) = 3%nat.
Proof. reflexivity. Qed.

Lemma flat_map_pointAt_length cpuPoints (l : list Z) :
  length (flat_map (pointAt cpuPoints) l) = (3 * length l)%nat.
Proof. induction l as [|i l IH]; simpl; lia. Qed.

Lemma sample_loop_spec (cpuPoints : list float) (source s : Z) :
  1 <= s ->
  forall (n k : nat) (pre : list float) (fuel c : nat),
    Z.of_nat (k + n) = ceilQuot source s ->
    (n <= fuel)%nat -> (3 * n <= c)%nat ->
    let kept := List.filter (pointFinite cpuPoints)
                            (map (fun j => Z.of_nat j * s) (seq k n)) in
    sample_loop fuel cpuPoints source (Int s) (Int (Z.of_nat k * s))
                (pre ++ replicate c 0%float) (Z.of_nat (length pre))
    = (pre ++ flat_map (pointAt cpuPoints) kept
           ++ replicate (c - 3 * length kept) 0%float,
       Z.of_nat (length pre) + 3 * Z.of_nat (length kept)).
Proof.
  intros Hs n. induction n as [|n IH]; intros k pre fuel c Hk Hf Hc kept.
  - subst kept. simpl. rewrite Nat.sub_0_r, Z.add_0_r.
    assert (Hge : source <= Z.of_nat k * s).
    { rewrite Z.mul_comm. apply ceilQuot_le_iff; lia. }
    destruct fuel; simpl; [reflexivity|].
    destruct (Z.ltb_spec (Z.of_nat k * s) source); [lia|reflexivity].
  - destruct fuel as [|fuel]; [lia|].
    assert (Hlt : Z.of_nat k * s < source).
    { destruct (Z_lt_ge_dec (Z.of_nat k * s) source) as [L|G]; [exact L|].
      assert (ceilQuot source s <= Z.of_nat k); [|lia].
      apply ceilQuot_le_iff; lia. }
    simpl sample_loop.
    destruct (Z.ltb_spec (Z.of_nat k * s) source) as [_|?]; [|lia].
    replace (Z.of_nat k * s + s) with (Z.of_nat (S k) * s) by lia.
    subst kept. simpl seq. simpl map. simpl List.filter.
    change (negb (Num.isFinite (- decodeFloat16 (read cpuPoints (Z.of_nat k * s * 3))))
            || negb (Num.isFinite (- decodeFloat16 (read cpuPoints (Z.of_nat k * s * 3 + 1))))
            || negb (Num.isFinite (decodeFloat16 (read cpuPoints (Z.of_nat k * s * 3 + 2)))))
      with (let p := pointAt cpuPoints (Z.of_nat k * s) in
            negb (Num.isFinite (nth 0 p nan)) || negb (Num.isFinite (nth 1 p nan))
            || negb (Num.isFinite (nth 2 p nan))).
    cbv zeta.
    assert (Hfin : pointFinite cpuPoints (Z.of_nat k * s)
                   = negb (negb (Num.isFinite (nth 0 (pointAt cpuPoints (Z.of_nat k * s)) nan))
                           || negb (Num.isFinite (nth 1 (pointAt cpuPoints (Z.of_nat k * s)) nan))
                           || negb (Num.isFinite (nth 2 (pointAt cpuPoints (Z.of_nat k * s)) nan)))).
    { unfold pointFinite, pointAt. simpl.
      destruct (Num.isFinite _), (Num.isFinite _), (Num.isFinite _); reflexivity. }
    destruct (pointFinite cpuPoints (Z.of_nat k * s)) eqn:Fin.
    +  symmetry in Hfin. apply negb_true_iff in Hfin. rewrite Hfin.
      destruct c as [|[|[|c]]]; try lia.
      replace (<[Z.to_nat (Z.of_nat (length pre) + 2):= decodeFloat16 (read cpuPoints (Z.of_nat k * s * 3 + 2))]>
               (<[Z.to_nat (Z.of_nat (length pre) + 1):= (- decodeFloat16 (read cpuPoints (Z.of_nat k * s * 3 + 1)))%float]>
                (<[Z.to_nat (Z.of_nat (length pre)):= (- decodeFloat16 (read cpuPoints (Z.of_nat k * s * 3)))%float]>
                 (pre ++ replicate (S (S (S c))) 0%float))))
        with ((pre ++ pointAt cpuPoints (Z.of_nat k * s)) ++ replicate c 0%float).
      2: { rewrite Nat2Z.id.
           replace (Z.to_nat (Z.of_nat (length pre) + 1)) with (length pre + 1)%nat by lia.
           replace (Z.to_nat (Z.of_nat (length pre) + 2)) with (length pre + 2)%nat by lia.
           rewrite <- (Nat.add_0_r (length pre)) at 3.
           rewrite !insert_app_r. simpl. rewrite <- app_assoc. reflexivity. }
      replace (Z.of_nat (length pre) + 3)
        with (Z.of_nat (length (pre ++ pointAt cpuPoints (Z.of_nat k * s)))).
      2: { rewrite length_app, pointAt_length. lia. }
      rewrite (IH (S k) _ fuel c); [|lia|lia|lia].
      rewrite length_app, pointAt_length. cbn [flat_map length].
      f_equal; [|lia].
      set (kept := List.filter _ _).
      replace (S (S (S c)) - 3 * S (length kept))%nat with (c - 3 * length kept)%nat by lia.
      rewrite <- !app_assoc. reflexivity.
    + symmetry in Hfin. apply negb_false_iff in Hfin. rewrite Hfin.
      rewrite (IH (S k) pre fuel c) by lia. reflexivity.
Qed.

Lemma sourcePointCountOf_nonneg cpuPoints pointCount :
  0 <= sourcePointCountOf cpuPoints pointCount.
Proof.
  unfold sourcePointCountOf.
  assert (0 <= Z.of_nat (length cpuPoints) / 3) by (apply Z.div_pos; lia).
  destruct (Num.isFinite pointCount); lia.
Qed.

Lemma sampleCpuPointsForFocus_unfold (cpuPoints : list float) (pointCount : float)
    (targetSampleCount : option float) :
  let N := normalizedTargetSampleCount targetSampleCount in
  let source := sourcePointCountOf cpuPoints pointCount in
  let s := ceilQuot source N in
  3 <= Z.of_nat (length cpuPoints) -> source <> 0 -> 1 <= N ->
  sampleCpuPointsForFocus (Some cpuPoints) pointCount targetSampleCount
  = let '(samples, writeOffset) :=
      sample_loop (Z.to_nat source) cpuPoints source (Int s) (Int 0)
                  (replicate (Z.to_nat (ceilQuot source s * 3)) 0%float) 0 in
    if writeOffset =? 0 then None
    else
      let samples :=
        if negb (writeOffset =? Z.of_nat (length samples))
        then take (Z.to_nat writeOffset) samples else samples in
      Some {| samples := samples; stride := Int s; sourcePointCount := source;
              sampledPointCount := Z.of_nat (length samples) / 3 |}.
Proof.
  intros N source s Hlen Hsrc HN.
  pose proof (sourcePointCountOf_nonneg cpuPoints pointCount) as Hnn. fold source in Hnn.
  assert (Hs : 1 <= s) by (apply ceilQuot_pos; lia).
  unfold sampleCpuPointsForFocus.
  destruct (Z.ltb_spec (Z.of_nat (length cpuPoints)) 3) as [?|_]; [lia|].
  cbv zeta.
  change (Z.min (if Num.isFinite pointCount then Z.max 0 (Num.floor pointCount)
                 else Z.of_nat (length cpuPoints) / 3)
                (Z.of_nat (length cpuPoints) / 3)) with source.
  destruct (Z.eqb_spec source 0) as [?|_]; [lia|].
  change (match targetSampleCount with
          | Some t => if Num.isFinite t && Num.gtb t 0 then Num.floor t
                      else DEFAULT_TARGET_SAMPLE_COUNT
          | None => DEFAULT_TARGET_SAMPLE_COUNT
          end) with N.
  assert (E1 : max1 (ceilDiv source (Int N)) = Int s).
  { unfold ceilDiv. destruct (Z.eqb_spec N 0) as [?|_]; [lia|].
    unfold max1. fold (ceilQuot source N). fold s. f_equal. lia. }
  rewrite E1.
  assert (E2 : ceilDiv source (Int s) = Int (ceilQuot source s)).
  { unfold ceilDiv. destruct (Z.eqb_spec s 0) as [?|_]; [lia|]. reflexivity. }
  rewrite E2. unfold xmul3. reflexivity.
Qed.

(** C4 (as the code has it): the budget [N] is the floor of
    [targetSampleCount] when that is finite and positive, and 18000
    otherwise.  Whenever [N >= 1]: the result is none when the buffer has
    fewer than 3 entries or the source point count is 0; otherwise the stride
    [s = ceil(source / N)] is the least [s >= 1] with
    [ceil(source / s) <= N]; the points kept are those among the source
    points [0, s, 2s, ...] whose three decoded coordinates are finite, each
    written as (minus the first half-float, minus the second, the third); the
    result is none when no point is kept, and otherwise holds exactly the
    kept points, at most [N] of them. *)
Theorem sampleCpuPointsForFocus_strided (cpuPoints : list float) (pointCount : float)
    (targetSampleCount : option float) :
  let N := normalizedTargetSampleCount targetSampleCount in
  let source := sourcePointCountOf cpuPoints pointCount in
  let r := sampleCpuPointsForFocus (Some cpuPoints) pointCount targetSampleCount in
  1 <= N ->
  (Z.of_nat (length cpuPoints) < 3 -> r = None)
  /\ (source = 0 -> r = None)
  /\ (3 <= Z.of_nat (length cpuPoints) -> source <> 0 ->
      let s := ceilQuot source N in
      let kept := List.filter (pointFinite cpuPoints) (strideIndices source s) in
      1 <= s /\ ceilQuot source s <= N
      /\ (forall s', 1 <= s' < s -> N < ceilQuot source s')
      /\ Z.of_nat (length kept) <= N
      /\ (kept = [] -> r = None)
      /\ (kept <> [] ->
          r = Some {| samples := flat_map (pointAt cpuPoints) kept;
                      stride := Int s;
                      sourcePointCount := source;
                      sampledPointCount := Z.of_nat (length kept) |})).
Proof.
  intros N source r HN.
  pose proof (sourcePointCountOf_nonneg cpuPoints pointCount) as Hnn. fold source in Hnn.
  split; [|split].
  - intros Hlen. subst r. unfold sampleCpuPointsForFocus.
    destruct (Z.ltb_spec (Z.of_nat (length cpuPoints)) 3) as [_|?]; [reflexivity|lia].
  - intros Hsrc. subst r. unfold sampleCpuPointsForFocus.
    destruct (Z.of_nat (length cpuPoints) <? 3); [reflexivity|]. cbv zeta.
    change (Z.min (if Num.isFinite pointCount then Z.max 0 (Num.floor pointCount)
                   else Z.of_nat (length cpuPoints) / 3)
                  (Z.of_nat (length cpuPoints) / 3)) with source.
    rewrite Hsrc. reflexivity.
  - intros Hlen Hsrc s kept.
    destruct (stride_least source N ltac:(lia) HN) as (Hs & Hfit & Hleast).
    fold s in Hs, Hfit, Hleast.
    pose proof (ceilQuot_pos source s ltac:(lia) ltac:(lia)) as Hest.
    pose proof (ceilQuot_self_bound source s ltac:(lia) Hs) as Hest'.
    pose proof (sampleCpuPointsForFocus_unfold cpuPoints pointCount targetSampleCount
                  Hlen Hsrc HN) as U.
    fold N source s r in U. cbv zeta in U.
    assert (L : sample_loop (Z.to_nat source) cpuPoints source (Int s) (Int 0)
                  (replicate (Z.to_nat (ceilQuot source s * 3)) 0%float) 0
                = (flat_map (pointAt cpuPoints) kept
                     ++ replicate (Z.to_nat (ceilQuot source s * 3) - 3 * length kept) 0%float,
                   0 + 3 * Z.of_nat (length kept))).
    { exact (sample_loop_spec cpuPoints source s Hs
               (Z.to_nat (ceilQuot source s)) 0 [] (Z.to_nat source)
               (Z.to_nat (ceilQuot source s * 3))
               ltac:(lia) ltac:(lia) ltac:(lia)). }
    rewrite L in U. clear L.
    assert (Hkl : (length kept <= Z.to_nat (ceilQuot source s))%nat).
    { subst kept. etransitivity; [apply filter_length_le|].
      unfold strideIndices. rewrite length_map, length_seq. lia. }
    repeat split; try assumption; try lia.
    + intros E. rewrite U, E. reflexivity.
    + intros E. rewrite U.
      assert (Hpos : (0 < length kept)%nat).
      { clear -E. destruct kept; [congruence|simpl; lia]. }
      destruct (Z.eqb_spec (0 + 3 * Z.of_nat (length kept)) 0) as [?|_]; [lia|].
      set (flat := flat_map (pointAt cpuPoints) kept).
      assert (Hfl : length flat = (3 * length kept)%nat)
        by apply flat_map_pointAt_length.
      set (rest := replicate _ 0%float).
      assert (Hsel : (if negb (0 + 3 * Z.of_nat (length kept)
                               =? Z.of_nat (length (flat ++ rest)))
                      then take (Z.to_nat (0 + 3 * Z.of_nat (length kept))) (flat ++ rest)
                      else flat ++ rest) = flat).
      { destruct (Z.eqb_spec (0 + 3 * Z.of_nat (length kept))
                             (Z.of_nat (length (flat ++ rest)))) as [Eq|Ne]; simpl.
        - rewrite length_app in Eq.
          assert (length rest = 0%nat) as Hr by lia.
          destruct rest; [apply app_nil_r|discriminate].
        - replace (Z.to_nat (0 + 3 * Z.of_nat (length kept))) with (length flat) by lia.
          apply take_app_length. }
      cbv zeta. rewrite Hsel. do 2 f_equal.
      rewrite Hfl. rewrite Nat2Z.inj_mul. simpl Z.of_nat.
      rewrite Z.mul_comm. apply Z.div_mul. lia.
Qed.

(** C4, as stated, fails: a [targetSampleCount] that is zero (or negative,
    or not finite) is replaced by 18000.  With two source points and a
    target of 0 both points are kept with stride 1, although no stride
    brings the sample count down to 0. *)
Lemma sampleCpuPointsForFocus_zero_target :
  (exists r,
      sampleCpuPointsForFocus (Some [0; 0; 0; 0; 0; 0]%float) nan (Some 0%float)
      = Some r
      /\ stride r = Int 1
      /\ sourcePointCount r = 2
      /\ sampledPointCount r = 2)
  /\ (forall s, 1 <= s -> ~ ceilQuot 2 s <= 0).
Proof.
  split.
  - eexists. split; [vm_compute; reflexivity|]. repeat split.
  - intros s Hs Hc. apply ceilQuot_le_iff in Hc; lia.
Qed.

Lemma sampleCpuPointsForFocus_strided_witness :
  exists r,
    sampleCpuPointsForFocus
      (Some [0x3c00; 0xc000; 0x4200; 0x7c00; 0; 0; 1; 2; 3; 4]%float)
      nan (Some 2%float) = Some r
    /\ stride r = Int 2 /\ sampledPointCount r = 2.
Proof.
  destruct (sampleCpuPointsForFocus_strided
              [0x3c00; 0xc000; 0x4200; 0x7c00; 0; 0; 1; 2; 3; 4]%float
              nan (Some 2%float) ltac:(vm_compute; discriminate))
    as (_ & _ & H3).
  destruct (H3 ltac:(vm_compute; discriminate) ltac:(vm_compute; discriminate))
    as (_ & _ & _ & _ & _ & Hr).
  eexists. split; [apply Hr; vm_compute; discriminate|].
  split; vm_compute; reflexivity.
Defined.

(* ------------------------------------------------------------------ *)
(** ** Installation *)

(** C5 (as the code has it): [installSafeControlsRefinement] throws exactly
    when one of the two event sources, the controller, the camera, the
    action-code table or the vector constructor is absent.  With these six
    present it installs its six listeners on a fresh state, whether or not
    an edit-mode flag holder and a navigation callback were given. *)
Theorem installSafeControlsRefinement_required (config : Config) :
  ((exists message, installSafeControlsRefinement config = threw message)
   <-> (cfg_windowTarget config = None \/ cfg_domElement config = None
        \/ cfg_controls config = None \/ cfg_camera config = None
        \/ cfg_MOUSE config = None \/ cfg_Vector3 config = None))
  /\ (forall w d c cam M V3,
        cfg_windowTarget config = Some w -> cfg_domElement config = Some d ->
        cfg_controls config = Some c -> cfg_camera config = Some cam ->
        cfg_MOUSE config = Some M -> cfg_Vector3 config = Some V3 ->
        exists m,
          installSafeControlsRefinement config
          = installed M V3 (match cfg_onUserNavigate config with
                            | Some _ => true | None => false end) m
          /\ state m = initialState
          /\ listeners m = initialListeners
          /\ lotEditState m = cfg_lotEditState config
          /\ camera m = cam
          /\ controls m = set_LEFT (MOUSE_PAN M) c
          /\ calls m = []).
Proof.
  unfold installSafeControlsRefinement. split.
  - destruct (cfg_windowTarget config), (cfg_domElement config),
      (cfg_controls config), (cfg_camera config), (cfg_MOUSE config),
      (cfg_Vector3 config); split;
      try (intros [message E]; discriminate);
      try (intros _; eexists; reflexivity);
      try (intros E; repeat (destruct E as [E | E]; try discriminate);
           discriminate);
      try tauto.
  - intros w d c cam M V3 -> -> -> -> -> ->.
    eexists. repeat split.
Qed.

(** C5, as stated, fails: the edit-mode flag holder and the navigation
    callback are optional.  The harness configuration without them
    installs. *)
Lemma installSafeControlsRefinement_optional_fields :
  let config :=
    {| cfg_windowTarget := Some tt; cfg_domElement := Some tt;
       cfg_controls := Some harnessControls;
       cfg_camera := Some {| position := V.mk 0 0 5 |};
       cfg_lotEditState := None;
       cfg_MOUSE := Some harnessMOUSE;
       cfg_Vector3 := Some (@FakeVector3 naiveHost);
       cfg_onUserNavigate := None |} in
  cfg_lotEditState config = None /\ cfg_onUserNavigate config = None
  /\ (forall message, installSafeControlsRefinement config <> threw message)
  /\ exists m, installSafeControlsRefinement config
               = installed harnessMOUSE (@FakeVector3 naiveHost) false m
               /\ listeners m = initialListeners.
Proof.
  repeat split; try discriminate. eexists. split; reflexivity.
Qed.

(* ------------------------------------------------------------------ *)
(** ** The handlers *)

Section HandlerFacts.
Context `{Host}.
Variable MOUSE : MouseTable.
Variable Vector3 : VectorClass.t.
Variable onUserNavigate : bool.

Local Abbreviation down := (handlePointerDown MOUSE).
Local Abbreviation move := (handlePointerMove Vector3 onUserNavigate).
Local Abbreviation up := (handlePointerUpOrCancel MOUSE).
Local Abbreviation blurred := (handleWindowBlur MOUSE).
Local Abbreviation dbl := (handleDoubleClick Vector3 onUserNavigate).
Local Abbreviation step := (dispatch MOUSE Vector3 onUserNavigate).

Ltac split_ifs :=
  repeat match goal with
         | |- context [if ?b then _ else _] => destruct b eqn:?
         end.

(** Pointer-move and double-click leave the mode, the touch set, the tilt
    flag and the controller's [enabled] flag alone. *)
Lemma handlePointerMove_keeps (event : Ev.t) (m : Machine) :
  interactionMode (state (move event m)) = interactionMode (state m)
  /\ touchPointerIds (state (move event m)) = touchPointerIds (state m)
  /\ Tilt.active (shiftTilt (state (move event m))) = Tilt.active (shiftTilt (state m))
  /\ enabled (controls (move event m)) = enabled (controls m).
Proof.
  unfold handlePointerMove, emitUserNavigate. split_ifs; simpl; auto.
Qed.

Lemma handleDoubleClick_keeps (event : Ev.t) (m : Machine) :
  state (dbl event m) = state m
  /\ enabled (controls (dbl event m)) = enabled (controls m).
Proof.
  unfold handleDoubleClick, emitUserNavigate. split_ifs; simpl; auto.
Qed.

Lemma updateTouchInteractionMode_matches (s : PointerState) :
  let s' := updateTouchInteractionMode s in
  touchPointerIds s' = touchPointerIds s
  /\ ((2 <= size (touchPointerIds s))%nat -> interactionMode s' = PINCH)
  /\ (size (touchPointerIds s) = 1%nat -> interactionMode s' = PAN)
  /\ (size (touchPointerIds s) = 0%nat -> interactionMode s' = NONE).
Proof.
  unfold updateTouchInteractionMode.
  destruct (Z.leb_spec 2 (Z.of_nat (size (touchPointerIds s)))) as [L|L]; simpl.
  - repeat split; auto; intros; lia.
  - destruct (Z.eqb_spec (Z.of_nat (size (touchPointerIds s))) 1) as [E|E];
      repeat split; auto; intros; lia.
Qed.

Lemma with_updated_touches_matches (f : PointerState -> PointerState) (m : Machine) :
  modeMatchesTouches (with_state (fun s => updateTouchInteractionMode (f s)) m).
Proof.
  unfold modeMatchesTouches. simpl.
  destruct (updateTouchInteractionMode_matches (f (state m))) as (Ht & H2 & H1 & H0).
  rewrite Ht. auto.
Qed.

Lemma endShiftTilt_state (pointerId : option Z) (m : Machine) :
  interactionMode (state (endShiftTilt pointerId m)) = interactionMode (state m)
  /\ touchPointerIds (state (endShiftTilt pointerId m)) = touchPointerIds (state m).
Proof. unfold endShiftTilt. split_ifs; simpl; auto. Qed.

Lemma endShiftTilt_tilt (pointerId : option Z) (m : Machine) :
  tiltDisablesControls m ->
  tiltDisablesControls (endShiftTilt pointerId m)
  /\ (Tilt.active (shiftTilt (state m)) = true ->
      Tilt.active (shiftTilt (state (endShiftTilt pointerId m))) = false ->
      enabled (controls (endShiftTilt pointerId m)) = true).
Proof.
  unfold tiltDisablesControls, endShiftTilt. intros Inv.
  split_ifs; simpl; split; auto; try congruence.
Qed.

(** A handled touch or pen pointer-down (outside edit mode), a touch or pen
    pointer-up or cancel, and a window blur each leave the mode in line with
    the touch set. *)
Lemma touch_down_matches (event : Ev.t) (m : Machine) :
  isDesktopPointer (Ev.pointerType event) = false -> editActive m = false ->
  modeMatchesTouches (down event m).
Proof.
  intros Ht He. unfold handlePointerDown. rewrite He, Ht. simpl.
  apply with_updated_touches_matches.
Qed.

Lemma touch_up_matches (event : Ev.t) (m : Machine) :
  isDesktopPointer (Ev.pointerType event) = false ->
  modeMatchesTouches (up event m).
Proof.
  intros Ht. unfold handlePointerUpOrCancel. rewrite Ht. simpl.
  apply with_updated_touches_matches.
Qed.

Lemma blur_matches (m : Machine) : modeMatchesTouches (blurred m).
Proof.
  unfold handleWindowBlur, modeMatchesTouches, resetLeftMouseBinding.
  cbn [state interactionMode touchPointerIds with_state with_controls
       set_interactionMode set_activeMousePointerId].
  destruct (endShiftTilt_state None (with_state (set_touchPointerIds ∅) m)) as [_ Ht].
  rewrite Ht.
  cbn [state touchPointerIds with_state set_touchPointerIds].
  rewrite size_empty. repeat split; auto; intros; lia.
Qed.

Lemma dispatch_matches (i : Input) (m : Machine) :
  notDesktopButton i = true ->
  modeMatchesTouches m -> modeMatchesTouches (step i m).
Proof.
  intros Hi Inv. destruct i as [e|e|e|e| |e|b]; simpl in *.
  - destruct (registered _ _ m); [|exact Inv].
    apply negb_true_iff in Hi.
    destruct (editActive m) eqn:He; [|apply touch_down_matches; assumption].
    unfold handlePointerDown. rewrite He. exact Inv.
  - destruct (registered _ _ m); [|exact Inv].
    destruct (handlePointerMove_keeps e m) as (Hm & Ht & _).
    unfold modeMatchesTouches. rewrite Hm, Ht. exact Inv.
  - destruct (registered _ _ m); [|exact Inv].
    apply touch_up_matches, negb_true_iff, Hi.
  - destruct (registered _ _ m); [|exact Inv].
    apply touch_up_matches, negb_true_iff, Hi.
  - destruct (registered _ _ m); [|exact Inv]. apply blur_matches.
  - destruct (registered _ _ m); [|exact Inv].
    destruct (handleDoubleClick_keeps e m) as (Hs & _).
    unfold modeMatchesTouches. rewrite Hs. exact Inv.
  - exact Inv.
Qed.

Lemma run_matches (inputs : list Input) :
  forall m, forallb notDesktopButton inputs = true ->
            modeMatchesTouches m ->
            modeMatchesTouches (run MOUSE Vector3 onUserNavigate inputs m).
Proof.
  induction inputs as [|i inputs IH]; intros m Hall Inv; simpl; [exact Inv|].
  apply andb_true_iff in Hall as [Hi Hall].
  apply IH; [exact Hall|]. apply dispatch_matches; assumption.
Qed.

(** Every input preserves "tilt active implies controller disabled", and a
    step that leaves the tilt sub-state re-enables the controller. *)
Lemma dispatch_tilt (i : Input) (m : Machine) :
  tiltDisablesControls m ->
  tiltDisablesControls (step i m)
  /\ (Tilt.active (shiftTilt (state m)) = true ->
      Tilt.active (shiftTilt (state (step i m))) = false ->
      enabled (controls (step i m)) = true).
Proof.
  intros Inv. destruct i as [e|e|e|e| |e|b]; simpl.
  - destruct (registered _ _ m); [|split; [exact Inv|congruence]].
    unfold handlePointerDown, setLeftMouseBinding, updateTouchInteractionMode,
      tiltDisablesControls in *.
    repeat (progress (split_ifs; simpl)); split; auto; congruence.
  - destruct (registered _ _ m); [|split; [exact Inv|congruence]].
    destruct (handlePointerMove_keeps e m) as (_ & _ & Ha & He).
    unfold tiltDisablesControls. rewrite Ha, He. split; [exact Inv|congruence].
  - destruct (registered _ _ m); [|split; [exact Inv|congruence]].
    unfold handlePointerUpOrCancel.
    destruct (isDesktopPointer (Ev.pointerType e)).
    2: { unfold updateTouchInteractionMode, tiltDisablesControls in *. simpl.
         repeat (progress (split_ifs; simpl)); split; auto; congruence. }
    simpl.
    destruct (endShiftTilt_tilt (Some (Ev.pointerId e)) m Inv) as [I1 I2].
    unfold tiltDisablesControls in *.
    unfold resetLeftMouseBinding. split_ifs; simpl; split; auto.
  - destruct (registered _ _ m); [|split; [exact Inv|congruence]].
    unfold handlePointerUpOrCancel.
    destruct (isDesktopPointer (Ev.pointerType e)).
    2: { unfold updateTouchInteractionMode, tiltDisablesControls in *. simpl.
         repeat (progress (split_ifs; simpl)); split; auto; congruence. }
    simpl.
    destruct (endShiftTilt_tilt (Some (Ev.pointerId e)) m Inv) as [I1 I2].
    unfold tiltDisablesControls in *.
    unfold resetLeftMouseBinding. split_ifs; simpl; split; auto.
  - destruct (registered _ _ m); [|split; [exact Inv|congruence]].
    unfold handleWindowBlur, resetLeftMouseBinding. simpl.
    destruct (endShiftTilt_tilt None (with_state (set_touchPointerIds ∅) m) Inv) as [I1 I2].
    unfold tiltDisablesControls in *. simpl in *. split; auto.
  - destruct (registered _ _ m); [|split; [exact Inv|congruence]].
    destruct (handleDoubleClick_keeps e m) as (Hs & He).
    unfold tiltDisablesControls. rewrite Hs, He. split; [exact Inv|congruence].
  - split; [exact Inv|congruence].
Qed.

Lemma run_tilt (inputs : list Input) :
  forall m, tiltDisablesControls m ->
            tiltDisablesControls (run MOUSE Vector3 onUserNavigate inputs m).
Proof.
  induction inputs as [|i inputs IH]; intros m Inv; simpl; [exact Inv|].
  apply IH. apply dispatch_tilt, Inv.
Qed.

End HandlerFacts.

Lemma installed_start (config : Config) MOUSE Vector3 onUserNavigate (m0 : Machine) :
  installSafeControlsRefinement config = installed MOUSE Vector3 onUserNavigate m0 ->
  state m0 = initialState /\ listeners m0 = initialListeners /\ calls m0 = [].
Proof.
  unfold installSafeControlsRefinement.
  destruct (cfg_windowTarget config), (cfg_domElement config),
    (cfg_controls config), (cfg_camera config), (cfg_MOUSE config),
    (cfg_Vector3 config); try discriminate.
  intros E. injection E as <- <- <- <-. repeat split.
Qed.

(* ------------------------------------------------------------------ *)
(** ** Touch invariants *)

(** C6 (as the code has it): in every state reached from a fresh install by
    inputs none of which is a pointer-down, pointer-up or pointer-cancel of
    a desktop pointer, two or more touch ids mean PINCH, exactly one means
    PAN and none means NONE.  In any reachable state whatever, a handled
    touch or pen pointer-down (outside edit mode), a touch or pen pointer-up
    or cancel, and a window blur each re-establish the three implications.
    A desktop pointer sets the mode from its own event alone, whatever the
    touch set holds: a handled desktop pointer-down (outside edit mode) sets
    it to the classification of the event with no touches counted, and a
    desktop pointer-up or cancel sets it to NONE, both leaving the touch set
    as it was. *)
Theorem touch_modes_follow_touch_set `{Host} (config : Config)
    (MOUSE : MouseTable) (Vector3 : VectorClass.t) (onUserNavigate : bool)
    (m0 : Machine) :
  installSafeControlsRefinement config = installed MOUSE Vector3 onUserNavigate m0 ->
  forall inputs : list Input,
    let m := run MOUSE Vector3 onUserNavigate inputs m0 in
    (forallb notDesktopButton inputs = true -> modeMatchesTouches m)
    /\ (forall event, isDesktopPointer (Ev.pointerType event) = false ->
          (editActive m = false ->
           modeMatchesTouches (handlePointerDown MOUSE event m))
          /\ modeMatchesTouches (handlePointerUpOrCancel MOUSE event m))
    /\ modeMatchesTouches (handleWindowBlur MOUSE m)
    /\ (forall event, isDesktopPointer (Ev.pointerType event) = true ->
          (editActive m = false ->
           interactionMode (state (handlePointerDown MOUSE event m))
           = classifyPointerInteraction (Ev.pointerType event) (Ev.button event)
               (Ev.altKey event) (Ev.shiftKey event) 0
           /\ touchPointerIds (state (handlePointerDown MOUSE event m))
              = touchPointerIds (state m))
          /\ interactionMode (state (handlePointerUpOrCancel MOUSE event m)) = NONE
          /\ touchPointerIds (state (handlePointerUpOrCancel MOUSE event m))
             = touchPointerIds (state m)).
Proof.
  intros Hi inputs m. destruct (installed_start _ _ _ _ _ Hi) as (Hs & _ & _).
  split; [|split; [|split]].
  - intros Hall. apply run_matches; [exact Hall|].
    unfold modeMatchesTouches. rewrite Hs.
    cbn [initialState touchPointerIds interactionMode]. rewrite size_empty.
    repeat split; auto; intros; lia.
  - intros event Ht. split.
    + intros He. apply touch_down_matches; assumption.
    + apply touch_up_matches, Ht.
  - apply blur_matches.
  - intros event Hd. split; [|split].
    + intros He. unfold handlePointerDown, setLeftMouseBinding.
      rewrite He, Hd. cbn [negb].
      destruct (Ev.button event =? 0);
        cbn [state with_state with_controls interactionMode set_interactionMode
             set_activeMousePointerId];
        destruct (bool_decide _); split; reflexivity.
    + unfold handlePointerUpOrCancel, resetLeftMouseBinding. rewrite Hd. cbn [negb].
      destruct (_ || _); reflexivity.
    + unfold handlePointerUpOrCancel, resetLeftMouseBinding. rewrite Hd. cbn [negb].
      destruct (endShiftTilt_state (Some (Ev.pointerId event)) m) as [_ Ht].
      destruct (_ || _); cbn [state with_state with_controls touchPointerIds
                              set_interactionMode set_activeMousePointerId];
        exact Ht.
Qed.

(** C6, as stated, fails: a desktop pointer-down or pointer-up sets the mode
    from the desktop event alone.  On the harness, two touches followed by a
    plain left mouse-down leave two touch ids and mode PAN; one touch
    followed by a mouse-up leaves one touch id and mode NONE. *)
Lemma touch_modes_overridden_by_mouse :
  (exists m,
      @runInstalled naiveHost (installSafeControlsRefinement (@harnessConfig naiveHost))
        [pointerdown (makePointerEvent "touch" 10 0 false false 0);
         pointerdown (makePointerEvent "touch" 11 0 false false 0);
         pointerdown (makePointerEvent "mouse" 1 0 false false 0)] = Some m
      /\ size (touchPointerIds (state m)) = 2%nat
      /\ interactionMode (state m) = PAN)
  /\ (exists m,
        @runInstalled naiveHost (installSafeControlsRefinement (@harnessConfig naiveHost))
          [pointerdown (makePointerEvent "touch" 10 0 false false 0);
           pointerup (makePointerEvent "mouse" 1 0 false false 0)] = Some m
        /\ size (touchPointerIds (state m)) = 1%nat
        /\ interactionMode (state m) = NONE).
Proof.
  split; eexists; (split; [reflexivity|]); split; vm_compute; reflexivity.
Qed.

Lemma touch_modes_follow_touch_set_witness :
  modeMatchesTouches
    (@run naiveHost harnessMOUSE (@FakeVector3 naiveHost) true
       [pointerdown (makePointerEvent "touch" 10 0 false false 0);
        pointerdown (makePointerEvent "touch" 11 0 false false 0);
        pointerup (makePointerEvent "touch" 11 0 false false 0)]
       (resetLeftMouseBinding harnessMOUSE
          {| state := initialState; controls := harnessControls;
             camera := {| position := V.mk 0 0 5 |};
             lotEditState := Some {| active := false |};
             listeners := initialListeners; calls := [] |})).
Proof.
  exact (proj1 (@touch_modes_follow_touch_set naiveHost (@harnessConfig naiveHost)
                  _ _ _ _ eq_refl
                  [pointerdown (makePointerEvent "touch" 10 0 false false 0);
                   pointerdown (makePointerEvent "touch" 11 0 false false 0);
                   pointerup (makePointerEvent "touch" 11 0 false false 0)])
               eq_refl).
Defined.

(* ------------------------------------------------------------------ *)
(** ** Tilt and the controller's enabled flag *)

(** C7: in every state reached from a fresh install, an active tilt
    sub-state means the controller is disabled.  A step that enters the
    sub-state leaves the controller disabled, and a step that leaves it
    leaves the controller enabled; the sub-state is entered by a primary
    button pointer-down of a desktop pointer with shift held (outside edit
    mode), and left by a desktop pointer-up or cancel with the tilt's
    pointer id and by a window blur. *)
Theorem shiftTilt_disables_controller `{Host} (config : Config)
    (MOUSE : MouseTable) (Vector3 : VectorClass.t) (onUserNavigate : bool)
    (m0 : Machine) :
  installSafeControlsRefinement config = installed MOUSE Vector3 onUserNavigate m0 ->
  forall inputs : list Input,
    let m := run MOUSE Vector3 onUserNavigate inputs m0 in
    let tilting (m : Machine) := Tilt.active (shiftTilt (state m)) in
    (tilting m = true -> enabled (controls m) = false)
    /\ (forall i,
          let m' := dispatch MOUSE Vector3 onUserNavigate i m in
          (tilting m = false -> tilting m' = true -> enabled (controls m') = false)
          /\ (tilting m = true -> tilting m' = false -> enabled (controls m') = true))
    /\ (forall event,
          editActive m = false ->
          isDesktopPointer (Ev.pointerType event) = true ->
          Ev.button event = 0 -> Ev.shiftKey event = true ->
          let m' := handlePointerDown MOUSE event m in
          tilting m' = true /\ enabled (controls m') = false)
    /\ (forall event,
          tilting m = true ->
          isDesktopPointer (Ev.pointerType event) = true ->
          Tilt.pointerId (shiftTilt (state m)) = Some (Ev.pointerId event) ->
          let m' := handlePointerUpOrCancel MOUSE event m in
          tilting m' = false /\ enabled (controls m') = true)
    /\ (tilting m = true ->
        let m' := handleWindowBlur MOUSE m in
        tilting m' = false /\ enabled (controls m') = true).
Proof.
  intros Hi inputs m tilting. destruct (installed_start _ _ _ _ _ Hi) as (Hs & _ & _).
  assert (Inv : tiltDisablesControls m).
  { apply run_tilt. unfold tiltDisablesControls. rewrite Hs. discriminate. }
  split; [exact Inv|]. split; [|split; [|split]].
  - intros i m'. destruct (dispatch_tilt MOUSE Vector3 onUserNavigate i m Inv) as [I1 I2].
    split; [|exact I2]. intros _ Ht. apply I1, Ht.
  - intros event He Hd Hb Hk m'. subst m' tilting.
    unfold handlePointerDown, classifyPointerInteraction, setLeftMouseBinding.
    rewrite He, Hd, Hb, Hk. simpl. split; reflexivity.
  - intros event Ht Hd Hp m'. subst m' tilting.
    unfold handlePointerUpOrCancel, endShiftTilt, resetLeftMouseBinding.
    cbv beta in Ht. rewrite Hd, Ht, Hp. simpl.
    rewrite (bool_decide_eq_true_2 (Some (Ev.pointerId event) = Some (Ev.pointerId event)))
      by reflexivity.
    simpl. destruct (_ || _); simpl; split; reflexivity.
  - intros Ht m'. subst m' tilting.
    unfold handleWindowBlur, endShiftTilt, resetLeftMouseBinding. simpl.
    cbv beta in Ht. rewrite Ht. simpl. split; reflexivity.
Qed.

Lemma shiftTilt_disables_controller_witness :
  let m := @run naiveHost harnessMOUSE (@FakeVector3 naiveHost) true
             [pointerdown (makePointerEvent "mouse" 7 0 true false 100)]
             (resetLeftMouseBinding harnessMOUSE
                {| state := initialState; controls := harnessControls;
                   camera := {| position := V.mk 0 0 5 |};
                   lotEditState := Some {| active := false |};
                   listeners := initialListeners; calls := [] |}) in
  Tilt.active (shiftTilt (state m)) = true /\ enabled (controls m) = false.
Proof.
  intros m. split; [reflexivity|].
  exact (proj1 (@shiftTilt_disables_controller naiveHost (@harnessConfig naiveHost)
                  _ _ _ _ eq_refl
                  [pointerdown (makePointerEvent "mouse" 7 0 true false 100)])
               eq_refl).
Defined.

(* ------------------------------------------------------------------ *)
(** ** Edit mode *)

(** C8: while the edit-mode flag is active, pointer-down, pointer-move and
    double-click leave the whole machine as it is: the pointer state, the
    controller, the camera, and the record of calls (so no tilt, no
    controller refresh, no navigation notification, no suppressed default). *)
Theorem edit_mode_suppresses_input `{Host} (MOUSE : MouseTable)
    (Vector3 : VectorClass.t) (onUserNavigate : bool) (m : Machine) (event : Ev.t) :
  editActive m = true ->
  handlePointerDown MOUSE event m = m
  /\ handlePointerMove Vector3 onUserNavigate event m = m
  /\ handleDoubleClick Vector3 onUserNavigate event m = m
  /\ dispatch MOUSE Vector3 onUserNavigate (pointerdown event) m = m
  /\ dispatch MOUSE Vector3 onUserNavigate (pointermove event) m = m
  /\ dispatch MOUSE Vector3 onUserNavigate (dblclick event) m = m.
Proof.
  intros He.
  assert (Hd : handlePointerDown MOUSE event m = m).
  { unfold handlePointerDown. rewrite He. reflexivity. }
  assert (Hm : handlePointerMove Vector3 onUserNavigate event m = m).
  { unfold handlePointerMove. rewrite He.
    destruct (negb (Tilt.active _)); [reflexivity|].
    destruct (negb (bool_decide _)); [reflexivity|].
    destruct (negb (isDesktopPointer _)); reflexivity. }
  assert (Hc : handleDoubleClick Vector3 onUserNavigate event m = m).
  { unfold handleDoubleClick. rewrite He. reflexivity. }
  repeat split; try assumption; simpl;
    destruct (registered _ _ m); congruence.
Qed.

Lemma edit_mode_suppresses_input_witness :
  let m := {| state := set_shiftTilt (Tilt.mk true (Some 77) 100) initialState;
              controls := harnessControls;
              camera := {| position := V.mk 0 0 5 |};
              lotEditState := Some {| active := true |};
              listeners := initialListeners; calls := [] |} in
  let event := makePointerEvent "mouse" 77 0 true false 120 in
  handlePointerDown harnessMOUSE event m = m
  /\ @handlePointerMove naiveHost (@FakeVector3 naiveHost) true event m = m
  /\ handleDoubleClick (@FakeVector3 naiveHost) true event m = m.
Proof.
  intros m event.
  destruct (@edit_mode_suppresses_input naiveHost harnessMOUSE
              (@FakeVector3 naiveHost) true m event eq_refl)
    as (H1 & H2 & H3 & _).
  repeat split; assumption.
Defined.

(* ================================================================== *)
(** * Further properties of the module *)

(* ------------------------------------------------------------------ *)
(** ** More facts about binary64 arithmetic *)

Module RoundFacts.

Lemma shr_1_nonneg (mrs : shr_record) : 0 <= shr_m mrs -> 0 <= shr_m (shr_1 mrs).
Proof.
  destruct mrs as [m r s]; simpl. intros Hm.
  destruct m as [|p|p]; [simpl; lia| |lia].
  destruct p; simpl; lia.
Qed.

Lemma iter_shr_1_nonneg (p : positive) :
  forall mrs, 0 <= shr_m mrs -> 0 <= shr_m (SpecFloat.iter_pos shr_1 p mrs).
Proof.
  induction p as [p IH|p IH|]; intros mrs Hm; simpl.
  - apply IH, IH, shr_1_nonneg, Hm.
  - apply IH, IH, Hm.
  - apply shr_1_nonneg, Hm.
Qed.

Lemma shr_fexp_nonneg (prec emax m e : Z) (l : location) :
  0 <= m -> 0 <= shr_m (fst (shr_fexp prec emax m e l)).
Proof.
  intros Hm. unfold shr_fexp, shr.
  assert (H0 : 0 <= shr_m (shr_record_of_loc m l)).
  { destruct l as [|[]]; exact Hm. }
  destruct (fexp prec emax (Zdigits2 m + e) - e) as [|p|p]; simpl; try exact H0.
  apply iter_shr_1_nonneg, H0.
Qed.

(** Rounding a non-negative mantissa never produces NaN, and keeps the
    sign it is given. *)
Lemma binary_round_aux_signed (prec emax : Z) (sx : bool) (mx ex : Z) (lx : location) :
  0 <= mx ->
  match binary_round_aux prec emax sx mx ex lx with
  | S754_nan => False
  | S754_zero s | S754_infinity s | S754_finite s _ _ => s = sx
  end.
Proof.
  intros Hm. unfold binary_round_aux.
  pose proof (shr_fexp_nonneg prec emax mx ex lx Hm) as H1.
  destruct (shr_fexp prec emax mx ex lx) as [mrs' e']. simpl in H1.
  assert (H2 : 0 <= round_nearest_even (shr_m mrs') (loc_of_shr_record mrs')).
  { unfold round_nearest_even.
    destruct (loc_of_shr_record mrs') as [|[]]; try lia.
    destruct (Z.even (shr_m mrs')); lia. }
  pose proof (shr_fexp_nonneg prec emax _ e' loc_Exact H2) as H3.
  destruct (shr_fexp prec emax _ e' loc_Exact) as [mrs'' e'']. simpl in H3.
  destruct (shr_m mrs'') as [|p|p]; [reflexivity| |lia].
  destruct (e'' <=? emax - prec); reflexivity.
Qed.

Lemma binary_round_signed (prec emax : Z) (sx : bool) (mx : positive) (ex : Z) :
  match binary_round prec emax sx mx ex with
  | S754_nan => False
  | S754_zero s | S754_infinity s | S754_finite s _ _ => s = sx
  end.
Proof.
  unfold binary_round.
  destruct (shl_align mx ex _) as [mz ez].
  apply binary_round_aux_signed. lia.
Qed.

Lemma binary_normalize_not_nan (prec emax m e : Z) (szero : bool) :
  binary_normalize prec emax m e szero <> S754_nan.
Proof.
  unfold binary_normalize. destruct m as [|p|p]; [discriminate| |].
  - pose proof (binary_round_signed prec emax false p e) as R.
    destruct (binary_round prec emax false p e); [discriminate..|contradiction|discriminate].
  - pose proof (binary_round_signed prec emax true p e) as R.
    destruct (binary_round prec emax true p e); [discriminate..|contradiction|discriminate].
Qed.

(** The shape of a finite Number. *)
Lemma isFinite_shape (v : float) :
  Num.isFinite v = true ->
  (exists s, Prim2SF v = S754_zero s) \/ (exists s m e, Prim2SF v = S754_finite s m e).
Proof.
  intros [Hn Hi]%isFinite_true.
  apply is_nan_false in Hn. rewrite is_infinity_false in Hi.
  destruct (Prim2SF v) as [s|s| |s m e] eqn:E; eauto.
  - destruct (Hi s eq_refl).
  - congruence.
Qed.

(** Products, sums and differences of finite Numbers are never NaN (they
    may overflow to an infinity). *)
Lemma mul_finite_not_nan (a b : float) :
  Num.isFinite a = true -> Num.isFinite b = true -> is_nan (a * b) = false.
Proof.
  intros Ha%isFinite_shape Hb%isFinite_shape.
  apply is_nan_false. rewrite mul_spec. unfold SF64mul.
  destruct Ha as [[s Ea]|(s & m & e & Ea)], Hb as [[t Eb]|(t & n & f & Eb)];
    rewrite Ea, Eb; simpl; try discriminate.
  pose proof (binary_round_aux_signed prec emax (xorb s t) (Z.pos (m * n)) (e + f)
                loc_Exact ltac:(lia)) as R.
  destruct (binary_round_aux _ _ _ _ _ _); [discriminate..|contradiction|discriminate].
Qed.

Lemma add_finite_not_nan (a b : float) :
  Num.isFinite a = true -> Num.isFinite b = true -> is_nan (a + b) = false.
Proof.
  intros Ha%isFinite_shape Hb%isFinite_shape.
  apply is_nan_false. rewrite add_spec. unfold SF64add.
  destruct Ha as [[s Ea]|(s & m & e & Ea)], Hb as [[t Eb]|(t & n & f & Eb)];
    rewrite Ea, Eb; simpl; try discriminate.
  - destruct s, t; discriminate.
  - apply binary_normalize_not_nan.
Qed.

Lemma sub_finite_not_nan (a b : float) :
  Num.isFinite a = true -> Num.isFinite b = true -> is_nan (a - b) = false.
Proof.
  intros Ha%isFinite_shape Hb%isFinite_shape.
  apply is_nan_false. rewrite sub_spec. unfold SF64sub.
  destruct Ha as [[s Ea]|(s & m & e & Ea)], Hb as [[t Eb]|(t & n & f & Eb)];
    rewrite Ea, Eb; simpl; try discriminate.
  - destruct s, t; discriminate.
  - apply binary_normalize_not_nan.
Qed.

(** Negation reverses the order, and the absolute value of a Number between
    [-s] and [s] is at most [s]. *)
Lemma SFcompare_opp (a b : spec_float) :
  SFcompare (SFopp a) (SFopp b) = SFcompare b a.
Proof.
  destruct a as [s|s| |s m e], b as [t|t| |t n f]; simpl; try reflexivity;
    try (destruct s; reflexivity); try (destruct t; reflexivity);
    try (destruct s, t; reflexivity).
  f_equal. destruct s, t; simpl; try reflexivity.
  all: cmp_cases.
Qed.

Lemma SFopp_involutive (a : spec_float) : SFopp (SFopp a) = a.
Proof. destruct a as [s|s| |s m e]; simpl; rewrite ?negb_involutive; reflexivity. Qed.

Lemma opp_leb (a b : float) : (- a <=? b)%float = (- b <=? a)%float.
Proof.
  rewrite !leb_spec, !opp_spec. unfold SFleb.
  rewrite <- (SFopp_involutive (Prim2SF b)) at 1.
  rewrite SFcompare_opp. reflexivity.
Qed.

Lemma opp_leb_self (s : float) :
  (0 <=? s)%float = true -> (- s <=? 0)%float = true /\ (- s <=? s)%float = true.
Proof.
  intros Hs.
  assert (H0 : (- s <=? 0)%float = true).
  { rewrite opp_leb. revert Hs. rewrite !leb_spec, opp_spec. unfold SFleb.
    change (Prim2SF 0) with (S754_zero false). simpl SFopp.
    destruct (Prim2SF s) as [t|t| |t m e]; simpl; auto. }
  split; [exact H0|]. eapply leb_trans; eassumption.
Qed.

Lemma abs_leb (r s : float) :
  (- s <=? r)%float = true -> (r <=? s)%float = true -> (abs r <=? s)%float = true.
Proof.
  intros Hlo Hhi.
  assert (Ha : Prim2SF (abs r) = Prim2SF r \/ Prim2SF (abs r) = Prim2SF (- r)).
  { rewrite abs_spec, opp_spec. destruct (Prim2SF r) as [t|t| |t m e]; simpl; auto;
      destruct t; auto. }
  destruct Ha as [Ha | Ha].
  - rewrite leb_spec, Ha, <- leb_spec. exact Hhi.
  - rewrite leb_spec, Ha, <- leb_spec. rewrite opp_leb. exact Hlo.
Qed.

Lemma ltb_trans (a b c : float) :
  (a <? b)%float = true -> (b <? c)%float = true -> (a <? c)%float = true.
Proof.
  rewrite !ltb_spec. unfold SFltb.
  destruct (Prim2SF a) as [s|s| |s m e], (Prim2SF b) as [t|t| |t n f],
    (Prim2SF c) as [u|u| |u p g];
    repeat match goal with x : bool |- _ => destruct x end;
    simpl; try congruence.
  all: repeat match goal with
         | |- context [Z.compare ?a ?b] => destruct (Z.compare_spec a b)
         | |- context [Pos.compare_cont Eq ?a ?b] =>
             change (Pos.compare_cont Eq a b) with (Pos.compare a b);
             destruct (Pos.compare_spec a b)
         end; simpl; try congruence; try lia.
Qed.

Lemma ltb_leb_trans (a b c : float) :
  (a <? b)%float = true -> (b <=? c)%float = true -> (a <? c)%float = true.
Proof.
  rewrite !ltb_spec, leb_spec. unfold SFltb, SFleb.
  destruct (Prim2SF a) as [s|s| |s m e], (Prim2SF b) as [t|t| |t n f],
    (Prim2SF c) as [u|u| |u p g];
    repeat match goal with x : bool |- _ => destruct x end;
    simpl; try congruence.
  all: repeat match goal with
         | |- context [Z.compare ?a ?b] => destruct (Z.compare_spec a b)
         | |- context [Pos.compare_cont Eq ?a ?b] =>
             change (Pos.compare_cont Eq a b) with (Pos.compare a b);
             destruct (Pos.compare_spec a b)
         end; simpl; try congruence; try lia.
Qed.

End RoundFacts.

Import RoundFacts.

(* ------------------------------------------------------------------ *)
(** ** The classifier *)

(** X1: which inputs give which mode.  The classifier never answers NONE;
    PINCH comes only from a touch or pen pointer with two or more active
    touches; TILT is exactly the primary button of a desktop pointer with
    shift held, whatever alt is; ORBIT is the primary button with alt and
    without shift, or the secondary button; DOLLY is the middle button;
    OTHER is any further button of a desktop pointer. *)
Theorem classifyPointerInteraction_modes (pointerType : string) (button : Z)
    (altKey shiftKey : bool) (activeTouchCount : Z) :
  let mode := classifyPointerInteraction pointerType button altKey shiftKey
                                         activeTouchCount in
  let desktop := isDesktopPointer pointerType in
  (desktop = true <-> pointerType <> "touch"%string /\ pointerType <> "pen"%string)
  /\ mode <> NONE
  /\ (mode = PINCH <-> desktop = false /\ 2 <= activeTouchCount)
  /\ (mode = TILT <-> desktop = true /\ button = 0 /\ shiftKey = true)
  /\ (mode = ORBIT <->
      desktop = true
      /\ ((button = 0 /\ shiftKey = false /\ altKey = true) \/ button = 2))
  /\ (mode = DOLLY <-> desktop = true /\ button = 1)
  /\ (mode = OTHER <-> desktop = true /\ button <> 0 /\ button <> 1 /\ button <> 2)
  /\ (mode = PAN <->
      (desktop = false /\ activeTouchCount < 2)
      \/ (desktop = true /\ button = 0 /\ shiftKey = false /\ altKey = false)).
Proof.
  intros mode desktop. subst mode desktop.
  split.
  { unfold isDesktopPointer.
    destruct (String.eqb_spec pointerType "touch"), (String.eqb_spec pointerType "pen");
      simpl; split; try discriminate; try tauto; intros [? ?]; congruence. }
  unfold classifyPointerInteraction.
  destruct (isDesktopPointer pointerType); simpl.
  - destruct (Z.eqb_spec button 0) as [-> | H0]; simpl.
    + destruct shiftKey, altKey; simpl; repeat split;
        try discriminate; try tauto; try lia;
        intuition (try discriminate; try lia; try congruence).
    + destruct (Z.eqb_spec button 1) as [-> | H1]; simpl;
        [repeat split; try discriminate; intuition (try discriminate; try lia)|].
      destruct (Z.eqb_spec button 2) as [-> | H2]; simpl;
        repeat split; try discriminate; intuition (try discriminate; try lia).
  - destruct (Z.leb_spec 2 activeTouchCount); repeat split; try discriminate;
      intuition (try discriminate; try lia).
Qed.

(* ------------------------------------------------------------------ *)
(** ** Clamping and the tilt step *)

(** X2: [clamp] on Numbers.  A NaN among the three arguments gives NaN.  With
    ordered bounds the result lies between them and is one of the three
    arguments.  With inverted bounds the upper bound wins. *)
Theorem clamp_cases (value minValue maxValue : float) :
  (is_nan value || is_nan minValue || is_nan maxValue = true ->
   is_nan (clamp value minValue maxValue) = true)
  /\ (is_nan value = false -> (minValue <=? maxValue)%float = true ->
      (minValue <=? clamp value minValue maxValue)%float = true
      /\ (clamp value minValue maxValue <=? maxValue)%float = true
      /\ (clamp value minValue maxValue = value
          \/ clamp value minValue maxValue = minValue
          \/ clamp value minValue maxValue = maxValue))
  /\ (is_nan value = false -> (maxValue <? minValue)%float = true ->
      clamp value minValue maxValue = maxValue).
Proof.
  split; [|split].
  - intros Hn. unfold clamp, Num.min, Num.max.
    destruct (is_nan value) eqn:Ev; [reflexivity|].
    destruct (is_nan minValue) eqn:El; [reflexivity|].
    simpl in Hn. rewrite Hn. rewrite orb_true_r. reflexivity.
  - intros Ev Hle. destruct (clamp_bounds value minValue maxValue Ev Hle) as [B1 B2].
    split; [exact B1|]. split; [exact B2|].
    destruct (leb_not_nan _ _ Hle) as [El Eh]. unfold clamp.
    destruct (max_cases value minValue Ev El) as (Hm & _ & _).
    assert (Em : is_nan (Num.max value minValue) = false)
      by (destruct Hm as [-> | ->]; assumption).
    destruct (min_cases (Num.max value minValue) maxValue Em Eh) as (Hn & _ & _).
    destruct Hn as [-> | ->]; [|auto]. destruct Hm as [-> | ->]; auto.
  - intros Ev Hlt.
    assert (El : is_nan minValue = false).
    { destruct (is_nan minValue) eqn:N; [|reflexivity].
      rewrite (ltb_nan_r _ _ N) in Hlt. discriminate. }
    assert (Eh : is_nan maxValue = false).
    { destruct (is_nan maxValue) eqn:N; [|reflexivity].
      rewrite (ltb_nan_l _ _ N) in Hlt. discriminate. }
    unfold clamp.
    destruct (max_cases value minValue Ev El) as (Hm & _ & Hlo).
    assert (Em : is_nan (Num.max value minValue) = false)
      by (destruct Hm as [-> | ->]; assumption).
    set (m := Num.max value minValue) in *.
    assert (Hhm : (maxValue <? m)%float = true)
      by (eapply ltb_leb_trans; eassumption).
    unfold Num.min. rewrite Em, Eh. simpl.
    destruct (m <? maxValue)%float eqn:E1.
    + apply ltb_leb in E1. rewrite (ltb_not_leb _ _ Hhm) in E1. discriminate.
    + rewrite Hhm. reflexivity.
Qed.

(** The tilt step stays within a non-negative [maxStep]. *)
Lemma computeTiltAngleFromDrag_range (deltaY : float)
    (radiansPerPixel maxStep : option float) :
  (0 <=? default 0.1%float maxStep)%float = true ->
  let r := computeTiltAngleFromDrag deltaY radiansPerPixel maxStep in
  (- default 0.1%float maxStep <=? r)%float = true
  /\ (r <=? default 0.1%float maxStep)%float = true
  /\ (abs r <=? default 0.1%float maxStep)%float = true.
Proof.
  intros Hs r.
  destruct (opp_leb_self _ Hs) as [H0 Hself].
  assert (Hr : (- default 0.1%float maxStep <=? r)%float = true
               /\ (r <=? default 0.1%float maxStep)%float = true).
  { subst r. unfold computeTiltAngleFromDrag.
    destruct (Num.isFinite deltaY) eqn:Ed; simpl; [|split; assumption].
    destruct (Num.isFinite (default 0.005%float radiansPerPixel)) eqn:Er; simpl;
      [|split; assumption].
    destruct (default 0.005%float radiansPerPixel =? 0)%float; [split; assumption|].
    apply clamp_bounds; [|exact Hself].
    apply mul_finite_not_nan; assumption. }
  destruct Hr as [R1 R2]. repeat split; try assumption.
  apply abs_leb; assumption.
Qed.

(** X3: the tilt step.  [computeTiltAngleFromDrag] answers 0 when the drag
    or the rate is not finite or the rate is 0; for a non-negative
    [maxStep] its answer always lies in [[-maxStep, maxStep]]; with the
    default rate and step its magnitude is at most 0.1 for every drag. *)
Theorem computeTiltAngleFromDrag_bounded (deltaY : float)
    (radiansPerPixel maxStep : option float) :
  let r := computeTiltAngleFromDrag deltaY radiansPerPixel maxStep in
  let rate := default 0.005%float radiansPerPixel in
  let step := default 0.1%float maxStep in
  (Num.isFinite deltaY = false \/ Num.isFinite rate = false
   \/ (rate =? 0)%float = true -> r = 0%float)
  /\ ((0 <=? step)%float = true ->
      (- step <=? r)%float = true /\ (r <=? step)%float = true
      /\ (abs r <=? step)%float = true)
  /\ (abs (computeTiltAngleFromDrag deltaY None None) <=? 0.1)%float = true.
Proof.
  intros r rate step. split; [|split].
  - subst r. unfold computeTiltAngleFromDrag. fold rate.
    intros [E | [E | E]]; rewrite E; simpl; rewrite ?orb_true_r; reflexivity.
  - intros Hs. apply computeTiltAngleFromDrag_range, Hs.
  - apply (computeTiltAngleFromDrag_range deltaY None None). reflexivity.
Qed.

(* ------------------------------------------------------------------ *)
(** ** Screen distance *)

(** X4: [computeScreenDistancePx] answers [+Infinity] as soon as one of its
    six arguments is not finite; otherwise it is the host's hypot of the two
    pixel differences. *)
Theorem computeScreenDistancePx_guards (Math_hypot2 : float -> float -> float)
    (ndcX ndcY viewportWidth viewportHeight pointerX pointerY : float) :
  let r := computeScreenDistancePx Math_hypot2 ndcX ndcY viewportWidth
                                   viewportHeight pointerX pointerY in
  let allFinite := forallb Num.isFinite
                     [ndcX; ndcY; viewportWidth; viewportHeight; pointerX; pointerY] in
  (allFinite = false -> r = infinity)
  /\ (allFinite = true ->
      r = Math_hypot2 ((ndcX + 1) * 0.5 * viewportWidth - pointerX)%float
                      ((1 - ndcY) * 0.5 * viewportHeight - pointerY)%float).
Proof.
  intros r allFinite. subst r allFinite. unfold computeScreenDistancePx. simpl.
  destruct (Num.isFinite ndcX), (Num.isFinite ndcY), (Num.isFinite viewportWidth),
    (Num.isFinite viewportHeight), (Num.isFinite pointerX), (Num.isFinite pointerY);
    simpl; split; intros E; try discriminate; reflexivity.
Qed.

(* ------------------------------------------------------------------ *)
(** ** More on the handlers *)

Lemma installed_binding (config : Config) MOUSE Vector3 onUserNavigate (m0 : Machine) :
  installSafeControlsRefinement config = installed MOUSE Vector3 onUserNavigate m0 ->
  mouseButtons_LEFT (controls m0) = MOUSE_PAN MOUSE
  /\ lotEditState m0 = cfg_lotEditState config.
Proof.
  unfold installSafeControlsRefinement.
  destruct (cfg_windowTarget config), (cfg_domElement config),
    (cfg_controls config), (cfg_camera config), (cfg_MOUSE config),
    (cfg_Vector3 config); try discriminate.
  intros E. injection E as <- <- <- <-. split; reflexivity.
Qed.

Lemma initialListeners_registered (m : Machine) :
  listeners m = initialListeners ->
  registered domElement_ "pointerdown" m = true
  /\ registered windowTarget_ "pointermove" m = true
  /\ registered windowTarget_ "pointerup" m = true
  /\ registered windowTarget_ "pointercancel" m = true
  /\ registered windowTarget_ "blur" m = true
  /\ registered domElement_ "dblclick" m = true.
Proof. unfold registered. intros ->. repeat split. Qed.

Section MachineFacts.
Context `{Host}.
Variable MOUSE : MouseTable.
Variable Vector3 : VectorClass.t.
Variable onUserNavigate : bool.

Local Abbreviation down := (handlePointerDown MOUSE).
Local Abbreviation move := (handlePointerMove Vector3 onUserNavigate).
Local Abbreviation up := (handlePointerUpOrCancel MOUSE).
Local Abbreviation blurred := (handleWindowBlur MOUSE).
Local Abbreviation dbl := (handleDoubleClick Vector3 onUserNavigate).
Local Abbreviation step := (dispatch MOUSE Vector3 onUserNavigate).
Local Abbreviation runs := (run MOUSE Vector3 onUserNavigate).

Ltac case_branches :=
  repeat (progress (repeat match goal with
                           | |- context [if ?b then _ else _] =>
                               lazymatch b with
                               | activeMousePointerId _ => fail
                               | _ => destruct b eqn:?
                               end
                           end; simpl)).

Ltac case_ifs :=
  repeat (progress (repeat match goal with
                           | |- context [if ?b then _ else _] => destruct b eqn:?
                           end; simpl)).

(** A property kept by every handler is kept by every input sequence. *)
Lemma dispatch_preserves (P : Machine -> Prop) :
  (forall e m, P m -> P (down e m)) ->
  (forall e m, P m -> P (move e m)) ->
  (forall e m, P m -> P (up e m)) ->
  (forall m, P m -> P (blurred m)) ->
  (forall e m, P m -> P (dbl e m)) ->
  (forall b m, P m -> P (step (set_edit_active b) m)) ->
  forall i m, P m -> P (step i m).
Proof.
  intros Hd Hm Hu Hb Hc He i m Pm.
  destruct i as [e|e|e|e| |e|b]; [| | | | | |apply He, Pm];
    cbn [dispatch]; destruct (registered _ _ m); auto.
Qed.

Lemma run_preserves (P : Machine -> Prop) :
  (forall i m, P m -> P (step i m)) ->
  forall inputs m, P m -> P (runs inputs m).
Proof.
  intros Hs inputs. induction inputs as [|i inputs IH]; intros m Pm; simpl; auto.
Qed.

(** What [endShiftTilt] leaves alone. *)
Lemma endShiftTilt_frame (pointerId : option Z) (m : Machine) :
  let m' := endShiftTilt pointerId m in
  interactionMode (state m') = interactionMode (state m)
  /\ touchPointerIds (state m') = touchPointerIds (state m)
  /\ activeMousePointerId (state m') = activeMousePointerId (state m)
  /\ mouseButtons_LEFT (controls m') = mouseButtons_LEFT (controls m)
  /\ camera m' = camera m /\ calls m' = calls m
  /\ listeners m' = listeners m /\ lotEditState m' = lotEditState m.
Proof. unfold endShiftTilt. case_ifs; repeat split. Qed.

Lemma handlers_keep_listeners (i : Input) (m : Machine) :
  listeners (step i m) = listeners m.
Proof.
  apply (dispatch_preserves (fun m' => listeners m' = listeners m));
    [| | | | | |reflexivity].
  - intros e m' <-. unfold handlePointerDown, setLeftMouseBinding. case_ifs; reflexivity.
  - intros e m' <-. unfold handlePointerMove, emitUserNavigate. case_ifs; reflexivity.
  - intros e m' <-. unfold handlePointerUpOrCancel, resetLeftMouseBinding.
    destruct (endShiftTilt_frame (Some (Ev.pointerId e)) m') as (_&_&_&_&_&_&L&_).
    case_ifs; auto.
  - intros m' <-. unfold handleWindowBlur, resetLeftMouseBinding. simpl.
    destruct (endShiftTilt_frame None (with_state (set_touchPointerIds ∅) m'))
      as (_&_&_&_&_&_&L&_). exact L.
  - intros e m' <-. unfold handleDoubleClick, emitUserNavigate. case_ifs; reflexivity.
  - intros b m' <-. reflexivity.
Qed.

Lemma run_keeps_listeners (inputs : list Input) (m : Machine) :
  listeners (runs inputs m) = listeners m.
Proof.
  apply (run_preserves (fun m' => listeners m' = listeners m)); [|reflexivity].
  intros i m' <-. apply handlers_keep_listeners.
Qed.

(** Without its listeners the machine ignores every event. *)
Lemma detached_ignores (i : Input) (m : Machine) :
  listeners m = [] -> isEvent i = true -> step i m = m.
Proof.
  intros L Hi. destruct i; try discriminate; cbn [dispatch]; unfold registered;
    rewrite L; reflexivity.
Qed.

(** The left-button binding follows the tracked mouse pointer. *)
Lemma dispatch_binding (i : Input) (m : Machine) :
  leftBindingTracksMouse MOUSE m -> leftBindingTracksMouse MOUSE (step i m).
Proof.
  revert i m. apply dispatch_preserves; unfold leftBindingTracksMouse.
  - intros e m Inv.
    unfold handlePointerDown, setLeftMouseBinding, resolveLeftMouseAction,
      updateTouchInteractionMode.
    case_branches; try exact Inv; auto;
      destruct (activeMousePointerId (state m)); auto.
  - intros e m Inv. unfold handlePointerMove, emitUserNavigate.
    case_branches; exact Inv.
  - intros e m Inv. unfold handlePointerUpOrCancel, resetLeftMouseBinding.
    destruct (endShiftTilt_frame (Some (Ev.pointerId e)) m) as (_&_&A&L&_).
    destruct (isDesktopPointer (Ev.pointerType e)); simpl.
    + destruct (_ || _); simpl; [auto|]. rewrite A, L. exact Inv.
    + unfold updateTouchInteractionMode. case_branches; exact Inv.
  - intros m _. reflexivity.
  - intros e m Inv. unfold handleDoubleClick, emitUserNavigate.
    case_branches; exact Inv.
  - intros b m Inv. exact Inv.
Qed.

Lemma dispatch_navigate (i : Input) (m : Machine) :
  navigateFollowsUpdate onUserNavigate m ->
  navigateFollowsUpdate onUserNavigate (step i m).
Proof.
  revert i m. apply dispatch_preserves; unfold navigateFollowsUpdate.
  - intros e m Inv. unfold handlePointerDown, setLeftMouseBinding.
    case_ifs; exact Inv.
  - intros e m Inv. unfold handlePointerMove, emitUserNavigate.
    destruct onUserNavigate; case_ifs; auto.
  - intros e m Inv. unfold handlePointerUpOrCancel, resetLeftMouseBinding.
    destruct (endShiftTilt_frame (Some (Ev.pointerId e)) m) as (_&_&_&_&_&C&_).
    case_ifs; rewrite ?C; exact Inv.
  - intros m Inv. unfold handleWindowBlur, resetLeftMouseBinding. simpl.
    destruct (endShiftTilt_frame None (with_state (set_touchPointerIds ∅) m))
      as (_&_&_&_&_&C&_). rewrite C. exact Inv.
  - intros e m Inv. unfold handleDoubleClick, emitUserNavigate.
    destruct onUserNavigate; case_ifs; auto.
  - intros b m Inv. exact Inv.
Qed.

Lemma dispatch_tilt_calls (i : Input) (m : Machine) :
  Forall tiltCallBounded (calls m) -> Forall tiltCallBounded (calls (step i m)).
Proof.
  revert i m. apply dispatch_preserves.
  - intros e m Inv. unfold handlePointerDown, setLeftMouseBinding.
    case_ifs; repeat (constructor; [exact I|]); exact Inv.
  - intros e m Inv. unfold handlePointerMove, emitUserNavigate.
    case_ifs; repeat (constructor; [exact I|]); try exact Inv.
    all: constructor; [|exact Inv].
    all: split; [|assumption].
    all: apply (computeTiltAngleFromDrag_range _ None None); reflexivity.
  - intros e m Inv. unfold handlePointerUpOrCancel, resetLeftMouseBinding.
    destruct (endShiftTilt_frame (Some (Ev.pointerId e)) m) as (_&_&_&_&_&C&_).
    case_ifs; rewrite ?C; exact Inv.
  - intros m Inv. unfold handleWindowBlur, resetLeftMouseBinding. simpl.
    destruct (endShiftTilt_frame None (with_state (set_touchPointerIds ∅) m))
      as (_&_&_&_&_&C&_). rewrite C. exact Inv.
  - intros e m Inv. unfold handleDoubleClick, emitUserNavigate.
    case_ifs; repeat (constructor; [exact I|]); exact Inv.
  - intros b m Inv. exact Inv.
Qed.

(** With the mode in line with the touch set, recomputing it changes
    nothing. *)
Lemma updateTouchInteractionMode_fixed (s : PointerState) :
  ((2 <= size (touchPointerIds s))%nat -> interactionMode s = PINCH) ->
  (size (touchPointerIds s) = 1%nat -> interactionMode s = PAN) ->
  (size (touchPointerIds s) = 0%nat -> interactionMode s = NONE) ->
  updateTouchInteractionMode s = s.
Proof.
  intros H2 H1 H0. unfold updateTouchInteractionMode, set_interactionMode.
  destruct s as [mode ids am st]; simpl in *.
  destruct (Z.leb_spec 2 (Z.of_nat (size ids))) as [L|L].
  - rewrite H2 by lia. reflexivity.
  - destruct (Z.eqb_spec (Z.of_nat (size ids)) 1) as [E|E].
    + rewrite H1 by lia. reflexivity.
    + rewrite H0 by lia. reflexivity.
Qed.

(** The effect of a handled touch or pen event on the touch set. *)
Lemma touch_down_effect (e : Ev.t) (m : Machine) :
  listeners m = initialListeners -> editActive m = false ->
  isDesktopPointer (Ev.pointerType e) = false ->
  let m' := step (pointerdown e) m in
  touchPointerIds (state m') = {[Ev.pointerId e]} ∪ touchPointerIds (state m)
  /\ modeMatchesTouches m'
  /\ listeners m' = initialListeners /\ editActive m' = false.
Proof.
  intros Hl He Ht m'. subst m'. cbn [dispatch].
  destruct (initialListeners_registered m Hl) as (-> & _).
  split; [|split; [|split]].
  - unfold handlePointerDown. rewrite He, Ht. cbn [negb state with_state].
    apply updateTouchInteractionMode_matches.
  - unfold handlePointerDown. rewrite He, Ht. cbn [negb].
    apply with_updated_touches_matches.
  - unfold handlePointerDown. rewrite He, Ht. exact Hl.
  - unfold handlePointerDown. rewrite He, Ht. exact He.
Qed.

Lemma touch_up_effect (e : Ev.t) (m : Machine) :
  listeners m = initialListeners -> editActive m = false ->
  isDesktopPointer (Ev.pointerType e) = false ->
  forall m', m' = step (pointerup e) m \/ m' = step (pointercancel e) m ->
  touchPointerIds (state m') = touchPointerIds (state m) ∖ {[Ev.pointerId e]}
  /\ modeMatchesTouches m'
  /\ listeners m' = initialListeners /\ editActive m' = false.
Proof.
  intros Hl He Ht m' Hm'.
  assert (E : m' = up e m).
  { destruct (initialListeners_registered m Hl) as (_ & _ & R1 & R2 & _).
    destruct Hm' as [-> | ->]; cbn [dispatch]; rewrite ?R1, ?R2; reflexivity. }
  subst m'. unfold handlePointerUpOrCancel. rewrite Ht. cbn [negb].
  split; [|split; [|split]].
  - cbn [state with_state]. apply updateTouchInteractionMode_matches.
  - apply with_updated_touches_matches.
  - exact Hl.
  - exact He.
Qed.

End MachineFacts.

(* ------------------------------------------------------------------ *)
(** ** Desktop pointer-down *)

(** X5: a handled pointer-down of a desktop pointer.  The mode becomes the
    classification of the event with no touches counted, whatever the touch
    set holds; the camera and the touch set are left alone.  The primary
    button records the pointer as the tracked mouse pointer and binds the
    left button to ROTATE with Alt and to PAN without, also when the
    gesture is a Shift tilt; any other button leaves the tracked pointer and
    the binding alone.  A gesture other than TILT changes nothing else; TILT
    captures the pointer and its height, disables the controller and
    consumes the event. *)
Theorem handlePointerDown_desktop (MOUSE : MouseTable) (event : Ev.t) (m : Machine) :
  editActive m = false ->
  isDesktopPointer (Ev.pointerType event) = true ->
  let m' := handlePointerDown MOUSE event m in
  let mode := classifyPointerInteraction (Ev.pointerType event) (Ev.button event)
                (Ev.altKey event) (Ev.shiftKey event) 0 in
  interactionMode (state m') = mode
  /\ touchPointerIds (state m') = touchPointerIds (state m)
  /\ camera m' = camera m
  /\ (Ev.button event = 0 ->
      activeMousePointerId (state m') = Some (Ev.pointerId event)
      /\ mouseButtons_LEFT (controls m')
         = (if Ev.altKey event then MOUSE_ROTATE MOUSE else MOUSE_PAN MOUSE))
  /\ (Ev.button event <> 0 ->
      activeMousePointerId (state m') = activeMousePointerId (state m)
      /\ mouseButtons_LEFT (controls m') = mouseButtons_LEFT (controls m))
  /\ (mode <> TILT ->
      shiftTilt (state m') = shiftTilt (state m)
      /\ enabled (controls m') = enabled (controls m)
      /\ calls m' = calls m)
  /\ (mode = TILT ->
      shiftTilt (state m')
      = Tilt.mk true (Some (Ev.pointerId event)) (Ev.clientY event)
      /\ enabled (controls m') = false
      /\ calls m' = stopPropagation :: preventDefault :: calls m).
Proof.
  intros He Hd m' mode. subst m'. unfold handlePointerDown, setLeftMouseBinding,
    resolveLeftMouseAction.
  rewrite He, Hd. cbn [negb]. fold mode.
  destruct (Z.eqb_spec (Ev.button event) 0) as [Eb|Eb]; cbn [state with_state
    with_controls interactionMode set_interactionMode set_activeMousePointerId];
    case_bool_decide as Em; simpl;
    repeat split; try reflexivity; try congruence;
    try (intros; destruct (Ev.altKey event); reflexivity).
Qed.

Lemma handlePointerDown_desktop_witness :
  let event := makePointerEvent "mouse" 1 0 true true 120 in
  let m' := handlePointerDown harnessMOUSE event
              {| state := initialState; controls := harnessControls;
                 camera := {| position := V.mk 0 0 5 |};
                 lotEditState := None; listeners := initialListeners; calls := [] |} in
  interactionMode (state m') = TILT
  /\ activeMousePointerId (state m') = Some 1
  /\ mouseButtons_LEFT (controls m') = MOUSE_ROTATE harnessMOUSE.
Proof.
  intros event m'.
  pose proof (handlePointerDown_desktop harnessMOUSE event
                {| state := initialState; controls := harnessControls;
                   camera := {| position := V.mk 0 0 5 |};
                   lotEditState := None; listeners := initialListeners; calls := [] |}
                eq_refl eq_refl) as (Hm & _ & _ & Hb & _).
  destruct (Hb eq_refl) as [Ha Hl].
  split; [exact Hm|]. split; [exact Ha|exact Hl].
Defined.

(* ------------------------------------------------------------------ *)
(** ** Window blur *)

(** X6: a window blur brings the pointer state back to rest from any state
    whatever: no touches, no tracked mouse pointer, mode NONE, the tilt
    sub-state left (with the controller re-enabled if a tilt was under way,
    and untouched otherwise) and the left button bound to PAN.  The camera,
    the edit-mode flag, the listeners and the record of calls are left
    alone, and a second blur changes nothing more. *)
Theorem handleWindowBlur_recovers (MOUSE : MouseTable) (m : Machine) :
  let m' := handleWindowBlur MOUSE m in
  interactionMode (state m') = NONE
  /\ touchPointerIds (state m') = ∅
  /\ activeMousePointerId (state m') = None
  /\ Tilt.active (shiftTilt (state m')) = false
  /\ mouseButtons_LEFT (controls m') = MOUSE_PAN MOUSE
  /\ (Tilt.active (shiftTilt (state m)) = true ->
      Tilt.pointerId (shiftTilt (state m')) = None
      /\ enabled (controls m') = true)
  /\ (Tilt.active (shiftTilt (state m)) = false ->
      shiftTilt (state m') = shiftTilt (state m)
      /\ enabled (controls m') = enabled (controls m))
  /\ camera m' = camera m /\ calls m' = calls m
  /\ lotEditState m' = lotEditState m /\ listeners m' = listeners m
  /\ handleWindowBlur MOUSE m' = m'.
Proof.
  intros m'. subst m'. unfold handleWindowBlur, endShiftTilt, resetLeftMouseBinding.
  simpl. destruct (Tilt.active (shiftTilt (state m))) eqn:Ea; simpl;
    rewrite ?Ea; simpl; repeat split; try reflexivity; try congruence.
Qed.

(* ------------------------------------------------------------------ *)
(** ** Cleanup *)

(** X7: in every state reached from a successful install the six
    listeners of the install are still the registered ones; [cleanup]
    removes all of them and touches nothing else; after it no event, and
    no sequence of events, changes the machine; and a second [cleanup]
    changes nothing. *)
Theorem cleanup_detaches `{Host} (config : Config)
    (MOUSE : MouseTable) (Vector3 : VectorClass.t) (onUserNavigate : bool)
    (m0 : Machine) :
  installSafeControlsRefinement config = installed MOUSE Vector3 onUserNavigate m0 ->
  forall inputs : list Input,
    let m := run MOUSE Vector3 onUserNavigate inputs m0 in
    listeners m = initialListeners
    /\ listeners (cleanup m) = []
    /\ (state (cleanup m) = state m /\ controls (cleanup m) = controls m
        /\ camera (cleanup m) = camera m /\ calls (cleanup m) = calls m)
    /\ (forall later : list Input,
          forallb isEvent later = true ->
          run MOUSE Vector3 onUserNavigate later (cleanup m) = cleanup m)
    /\ cleanup (cleanup m) = cleanup m.
Proof.
  intros Hi inputs m. destruct (installed_start _ _ _ _ _ Hi) as (_ & Hl & _).
  assert (L : listeners m = initialListeners).
  { subst m. rewrite run_keeps_listeners. exact Hl. }
  assert (C : listeners (cleanup m) = []).
  { unfold cleanup. cbn [listeners]. rewrite L. reflexivity. }
  split; [exact L|]. split; [exact C|]. split; [repeat split|]. split.
  - intros later. induction later as [|i later IH]; intros Hall; [reflexivity|].
    cbn [forallb] in Hall. apply andb_true_iff in Hall as [Hi' Hall].
    cbn [run fold_left]. rewrite detached_ignores by assumption.
    apply IH, Hall.
  - unfold cleanup. cbn [state controls camera lotEditState calls listeners].
    rewrite L. reflexivity.
Qed.

Lemma cleanup_detaches_witness :
  let m := @run naiveHost harnessMOUSE (@FakeVector3 naiveHost) true
             [pointerdown (makePointerEvent "touch" 10 0 false false 0)]
             (resetLeftMouseBinding harnessMOUSE
                {| state := initialState; controls := harnessControls;
                   camera := {| position := V.mk 0 0 5 |};
                   lotEditState := Some {| active := false |};
                   listeners := initialListeners; calls := [] |}) in
  listeners (cleanup m) = []
  /\ @run naiveHost harnessMOUSE (@FakeVector3 naiveHost) true
       [pointerup (makePointerEvent "touch" 10 0 false false 0)] (cleanup m)
     = cleanup m.
Proof.
  intros m.
  pose proof (@cleanup_detaches naiveHost (@harnessConfig naiveHost) harnessMOUSE
                (@FakeVector3 naiveHost) true _ eq_refl
                [pointerdown (makePointerEvent "touch" 10 0 false false 0)])
    as (_ & C & _ & R & _).
  split; [exact C|].
  exact (R [pointerup (makePointerEvent "touch" 10 0 false false 0)] eq_refl).
Defined.

(* ------------------------------------------------------------------ *)
(** ** Touches *)

(** X8: putting a finger down and lifting it again is a round trip.
    Outside edit mode, for a touch or pen pointer whose id is not already
    in the touch set, and a machine whose mode is in line with its touch
    set, the pointer-down followed by the pointer-up (or cancel) of the
    same pointer gives back the machine it started from. *)
Theorem touch_down_up_round_trip (MOUSE : MouseTable) (event : Ev.t) (m : Machine) :
  editActive m = false ->
  isDesktopPointer (Ev.pointerType event) = false ->
  Ev.pointerId event ∉ touchPointerIds (state m) ->
  modeMatchesTouches m ->
  handlePointerUpOrCancel MOUSE event (handlePointerDown MOUSE event m) = m.
Proof.
  intros He Ht Hn (H2 & H1 & H0).
  unfold handlePointerUpOrCancel, handlePointerDown. rewrite He, Ht. cbn [negb].
  destruct m as [s c cam l ls cs]. unfold with_state.
  cbn [state controls camera lotEditState listeners calls] in *.
  f_equal. destruct s as [mode ids am st].
  cbn [touchPointerIds interactionMode] in *.
  assert (E : ({[Ev.pointerId event]} ∪ ids) ∖ {[Ev.pointerId event]} = ids)
    by set_solver.
  set (s1 := updateTouchInteractionMode
               (set_touchPointerIds ({[Ev.pointerId event]} ∪ ids) _)).
  assert (F : touchPointerIds s1 = {[Ev.pointerId event]} ∪ ids
              /\ activeMousePointerId s1 = am /\ shiftTilt s1 = st).
  { subst s1. unfold updateTouchInteractionMode.
    repeat match goal with
           | |- context [if ?b then _ else _] => destruct b
           end; repeat split. }
  destruct F as (F1 & F2 & F3). clearbody s1.
  unfold updateTouchInteractionMode, set_interactionMode, set_touchPointerIds.
  cbn [touchPointerIds interactionMode activeMousePointerId shiftTilt].
  rewrite F1, F2, F3, E.
  destruct (Z.leb_spec 2 (Z.of_nat (size ids))) as [L|L];
    [rewrite H2 by lia; reflexivity|].
  destruct (Z.eqb_spec (Z.of_nat (size ids)) 1) as [E1|E1];
    [rewrite H1 by lia|rewrite H0 by lia]; reflexivity.
Qed.

Lemma touch_down_up_round_trip_witness :
  let m := {| state := initialState; controls := harnessControls;
              camera := {| position := V.mk 0 0 5 |};
              lotEditState := None; listeners := initialListeners; calls := [] |} in
  let event := makePointerEvent "touch" 10 0 false false 0 in
  handlePointerUpOrCancel harnessMOUSE event (handlePointerDown harnessMOUSE event m) = m.
Proof.
  intros m event.
  apply (touch_down_up_round_trip harnessMOUSE event m eq_refl eq_refl).
  - cbn. set_solver.
  - unfold modeMatchesTouches. cbn [m state initialState touchPointerIds interactionMode].
    rewrite size_empty. repeat split; auto; intros; lia.
Defined.

(** X9: one finger pans, two fingers pinch.  From a fresh install with
    edit mode off, for touch or pen pointers [a] and [b] with different
    ids: the mode is NONE at rest, PAN once [a] is down, PINCH once [b] is
    down as well, PAN again when [b] is lifted (or cancelled) and NONE when
    [a] is lifted too. *)
Theorem touch_sequence_modes `{Host} (config : Config)
    (MOUSE : MouseTable) (Vector3 : VectorClass.t) (onUserNavigate : bool)
    (m0 : Machine) (a b : Ev.t) :
  installSafeControlsRefinement config = installed MOUSE Vector3 onUserNavigate m0 ->
  editActive m0 = false ->
  isDesktopPointer (Ev.pointerType a) = false ->
  isDesktopPointer (Ev.pointerType b) = false ->
  Ev.pointerId a <> Ev.pointerId b ->
  let mode inputs := getInteractionMode (run MOUSE Vector3 onUserNavigate inputs m0) in
  mode [] = NONE
  /\ mode [pointerdown a] = PAN
  /\ mode [pointerdown a; pointerdown b] = PINCH
  /\ mode [pointerdown a; pointerdown b; pointerup b] = PAN
  /\ mode [pointerdown a; pointerdown b; pointercancel b] = PAN
  /\ mode [pointerdown a; pointerdown b; pointerup b; pointerup a] = NONE.
Proof.
  intros Hi He Ha Hb Hab mode.
  destruct (installed_start _ _ _ _ _ Hi) as (Hs & Hl & _).
  destruct (touch_down_effect MOUSE Vector3 onUserNavigate a m0 Hl He Ha)
    as (I1 & M1 & L1 & E1).
  set (m1 := dispatch MOUSE Vector3 onUserNavigate (pointerdown a) m0) in *.
  destruct (touch_down_effect MOUSE Vector3 onUserNavigate b m1 L1 E1 Hb)
    as (I2 & M2 & L2 & E2).
  set (m2 := dispatch MOUSE Vector3 onUserNavigate (pointerdown b) m1) in *.
  destruct (touch_up_effect MOUSE Vector3 onUserNavigate b m2 L2 E2 Hb _
              (or_introl eq_refl)) as (I3 & M3 & L3 & E3).
  destruct (touch_up_effect MOUSE Vector3 onUserNavigate b m2 L2 E2 Hb _
              (or_intror eq_refl)) as (I3' & M3' & _ & _).
  set (m3 := dispatch MOUSE Vector3 onUserNavigate (pointerup b) m2) in *.
  set (m3' := dispatch MOUSE Vector3 onUserNavigate (pointercancel b) m2) in *.
  destruct (touch_up_effect MOUSE Vector3 onUserNavigate a m3 L3 E3 Ha _
              (or_introl eq_refl)) as (I4 & M4 & _ & _).
  set (m4 := dispatch MOUSE Vector3 onUserNavigate (pointerup a) m3) in *.
  rewrite Hs in I1. cbn [initialState touchPointerIds] in I1.
  assert (T1 : touchPointerIds (state m1) = {[Ev.pointerId a]})
    by (rewrite I1; set_solver).
  assert (T2 : touchPointerIds (state m2) = {[Ev.pointerId b]} ∪ {[Ev.pointerId a]})
    by (rewrite I2, T1; reflexivity).
  assert (T3 : touchPointerIds (state m3) = {[Ev.pointerId a]})
    by (rewrite I3, T2; set_solver).
  assert (T3' : touchPointerIds (state m3') = {[Ev.pointerId a]})
    by (rewrite I3', T2; set_solver).
  assert (T4 : touchPointerIds (state m4) = ∅)
    by (rewrite I4, T3; set_solver).
  subst mode. unfold getInteractionMode. cbn [run fold_left].
  fold m1. fold m2. fold m3. fold m3'. fold m4.
  split; [rewrite Hs; reflexivity|].
  split; [apply M1; rewrite T1; apply size_singleton|].
  split; [apply M2; rewrite T2, size_union by set_solver;
          rewrite !size_singleton; lia|].
  split; [apply M3; rewrite T3; apply size_singleton|].
  split; [apply M3'; rewrite T3'; apply size_singleton|].
  apply M4. rewrite T4. apply size_empty.
Qed.

Lemma touch_sequence_modes_witness :
  let a := makePointerEvent "touch" 10 0 false false 0 in
  let b := makePointerEvent "pen" 11 0 false false 0 in
  exists m0,
    installSafeControlsRefinement (@harnessConfig naiveHost)
    = installed harnessMOUSE (@FakeVector3 naiveHost) true m0
    /\ getInteractionMode
         (@run naiveHost harnessMOUSE (@FakeVector3 naiveHost) true
            [pointerdown a; pointerdown b] m0) = PINCH.
Proof.
  intros a b. eexists. split; [reflexivity|].
  refine (proj1 (proj2 (proj2
    (@touch_sequence_modes naiveHost (@harnessConfig naiveHost) harnessMOUSE
       (@FakeVector3 naiveHost) true _ a b eq_refl eq_refl eq_refl eq_refl _)))).
  cbn. lia.
Defined.

(* ------------------------------------------------------------------ *)
(** ** The left-button binding *)

(** X10: the left-button binding follows the tracked mouse pointer.  In
    every state reached from a successful install, the left button of the
    controller is bound to PAN or to ROTATE, and to PAN whenever no mouse
    pointer is tracked: the ROTATE binding never outlives the Alt drag that
    asked for it. *)
Theorem left_binding_follows_mouse_pointer `{Host} (config : Config)
    (MOUSE : MouseTable) (Vector3 : VectorClass.t) (onUserNavigate : bool)
    (m0 : Machine) :
  installSafeControlsRefinement config = installed MOUSE Vector3 onUserNavigate m0 ->
  forall inputs : list Input,
    let m := run MOUSE Vector3 onUserNavigate inputs m0 in
    (mouseButtons_LEFT (controls m) = MOUSE_PAN MOUSE
     \/ mouseButtons_LEFT (controls m) = MOUSE_ROTATE MOUSE)
    /\ (activeMousePointerId (state m) = None ->
        mouseButtons_LEFT (controls m) = MOUSE_PAN MOUSE).
Proof.
  intros Hi inputs m.
  destruct (installed_start _ _ _ _ _ Hi) as (Hs & _ & _).
  destruct (installed_binding _ _ _ _ _ Hi) as (Hb & _).
  assert (Inv : leftBindingTracksMouse MOUSE m).
  { subst m. apply run_preserves; [apply dispatch_binding|].
    unfold leftBindingTracksMouse. rewrite Hs. exact Hb. }
  unfold leftBindingTracksMouse in Inv.
  destruct (activeMousePointerId (state m)); split; auto; discriminate.
Qed.

Lemma left_binding_follows_mouse_pointer_witness :
  exists m0,
    installSafeControlsRefinement (@harnessConfig naiveHost)
    = installed harnessMOUSE (@FakeVector3 naiveHost) true m0
    /\ let m := @run naiveHost harnessMOUSE (@FakeVector3 naiveHost) true
                  [pointerdown (makePointerEvent "mouse" 1 0 false true 0);
                   pointerup (makePointerEvent "mouse" 1 0 false true 0)] m0 in
       mouseButtons_LEFT (controls m) = MOUSE_PAN harnessMOUSE.
Proof.
  eexists. split; [reflexivity|].
  refine (proj2 (@left_binding_follows_mouse_pointer naiveHost (@harnessConfig naiveHost)
                   harnessMOUSE (@FakeVector3 naiveHost) true _ eq_refl
                   [pointerdown (makePointerEvent "mouse" 1 0 false true 0);
                    pointerup (makePointerEvent "mouse" 1 0 false true 0)]) _).
  reflexivity.
Defined.

(* ------------------------------------------------------------------ *)
(** ** Double click *)

(** X11: the double-click zoom.  [handleDoubleClick] never touches the
    pointer state, the controller, the edit-mode flag or the listeners.
    Either it leaves the whole machine as it was, or the pointer is a
    desktop one outside edit mode, the camera is further than 1e-8 from
    the target and the zoomed distance differs from the present one by
    more than 1e-8; then the camera is put at the target plus the offset
    rescaled to the zoomed distance, and the controller update, the
    navigation callback (if one was given) and [preventDefault] are
    recorded, in that order.  For a finite present distance the zoomed
    distance lies within the controller's distance limits. *)
Theorem handleDoubleClick_zoom (Vector3 : VectorClass.t) (onUserNavigate : bool)
    (event : Ev.t) (m : Machine) :
  let m' := handleDoubleClick Vector3 onUserNavigate event m in
  let offset := subVectors (position (camera m)) (target (controls m)) in
  let currentDistance := VectorClass.length Vector3 offset in
  let nextDistance :=
    computeZoomedCameraDistance currentDistance (minDistance (controls m))
                                (maxDistance (controls m)) None in
  let lower := if Num.isFinite (minDistance (controls m))
               then minDistance (controls m) else 0%float in
  let upper := if Num.isFinite (maxDistance (controls m))
               then Num.max lower (maxDistance (controls m)) else infinity in
  state m' = state m /\ controls m' = controls m
  /\ lotEditState m' = lotEditState m /\ listeners m' = listeners m
  /\ (m' = m
      \/ (editActive m = false
          /\ isDesktopPointer (Ev.pointerType event) = true
          /\ Num.gtb currentDistance 1e-8 = true
          /\ (abs (nextDistance - currentDistance) <=? 1e-8)%float = false
          /\ position (camera m')
             = addVectors (target (controls m))
                 (VectorClass.setLength Vector3 offset nextDistance)
          /\ calls m'
             = preventDefault
                 :: (if onUserNavigate then [onUserNavigate_call] else [])
                 ++ controls_update :: calls m
          /\ (Num.isFinite currentDistance = true ->
              (lower <=? nextDistance)%float = true
              /\ (nextDistance <=? upper)%float = true))).
Proof.
  intros m' offset currentDistance nextDistance lower upper.
  subst m'. unfold handleDoubleClick, emitUserNavigate.
  fold offset. fold currentDistance. fold nextDistance.
  destruct (editActive m) eqn:He; [repeat split; left; reflexivity|].
  destruct (isDesktopPointer (Ev.pointerType event)) eqn:Hd;
    [|repeat split; left; reflexivity].
  cbn [negb].
  destruct (Num.gtb currentDistance 1e-8) eqn:Hg;
    [|repeat split; left; reflexivity].
  cbn [negb].
  destruct (abs (nextDistance - currentDistance) <=? 1e-8)%float eqn:Ha;
    [repeat split; left; reflexivity|].
  assert (Hb : Num.isFinite currentDistance = true ->
               (lower <=? nextDistance)%float = true
               /\ (nextDistance <=? upper)%float = true).
  { intros Hf. subst nextDistance. unfold computeZoomedCameraDistance.
    rewrite Hf. cbn [negb orb].
    destruct (currentDistance <=? 0)%float eqn:H0.
    - exfalso. unfold Num.gtb in Hg.
      assert (T : (currentDistance <=? 1e-8)%float = true).
      { apply (leb_trans _ 0%float); [exact H0|reflexivity]. }
      pose proof (ltb_not_leb _ _ Hg). congruence.
    - fold lower. fold upper. apply clamp_bounds.
      + apply mul_finite_not_nan; [exact Hf|reflexivity].
      + apply zoom_bounds_ordered. }
  split; [destruct onUserNavigate; reflexivity|].
  split; [destruct onUserNavigate; reflexivity|].
  split; [destruct onUserNavigate; reflexivity|].
  split; [destruct onUserNavigate; reflexivity|].
  right. split; [reflexivity|]. split; [reflexivity|]. split; [reflexivity|].
  split; [reflexivity|].
  split; [destruct onUserNavigate; reflexivity|].
  split; [destruct onUserNavigate; reflexivity|exact Hb].
Qed.

(* ------------------------------------------------------------------ *)
(** ** The record of calls *)

(** X12: navigation is announced exactly once per controller update.  In
    every state reached from a successful install, the navigation callback
    has been called as many times as [controls.update] when a callback was
    given, and not at all when none was. *)
Theorem navigate_follows_update `{Host} (config : Config)
    (MOUSE : MouseTable) (Vector3 : VectorClass.t) (onUserNavigate : bool)
    (m0 : Machine) :
  installSafeControlsRefinement config = installed MOUSE Vector3 onUserNavigate m0 ->
  forall inputs : list Input,
    let m := run MOUSE Vector3 onUserNavigate inputs m0 in
    length (List.filter isNavigate (calls m))
    = if onUserNavigate then length (List.filter isUpdate (calls m)) else 0%nat.
Proof.
  intros Hi inputs m. destruct (installed_start _ _ _ _ _ Hi) as (_ & _ & Hc).
  subst m. apply (run_preserves MOUSE Vector3 onUserNavigate
                    (navigateFollowsUpdate onUserNavigate)).
  - apply dispatch_navigate.
  - unfold navigateFollowsUpdate. rewrite Hc. destruct onUserNavigate; reflexivity.
Qed.

Lemma navigate_follows_update_witness :
  exists m0,
    installSafeControlsRefinement (@harnessConfig naiveHost)
    = installed harnessMOUSE (@FakeVector3 naiveHost) true m0
    /\ let m := @run naiveHost harnessMOUSE (@FakeVector3 naiveHost) true
                  [dblclick (makePointerEvent "mouse" 1 0 false false 0)] m0 in
       length (List.filter isNavigate (calls m))
       = length (List.filter isUpdate (calls m)).
Proof.
  eexists. split; [reflexivity|].
  exact (@navigate_follows_update naiveHost (@harnessConfig naiveHost)
           harnessMOUSE (@FakeVector3 naiveHost) true _ eq_refl
           [dblclick (makePointerEvent "mouse" 1 0 false false 0)]).
Defined.

(** X13: the tilt handed to the controller is small and never negligible.
    In every state reached from a successful install, every
    [controls.rotateUp] call recorded carries an angle whose magnitude is
    above 1e-12 and at most 0.1, however far the pointer was dragged
    between two events. *)
Theorem tilt_calls_bounded `{Host} (config : Config)
    (MOUSE : MouseTable) (Vector3 : VectorClass.t) (onUserNavigate : bool)
    (m0 : Machine) :
  installSafeControlsRefinement config = installed MOUSE Vector3 onUserNavigate m0 ->
  forall (inputs : list Input) (amount : float),
    let m := run MOUSE Vector3 onUserNavigate inputs m0 in
    In (controls_rotateUp amount) (calls m) ->
    (abs amount <=? 0.1)%float = true /\ (abs amount <=? 1e-12)%float = false.
Proof.
  intros Hi inputs amount m Hin.
  destruct (installed_start _ _ _ _ _ Hi) as (_ & _ & Hc).
  assert (Inv : Forall tiltCallBounded (calls m)).
  { subst m. apply (run_preserves MOUSE Vector3 onUserNavigate
                      (fun m => Forall tiltCallBounded (calls m))).
    - apply dispatch_tilt_calls.
    - rewrite Hc. constructor. }
  rewrite List.Forall_forall in Inv. exact (Inv _ Hin).
Qed.

Lemma tilt_calls_bounded_witness :
  exists m0 amount,
    installSafeControlsRefinement (@harnessConfig naiveHost)
    = installed harnessMOUSE (@FakeVector3 naiveHost) true m0
    /\ In (controls_rotateUp amount)
          (calls (@run naiveHost harnessMOUSE (@FakeVector3 naiveHost) true
                    [pointerdown (makePointerEvent "mouse" 1 0 true false 100);
                     pointermove (makePointerEvent "mouse" 1 0 true false 900)] m0))
    /\ (abs amount <=? 0.1)%float = true.
Proof.
  eexists. exists 0.1%float. split; [reflexivity|].
  assert (Hin : In (controls_rotateUp 0.1)
                   (calls (@run naiveHost harnessMOUSE (@FakeVector3 naiveHost) true
                      [pointerdown (makePointerEvent "mouse" 1 0 true false 100);
                       pointermove (makePointerEvent "mouse" 1 0 true false 900)]
                      (resetLeftMouseBinding harnessMOUSE
                         {| state := initialState; controls := harnessControls;
                            camera := {| position := V.mk 0 0 5 |};
                            lotEditState := Some {| active := false |};
                            listeners := initialListeners; calls := [] |})))).
  { vm_compute. right. right. right. left. reflexivity. }
  split; [exact Hin|].
  exact (proj1 (@tilt_calls_bounded naiveHost (@harnessConfig naiveHost)
                  harnessMOUSE (@FakeVector3 naiveHost) true _ eq_refl _ _ Hin)).
Defined.

(* ------------------------------------------------------------------ *)
(** ** Edit mode and releases *)

(** X14: edit mode never blocks a release.  Pointer-up, pointer-cancel and
    window blur do not read the edit-mode flag: handling one of them and
    flipping the flag commute, so a tilt or a tracked mouse pointer is
    released in edit mode exactly as outside it. *)
Theorem release_ignores_edit_mode `{Host} (MOUSE : MouseTable)
    (Vector3 : VectorClass.t) (onUserNavigate : bool)
    (event : Ev.t) (b : bool) (m : Machine) :
  let flip := dispatch MOUSE Vector3 onUserNavigate (set_edit_active b) in
  handlePointerUpOrCancel MOUSE event (flip m)
  = flip (handlePointerUpOrCancel MOUSE event m)
  /\ handleWindowBlur MOUSE (flip m) = flip (handleWindowBlur MOUSE m).
Proof.
  intros flip. subst flip. cbn [dispatch].
  destruct m as [[mode ids am [ta tp ty]] c cam l ls cs].
  unfold handlePointerUpOrCancel, handleWindowBlur, endShiftTilt,
    resetLeftMouseBinding.
  cbn [state controls camera lotEditState listeners calls shiftTilt Tilt.active
       Tilt.pointerId].
  split.
  - destruct (isDesktopPointer (Ev.pointerType event)); cbn [negb]; [|reflexivity].
    destruct ta; cbn [negb];
      [destruct (bool_decide (Some (Ev.pointerId event) = tp)); cbn [negb]|];
      simpl; destruct (_ || _); reflexivity.
  - destruct ta; reflexivity.
Qed.

(* ------------------------------------------------------------------ *)
(** ** Touch and pen events *)

(** X15: an event of a touch or pen pointer changes nothing but the touch
    set and the mode.  The controller (binding and enabled flag included),
    the camera, the tilt sub-state, the tracked mouse pointer and the record
    of calls are left alone; pointer-move and double-click of such a
    pointer change nothing at all. *)
Theorem touch_events_only_touch_state `{Host} (MOUSE : MouseTable)
    (Vector3 : VectorClass.t) (onUserNavigate : bool) (i : Input) (m : Machine) :
  isTouchInput i = true ->
  let m' := dispatch MOUSE Vector3 onUserNavigate i m in
  controls m' = controls m /\ camera m' = camera m /\ calls m' = calls m
  /\ shiftTilt (state m') = shiftTilt (state m)
  /\ activeMousePointerId (state m') = activeMousePointerId (state m)
  /\ lotEditState m' = lotEditState m
  /\ (forall e, i = pointermove e \/ i = dblclick e -> m' = m).
Proof.
  intros Ht m'. subst m'.
  destruct i as [e|e|e|e| |e|b]; cbn [isTouchInput] in Ht; try discriminate;
    cbn [dispatch]; destruct (registered _ _ m);
    unfold handlePointerDown, handlePointerMove, handlePointerUpOrCancel,
      handleDoubleClick, updateTouchInteractionMode, with_state;
    rewrite ?Ht; cbv beta iota;
    cbn [state controls camera lotEditState listeners calls];
    repeat match goal with
           | |- context [if ?b then _ else _] => destruct b
           end;
    repeat (split; [reflexivity|]);
    intros e' [E|E]; (discriminate || reflexivity).
Qed.

Lemma touch_events_only_touch_state_witness :
  let m := {| state := initialState; controls := harnessControls;
              camera := {| position := V.mk 0 0 5 |};
              lotEditState := None; listeners := initialListeners; calls := [] |} in
  let m' := @dispatch naiveHost harnessMOUSE (@FakeVector3 naiveHost) true
              (pointerdown (makePointerEvent "touch" 10 0 true true 0)) m in
  controls m' = controls m /\ calls m' = calls m.
Proof.
  intros m m'.
  pose proof (@touch_events_only_touch_state naiveHost harnessMOUSE
                (@FakeVector3 naiveHost) true
                (pointerdown (makePointerEvent "touch" 10 0 true true 0)) m eq_refl)
    as (Hc & _ & Hl & _).
  split; [exact Hc|exact Hl].
Defined.

(* ------------------------------------------------------------------ *)
(** ** The range and the order of decoded half-floats *)

Lemma decodeFloat16_bits_range_all :
  all_from (Z.to_nat 65536) 0 (fun bits => inHalfRange (decodeFloat16_bits bits)) = true.
Proof. vm_compute. reflexivity. Qed.

Lemma decodeFloat16_bits_step_all :
  all_from (Z.to_nat 32768) 0 halfStepOk = true.
Proof. vm_compute. reflexivity. Qed.

Lemma decodeFloat16_inHalfRange (value : float) :
  inHalfRange (decodeFloat16 value) = true.
Proof.
  unfold decodeFloat16. destruct (Num.isFinite value); cbn [negb]; [|reflexivity].
  apply (all_from_spec _ _ 0 decodeFloat16_bits_range_all).
  change 65535 with (Z.ones 16). rewrite Z.land_ones by lia.
  rewrite Z2Nat.id by lia. apply Z.mod_pos_bound. lia.
Qed.

Lemma abs_opp (v : float) : abs (- v) = abs v.
Proof.
  apply Prim2SF_inj. rewrite !abs_spec, opp_spec.
  destruct (Prim2SF v); reflexivity.
Qed.

Lemma isFinite_opp (v : float) : Num.isFinite (- v) = Num.isFinite v.
Proof.
  unfold Num.isFinite, is_finite.
  unfold is_nan, is_infinity.
  rewrite !FloatAxioms.eqb_spec, abs_opp. rewrite !opp_spec.
  destruct (Prim2SF v) as [s|s| |s m e]; try destruct s; try reflexivity.
  all: simpl; unfold SFeqb; simpl; rewrite Pos.compare_refl, Z.compare_refl;
    reflexivity.
Qed.

Lemma opp_ltb (a b : float) : (- a <? - b)%float = (b <? a)%float.
Proof.
  rewrite !ltb_spec, !opp_spec. unfold SFltb. rewrite SFcompare_opp. reflexivity.
Qed.

Lemma decodeFloat16_bits_step (bits : Z) :
  0 <= bits < 0x8000 ->
  (bits < 0x7c00 ->
   (decodeFloat16_bits bits <? decodeFloat16_bits (bits + 1))%float = true)
  /\ decodeFloat16_bits (bits + 0x8000) = (- decodeFloat16_bits bits)%float.
Proof.
  intros Hb.
  assert (S : halfStepOk bits = true).
  { apply (all_from_spec _ _ 0 decodeFloat16_bits_step_all).
    rewrite Z2Nat.id; lia. }
  unfold halfStepOk in S. apply andb_true_iff in S as [S1 S2]. split.
  - intros Hlt. apply orb_true_iff in S1 as [S1|S1]; [|exact S1].
    apply Z.leb_le in S1. lia.
  - apply Prim2SF_inj.
    destruct (Prim2SF (decodeFloat16_bits (bits + 0x8000))) as [s|s| |s m e],
      (Prim2SF (- decodeFloat16_bits bits)%float) as [t|t| |t n f];
      try discriminate; try reflexivity.
    + apply eqb_prop in S2. congruence.
    + apply eqb_prop in S2. congruence.
    + apply andb_true_iff in S2 as [S2 S3]. apply andb_true_iff in S2 as [S2 S4].
      apply eqb_prop in S2. apply Pos.eqb_eq in S4. apply Z.eqb_eq in S3.
      congruence.
Qed.

(** X16: what [decodeFloat16] can return.  For every Number [value], the
    result is not finite (NaN or an infinity), or its magnitude is at most
    65504 and it is a zero or at least [2 ** -24] in magnitude: no decoded
    coordinate lies outside the half-float range. *)
Theorem decodeFloat16_range (value : float) :
  let r := decodeFloat16 value in
  Num.isFinite r = false
  \/ ((abs r <=? 65504)%float = true
      /\ ((r =? 0)%float = true \/ (Num.pow2 (-24) <=? abs r)%float = true)).
Proof.
  intros r. pose proof (decodeFloat16_inHalfRange value) as R. fold r in R.
  unfold inHalfRange in R. apply orb_true_iff in R as [R|R].
  - left. apply negb_true_iff, R.
  - right. apply andb_true_iff in R as [R1 R2]. split; [exact R1|].
    apply orb_true_iff in R2. exact R2.
Qed.

(** X17: half-float bit patterns are ordered like the Numbers they decode
    to.  For bit patterns [a < b] from 0 up to 0x7c00 ([+Infinity]) the
    decoded value of [a] is strictly below that of [b]; setting the sign bit
    negates the decoded value, so with the sign bit set the order is
    reversed. *)
Theorem decodeFloat16_bits_ordered (a b : Z) :
  0 <= a -> a < b -> b <= 0x7c00 ->
  (decodeFloat16_bits a <? decodeFloat16_bits b)%float = true
  /\ decodeFloat16_bits (a + 0x8000) = (- decodeFloat16_bits a)%float
  /\ decodeFloat16_bits (b + 0x8000) = (- decodeFloat16_bits b)%float
  /\ (decodeFloat16_bits (b + 0x8000) <? decodeFloat16_bits (a + 0x8000))%float = true.
Proof.
  intros Ha Hab Hb.
  assert (Up : forall n : nat, a + 1 + Z.of_nat n <= 0x7c00 ->
             (decodeFloat16_bits a <? decodeFloat16_bits (a + 1 + Z.of_nat n))%float
             = true).
  { induction n as [|n IH]; intros Hn.
    - rewrite Z.add_0_r. apply decodeFloat16_bits_step; lia.
    - apply (ltb_trans _ (decodeFloat16_bits (a + 1 + Z.of_nat n))).
      + apply IH. lia.
      + replace (a + 1 + Z.of_nat (S n)) with (a + 1 + Z.of_nat n + 1) by lia.
        apply decodeFloat16_bits_step; lia. }
  assert (Lt : (decodeFloat16_bits a <? decodeFloat16_bits b)%float = true).
  { replace b with (a + 1 + Z.of_nat (Z.to_nat (b - a - 1))) by lia.
    apply Up. lia. }
  destruct (decodeFloat16_bits_step a ltac:(lia)) as [_ Na].
  destruct (decodeFloat16_bits_step b ltac:(lia)) as [_ Nb].
  split; [exact Lt|]. split; [exact Na|]. split; [exact Nb|].
  rewrite Na, Nb, opp_ltb. exact Lt.
Qed.

Lemma decodeFloat16_bits_ordered_witness :
  (decodeFloat16_bits 0x3c00 <? decodeFloat16_bits 0x4000)%float = true
  /\ (decodeFloat16_bits 0xc000 <? decodeFloat16_bits 0xbc00)%float = true.
Proof.
  pose proof (decodeFloat16_bits_ordered 0x3c00 0x4000 ltac:(lia) ltac:(lia) ltac:(lia))
    as (H1 & _ & _ & H2).
  split; [exact H1|exact H2].
Defined.

(* ------------------------------------------------------------------ *)
(** ** More on point sampling *)

Lemma floor_nonneg_of_positive (t : float) : Num.gtb t 0 = true -> 0 <= Num.floor t.
Proof.
  unfold Num.gtb, Num.floor. rewrite ltb_spec.
  change (Prim2SF 0) with (S754_zero false).
  destruct (Prim2SF t) as [s|s| |s m e]; try (intros _; lia).
  destruct s; [discriminate|]. intros _.
  destruct (0 <=? e) eqn:E.
  - apply Z.shiftl_nonneg. lia.
  - apply Z.shiftr_nonneg. lia.
Qed.

Lemma normalizedTargetSampleCount_nonneg (targetSampleCount : option float) :
  0 <= normalizedTargetSampleCount targetSampleCount.
Proof.
  unfold normalizedTargetSampleCount, DEFAULT_TARGET_SAMPLE_COUNT.
  destruct targetSampleCount as [t|]; [|lia].
  destruct (Num.isFinite t); cbn [andb]; [|lia].
  destruct (Num.gtb t 0) eqn:G; [|lia].
  apply floor_nonneg_of_positive, G.
Qed.

(** The result for a budget of at least one point. *)
Lemma sampleCpuPointsForFocus_kept (cpuPoints : list float) (pointCount : float)
    (targetSampleCount : option float) :
  let N := normalizedTargetSampleCount targetSampleCount in
  let source := sourcePointCountOf cpuPoints pointCount in
  let s := ceilQuot source N in
  let kept := List.filter (pointFinite cpuPoints) (strideIndices source s) in
  3 <= Z.of_nat (length cpuPoints) -> source <> 0 -> 1 <= N ->
  sampleCpuPointsForFocus (Some cpuPoints) pointCount targetSampleCount
  = match kept with
    | [] => None
    | _ :: _ => Some {| samples := flat_map (pointAt cpuPoints) kept;
                        stride := Int s;
                        sourcePointCount := source;
                        sampledPointCount := Z.of_nat (length kept) |}
    end.
Proof.
  intros N source s kept Hlen Hsrc HN.
  pose proof (sourcePointCountOf_nonneg cpuPoints pointCount) as Hnn. fold source in Hnn.
  destruct (stride_least source N ltac:(lia) HN) as (Hs & Hfit & Hleast).
  fold s in Hs, Hfit, Hleast.
  pose proof (ceilQuot_pos source s ltac:(lia) ltac:(lia)) as Hest.
  pose proof (ceilQuot_self_bound source s ltac:(lia) Hs) as Hest'.
  pose proof (sampleCpuPointsForFocus_unfold cpuPoints pointCount targetSampleCount
                Hlen Hsrc HN) as U.
  fold N source s in U. cbv zeta in U.
  assert (L : sample_loop (Z.to_nat source) cpuPoints source (Int s) (Int 0)
                (replicate (Z.to_nat (ceilQuot source s * 3)) 0%float) 0
              = (flat_map (pointAt cpuPoints) kept
                   ++ replicate (Z.to_nat (ceilQuot source s * 3) - 3 * length kept) 0%float,
                 0 + 3 * Z.of_nat (length kept))).
  { exact (sample_loop_spec cpuPoints source s Hs
             (Z.to_nat (ceilQuot source s)) 0 [] (Z.to_nat source)
             (Z.to_nat (ceilQuot source s * 3))
             ltac:(lia) ltac:(lia) ltac:(lia)). }
  rewrite L in U. clear L. rewrite U. clear U.
  assert (Hkl : (length kept <= Z.to_nat (ceilQuot source s))%nat).
  { subst kept. etransitivity; [apply filter_length_le|].
    unfold strideIndices. rewrite length_map, length_seq. lia. }
  destruct kept as [|i kept'] eqn:Ek; [reflexivity|]. rewrite <- Ek in *.
  assert (Hpos : (0 < length kept)%nat) by (rewrite Ek; simpl; lia).
  destruct (Z.eqb_spec (0 + 3 * Z.of_nat (length kept)) 0) as [?|_]; [lia|].
  set (flat := flat_map (pointAt cpuPoints) kept).
  assert (Hfl : length flat = (3 * length kept)%nat)
    by apply flat_map_pointAt_length.
  set (rest := replicate _ 0%float).
  assert (Hsel : (if negb (0 + 3 * Z.of_nat (length kept)
                           =? Z.of_nat (length (flat ++ rest)))
                  then take (Z.to_nat (0 + 3 * Z.of_nat (length kept))) (flat ++ rest)
                  else flat ++ rest) = flat).
  { destruct (Z.eqb_spec (0 + 3 * Z.of_nat (length kept))
                         (Z.of_nat (length (flat ++ rest)))) as [Eq|Ne]; simpl.
    - rewrite length_app in Eq.
      assert (length rest = 0%nat) as Hr by lia.
      destruct rest; [apply app_nil_r|discriminate].
    - replace (Z.to_nat (0 + 3 * Z.of_nat (length kept))) with (length flat) by lia.
      apply take_app_length. }
  cbv zeta. rewrite Hsel. do 2 f_equal.
  rewrite Hfl. rewrite Nat2Z.inj_mul. simpl Z.of_nat.
  rewrite Z.mul_comm. apply Z.div_mul. lia.
Qed.

(** The result for a budget of zero points: the stride is [+Infinity], the
    typed array has no room, and only the first point is visited. *)
Lemma sampleCpuPointsForFocus_no_budget (cpuPoints : list float) (pointCount : float)
    (targetSampleCount : option float) :
  let source := sourcePointCountOf cpuPoints pointCount in
  3 <= Z.of_nat (length cpuPoints) -> source <> 0 ->
  normalizedTargetSampleCount targetSampleCount = 0 ->
  sampleCpuPointsForFocus (Some cpuPoints) pointCount targetSampleCount
  = if pointFinite cpuPoints 0
    then Some {| samples := []; stride := PInf; sourcePointCount := source;
                 sampledPointCount := 0 |}
    else None.
Proof.
  intros source Hlen Hsrc HN.
  pose proof (sourcePointCountOf_nonneg cpuPoints pointCount) as Hnn. fold source in Hnn.
  unfold sampleCpuPointsForFocus.
  destruct (Z.ltb_spec (Z.of_nat (length cpuPoints)) 3) as [?|_]; [lia|].
  cbv zeta.
  change (Z.min (if Num.isFinite pointCount then Z.max 0 (Num.floor pointCount)
                 else Z.of_nat (length cpuPoints) / 3)
                (Z.of_nat (length cpuPoints) / 3)) with source.
  destruct (Z.eqb_spec source 0) as [?|_]; [lia|].
  change (match targetSampleCount with
          | Some t => if Num.isFinite t && Num.gtb t 0 then Num.floor t
                      else DEFAULT_TARGET_SAMPLE_COUNT
          | None => DEFAULT_TARGET_SAMPLE_COUNT
          end) with (normalizedTargetSampleCount targetSampleCount).
  rewrite HN. cbn [ceilDiv Z.eqb max1 xmul3 Z.to_nat replicate].
  destruct (Z.to_nat source) as [|fuel] eqn:Ef; [lia|].
  cbn [sample_loop].
  destruct (Z.ltb_spec 0 source) as [_|?]; [|lia].
  change (negb (Num.isFinite (- decodeFloat16 (read cpuPoints (0 * 3))))
          || negb (Num.isFinite (- decodeFloat16 (read cpuPoints (0 * 3 + 1))))
          || negb (Num.isFinite (decodeFloat16 (read cpuPoints (0 * 3 + 2)))))
    with (let p := pointAt cpuPoints 0 in
          negb (Num.isFinite (nth 0 p nan)) || negb (Num.isFinite (nth 1 p nan))
          || negb (Num.isFinite (nth 2 p nan))).
  unfold pointFinite. cbn [pointAt forallb nth].
  destruct (Num.isFinite (- decodeFloat16 (read cpuPoints (0 * 3)))),
    (Num.isFinite (- decodeFloat16 (read cpuPoints (0 * 3 + 1)))),
    (Num.isFinite (decodeFloat16 (read cpuPoints (0 * 3 + 2))));
    cbn [negb orb andb xadd]; destruct fuel; reflexivity.
Qed.

Lemma pointFinite_in_range (cpuPoints : list float) (i : Z) :
  pointFinite cpuPoints i = true ->
  Forall (fun v => Num.isFinite v = true /\ (abs v <=? 65504)%float = true)
         (pointAt cpuPoints i).
Proof.
  assert (R : forall value, Num.isFinite (decodeFloat16 value) = true ->
                (abs (decodeFloat16 value) <=? 65504)%float = true).
  { intros value F. pose proof (decodeFloat16_inHalfRange value) as R.
    unfold inHalfRange in R. rewrite F in R. cbn [negb orb] in R.
    apply andb_true_iff in R as [R _]. exact R. }
  unfold pointFinite, pointAt. cbn [forallb]. intros F.
  apply andb_true_iff in F as [F1 F]. apply andb_true_iff in F as [F2 F].
  apply andb_true_iff in F as [F3 _].
  repeat constructor; try assumption.
  - rewrite abs_opp. apply R. rewrite <- isFinite_opp. exact F1.
  - rewrite abs_opp. apply R. rewrite <- isFinite_opp. exact F2.
  - apply R, F3.
Qed.

(** X18: whatever [sampleCpuPointsForFocus] returns is well formed.  For
    every buffer, point count and sample budget, a result that is not none
    comes from a buffer of at least one whole point; its source point count
    is at least 1 and at most the number of whole points of the buffer;
    its sample array holds three Numbers per sampled point, every one of
    them finite and of magnitude at most 65504; no more points are sampled
    than there are source points; and its stride is either an integer
    between 1 and the source point count, with at least one point sampled,
    or [+Infinity], with no point sampled at all. *)
Theorem sampleCpuPointsForFocus_well_formed (cpuPoints : option (list float))
    (pointCount : float) (targetSampleCount : option float) (r : SampleResult) :
  sampleCpuPointsForFocus cpuPoints pointCount targetSampleCount = Some r ->
  exists points,
    cpuPoints = Some points
    /\ 1 <= sourcePointCount r <= Z.of_nat (length points) / 3
    /\ Z.of_nat (length (samples r)) = 3 * sampledPointCount r
    /\ Forall (fun v => Num.isFinite v = true /\ (abs v <=? 65504)%float = true)
              (samples r)
    /\ sampledPointCount r <= sourcePointCount r
    /\ match stride r with
       | Int s => 1 <= s <= sourcePointCount r /\ 1 <= sampledPointCount r
       | PInf => sampledPointCount r = 0
       end.
Proof.
  destruct cpuPoints as [points|]; [|discriminate].
  intros Hr. exists points. split; [reflexivity|].
  set (source := sourcePointCountOf points pointCount).
  set (N := normalizedTargetSampleCount targetSampleCount).
  pose proof (sourcePointCountOf_nonneg points pointCount) as Hnn. fold source in Hnn.
  assert (Hav : source <= Z.of_nat (length points) / 3).
  { subst source. unfold sourcePointCountOf. lia. }
  destruct (Z_lt_ge_dec (Z.of_nat (length points)) 3) as [Hlt|Hlen].
  { unfold sampleCpuPointsForFocus in Hr.
    destruct (Z.ltb_spec (Z.of_nat (length points)) 3); [discriminate|lia]. }
  destruct (Z.eq_dec source 0) as [Hz|Hsrc].
  { unfold sampleCpuPointsForFocus in Hr.
    destruct (Z.of_nat (length points) <? 3); [discriminate|]. cbv zeta in Hr.
    change (Z.min (if Num.isFinite pointCount then Z.max 0 (Num.floor pointCount)
                   else Z.of_nat (length points) / 3)
                  (Z.of_nat (length points) / 3)) with source in Hr.
    rewrite Hz in Hr. discriminate. }
  pose proof (normalizedTargetSampleCount_nonneg targetSampleCount) as HN0. fold N in HN0.
  destruct (Z.eq_dec N 0) as [HN|HN].
  - rewrite (sampleCpuPointsForFocus_no_budget points pointCount targetSampleCount
               ltac:(lia) Hsrc HN) in Hr.
    destruct (pointFinite points 0); [|discriminate].
    injection Hr as <-. cbn [samples stride sourcePointCount sampledPointCount length].
    fold source. repeat split; try lia. constructor.
  - rewrite (sampleCpuPointsForFocus_kept points pointCount targetSampleCount
               ltac:(lia) Hsrc ltac:(fold N; lia)) in Hr.
    fold source N in Hr.
    set (s := ceilQuot source N) in *.
    set (kept := List.filter (pointFinite points) (strideIndices source s)) in *.
    assert (Hs : 1 <= s) by (apply ceilQuot_pos; lia).
    assert (Hs' : s <= source) by (apply ceilQuot_self_bound; lia).
    assert (Hkl : Z.of_nat (length kept) <= source).
    { pose proof (ceilQuot_self_bound source s ltac:(lia) Hs).
      pose proof (ceilQuot_pos source s ltac:(lia) ltac:(lia)).
      assert ((length kept <= Z.to_nat (ceilQuot source s))%nat); [|lia].
      subst kept. etransitivity; [apply filter_length_le|].
      unfold strideIndices. rewrite length_map, length_seq. lia. }
    assert (Hfin : Forall (fun v => Num.isFinite v = true
                                    /\ (abs v <=? 65504)%float = true)
                          (flat_map (pointAt points) kept)).
    { apply List.Forall_flat_map. rewrite List.Forall_forall. intros i Hi.
      apply pointFinite_in_range. subst kept.
      apply List.filter_In in Hi. tauto. }
    destruct kept as [|i kept'] eqn:Ek; [discriminate|]. rewrite <- Ek in *.
    assert (Hpos : (0 < length kept)%nat) by (rewrite Ek; simpl; lia).
    injection Hr as <-. cbn [samples stride sourcePointCount sampledPointCount].
    rewrite flat_map_pointAt_length.
    repeat split; try lia. exact Hfin.
Qed.

Lemma sampleCpuPointsForFocus_well_formed_witness :
  exists r,
    sampleCpuPointsForFocus
      (Some [0x3c00; 0xc000; 0x4200; 0x7c00; 0; 0; 1; 2; 3; 4]%float)
      nan (Some 2%float) = Some r
    /\ Z.of_nat (length (samples r)) = 3 * sampledPointCount r.
Proof.
  eexists. split; [vm_compute; reflexivity|].
  destruct (sampleCpuPointsForFocus_well_formed
              (Some [0x3c00; 0xc000; 0x4200; 0x7c00; 0; 0; 1; 2; 3; 4]%float)
              nan (Some 2%float) _ eq_refl) as (points & _ & _ & Hl & _).
  exact Hl.
Defined.

(** X19: a fractional sample budget.  When [targetSampleCount] is finite
    and positive but its floor is 0 (a budget between 0 and 1), the stride
    is [+Infinity] and the sample array has no room: for a buffer with at
    least one whole source point the result is none when the first point
    does not decode to three finite Numbers, and otherwise a result with an
    empty sample array, stride [+Infinity] and a sampled point count of 0. *)
Theorem sampleCpuPointsForFocus_fractional_target (cpuPoints : list float)
    (pointCount targetSampleCount : float) :
  let source := sourcePointCountOf cpuPoints pointCount in
  Num.isFinite targetSampleCount = true ->
  Num.gtb targetSampleCount 0 = true ->
  Num.floor targetSampleCount = 0 ->
  3 <= Z.of_nat (length cpuPoints) -> source <> 0 ->
  sampleCpuPointsForFocus (Some cpuPoints) pointCount (Some targetSampleCount)
  = if pointFinite cpuPoints 0
    then Some {| samples := []; stride := PInf; sourcePointCount := source;
                 sampledPointCount := 0 |}
    else None.
Proof.
  intros source Hf Hg H0 Hlen Hsrc.
  apply sampleCpuPointsForFocus_no_budget; [exact Hlen|exact Hsrc|].
  unfold normalizedTargetSampleCount. rewrite Hf, Hg. exact H0.
Qed.

Lemma sampleCpuPointsForFocus_fractional_target_witness :
  sampleCpuPointsForFocus (Some [0x3c00; 0xc000; 0x4200; 0; 0; 0]%float) nan
                          (Some 0.5%float)
  = Some {| samples := []; stride := PInf; sourcePointCount := 2;
            sampledPointCount := 0 |}.
Proof.
  exact (sampleCpuPointsForFocus_fractional_target
           [0x3c00; 0xc000; 0x4200; 0; 0; 0]%float nan 0.5%float
           eq_refl eq_refl eq_refl ltac:(vm_compute; discriminate)
           ltac:(vm_compute; discriminate)).
Defined.

(** X20: no subsampling within the budget.  When the source point count
    does not exceed the budget (18000 when [targetSampleCount] is omitted),
    the stride is 1 and every source point whose three coordinates decode
    to finite Numbers is kept, in buffer order; the result is none exactly
    when no source point is finite. *)
Theorem sampleCpuPointsForFocus_within_budget (cpuPoints : list float)
    (pointCount : float) (targetSampleCount : option float) :
  let N := normalizedTargetSampleCount targetSampleCount in
  let source := sourcePointCountOf cpuPoints pointCount in
  let kept := List.filter (pointFinite cpuPoints)
                          (map Z.of_nat (seq 0 (Z.to_nat source))) in
  3 <= Z.of_nat (length cpuPoints) -> source <> 0 -> source <= N ->
  sampleCpuPointsForFocus (Some cpuPoints) pointCount targetSampleCount
  = match kept with
    | [] => None
    | _ :: _ => Some {| samples := flat_map (pointAt cpuPoints) kept;
                        stride := Int 1;
                        sourcePointCount := source;
                        sampledPointCount := Z.of_nat (length kept) |}
    end.
Proof.
  intros N source kept Hlen Hsrc HN.
  pose proof (sourcePointCountOf_nonneg cpuPoints pointCount) as Hnn. fold source in Hnn.
  rewrite (sampleCpuPointsForFocus_kept cpuPoints pointCount targetSampleCount
             Hlen Hsrc ltac:(fold N source; lia)).
  fold source N.
  assert (Es : ceilQuot source N = 1).
  { pose proof (ceilQuot_pos source N ltac:(lia) ltac:(lia)).
    assert (ceilQuot source N <= 1) by (apply ceilQuot_le_iff; lia). lia. }
  rewrite Es.
  assert (Ei : strideIndices source 1 = map Z.of_nat (seq 0 (Z.to_nat source))).
  { unfold strideIndices.
    replace (ceilQuot source 1) with source
      by (unfold ceilQuot; rewrite Z.div_1_r; lia).
    apply map_ext. intros k. lia. }
  rewrite Ei. reflexivity.
Qed.

Lemma sampleCpuPointsForFocus_within_budget_witness :
  sampleCpuPointsForFocus (Some [0x3c00; 0xc000; 0x4200; 0x7c00; 0; 0]%float) nan None
  = Some {| samples := [-1; 2; 3]%float; stride := Int 1; sourcePointCount := 2;
            sampledPointCount := 1 |}.
Proof.
  exact (sampleCpuPointsForFocus_within_budget
           [0x3c00; 0xc000; 0x4200; 0x7c00; 0; 0]%float nan None
           ltac:(vm_compute; discriminate) ltac:(vm_compute; discriminate)
           ltac:(vm_compute; discriminate)).
Defined.
